(** * A shallow embedding of [darknet.py] (YOLOv3)

    The first part of the file is the embedding: the configuration parser
    [parse_cfg], the graph builder [create_modules], the weight loader
    [Darknet.load_weights], the tensors and the layers ([ShortcutLayer],
    [RouteLayer], [DetectionLayer]) and the executor [Darknet.forward], each
    followed by the vocabulary its statements use.  The second part holds
    the properties.

    Python values are modelled as follows.
    - [int] is [Z]; [//] is [Z.div] (both round towards minus infinity).
    - [str] is [string], read as a sequence of code points below 256.
    - a [dict] from [str] to [str] is a [gmap string string].
    - a raised exception is a value of [pyexn]; a computation that may
      raise has type [result A].
    - a float is a value of a type [F] the embedding never looks into; the
      operations of the numeric library on floats and tensors are the
      methods of the classes [Scalar] and [Kernels]. *)

From Stdlib Require Import ZArith Lia Ascii String ArithRing.
From stdpp Require Import base option list gmap strings.

Open Scope Z_scope.

(** ** Python preliminaries *)

(** The exception classes the program can raise, and their Python names. *)
Inductive pyexn : Set :=
| KeyError | ValueError | IndexError | RuntimeError | AttributeError
| TypeError | ZeroDivisionError.

Definition exn_class (e : pyexn) : string :=
  match e with
  | KeyError => "KeyError"
  | ValueError => "ValueError"
  | IndexError => "IndexError"
  | RuntimeError => "RuntimeError"
  | AttributeError => "AttributeError"
  | TypeError => "TypeError"
  | ZeroDivisionError => "ZeroDivisionError"
  end.

Inductive result (A : Type) : Type :=
| Ok (a : A)
| Raise (e : pyexn).
Arguments Ok {A} a.
Arguments Raise {A} e.

Definition bind {A B} (r : result A) (k : A -> result B) : result B :=
  match r with
  | Ok a => k a
  | Raise e => Raise e
  end.

Declare Scope py_scope.
Delimit Scope py_scope with py.
Notation "x <- c1 ;; c2" := (bind c1 (fun x => c2))
  (at level 100, c1 at next level, right associativity) : py_scope.
Open Scope py_scope.

Definition is_ok {A} (r : result A) : bool :=
  match r with Ok _ => true | Raise _ => false end.

Definition raises_class {A} (r : result A) (cls : string) : Prop :=
  match r with Ok _ => False | Raise e => exn_class e = cls end.

(** [l[i]] on a Python list: a negative index counts from the end. *)
Definition py_getitem {A} (l : list A) (i : Z) : result A :=
  let n := Z.of_nat (length l) in
  let j := if i <? 0 then i + n else i in
  if (0 <=? j) && (j <? n) then
    match l !! Z.to_nat j with
    | Some a => Ok a
    | None => Raise IndexError
    end
  else Raise IndexError.

(** [d[k]] on a dict. *)
Definition dict_getitem (d : gmap string string) (k : string) : result string :=
  match d !! k with
  | Some v => Ok v
  | None => Raise KeyError
  end.

(** [k in d.keys()]. *)
Definition dict_has (d : gmap string string) (k : string) : bool :=
  match d !! k with Some _ => true | None => false end.

(** *** Strings *)

(** [c.isspace()] for a code point below 256: the characters that
    [str.strip()] and [int()] remove. *)
Definition is_space (c : ascii) : bool :=
  let n := nat_of_ascii c in
  (((9 <=? n) && (n <=? 13)) || ((28 <=? n) && (n <=? 32))
   || (n =? 133) || (n =? 160))%nat.

Fixpoint lstrip (s : string) : string :=
  match s with
  | EmptyString => EmptyString
  | String c r => if is_space c then lstrip r else s
  end.

Fixpoint rstrip (s : string) : string :=
  match s with
  | EmptyString => EmptyString
  | String c r =>
      match rstrip r with
      | EmptyString => if is_space c then EmptyString else String c EmptyString
      | r' => String c r'
      end
  end.

(** [s.strip()]. *)
Definition strip (s : string) : string := rstrip (lstrip s).

(** [s.split(sep)] for a one-character separator: always at least one piece. *)
Fixpoint split (sep : ascii) (s : string) : list string :=
  match s with
  | EmptyString => [EmptyString]
  | String c r =>
      if Ascii.eqb c sep then EmptyString :: split sep r
      else match split sep r with
           | h :: t => String c h :: t
           | [] => [String c EmptyString]
           end
  end.

(** The number of occurrences of [c] in [s]. *)
Fixpoint count_char (c : ascii) (s : string) : nat :=
  match s with
  | EmptyString => 0%nat
  | String a r => ((if Ascii.eqb a c then 1 else 0) + count_char c r)%nat
  end.

Fixpoint drop_last (s : string) : string :=
  match s with
  | EmptyString => EmptyString
  | String c EmptyString => EmptyString
  | String c r => String c (drop_last r)
  end.

(** [s[1:-1]]. *)
Definition slice_1_m1 (s : string) : string :=
  match s with
  | EmptyString => EmptyString
  | String _ r => drop_last r
  end.

Definition digit_of (c : ascii) : option Z :=
  let n := nat_of_ascii c in
  if ((48 <=? n) && (n <=? 57))%nat then Some (Z.of_nat n - 48) else None.

(** Decimal digits, with single underscores allowed between digits. *)
Fixpoint digits_acc (acc : Z) (after_digit : bool) (s : string) : option Z :=
  match s with
  | EmptyString => if after_digit then Some acc else None
  | String c r =>
      match digit_of c with
      | Some d => digits_acc (10 * acc + d) true r
      | None =>
          if Ascii.eqb c "_"%char && after_digit then digits_acc acc false r
          else None
      end
  end.

(** The white space [int()] removes around a number.  It is narrower than
    that of [str.strip()]: the separators [\x1c] to [\x1f] are white space
    for [strip] but stay in the way of [int]. *)
Definition is_int_space (c : ascii) : bool :=
  let n := nat_of_ascii c in
  (((9 <=? n) && (n <=? 13)) || (n =? 32) || (n =? 133) || (n =? 160))%nat.

Fixpoint int_lstrip (s : string) : string :=
  match s with
  | EmptyString => EmptyString
  | String c r => if is_int_space c then int_lstrip r else s
  end.

Fixpoint int_rstrip (s : string) : string :=
  match s with
  | EmptyString => EmptyString
  | String c r =>
      match int_rstrip r with
      | EmptyString => if is_int_space c then EmptyString else String c EmptyString
      | r' => String c r'
      end
  end.

(** [int(s)] on a string: surrounding white space, an optional sign, decimal
    digits; anything else is a [ValueError]. *)
Definition py_int (s : string) : result Z :=
  match int_rstrip (int_lstrip s) with
  | EmptyString => Raise ValueError
  | String c r as t =>
      let '(neg, body) :=
        if Ascii.eqb c "-"%char then (true, r)
        else if Ascii.eqb c "+"%char then (false, r)
        else (false, t) in
      match digits_acc 0 false body with
      | Some n => Ok (if neg : bool then - n else n)
      | None => Raise ValueError
      end
  end.

(** [[int(x) for x in l]]: the first failure stops the comprehension. *)
Fixpoint mapM {A B} (f : A -> result B) (l : list A) : result (list B) :=
  match l with
  | [] => Ok []
  | a :: r => b <- f a ;; bs <- mapM f r ;; Ok (b :: bs)
  end.

(** ** [parse_cfg] *)

Abbreviation block := (gmap string string).

Definition newline : ascii := ascii_of_nat 10.

(** The two list comprehensions over the lines of the file. *)
Definition keep_line (l : string) : bool :=
  match l with
  | EmptyString => false
  | String c _ => negb (Ascii.eqb c "#"%char)
  end.

Definition cfg_lines (content : string) : list string :=
  filter (fun l => keep_line l = true) (map strip (split newline content)).

(** One iteration of [for line in lines], on the pair ([blocks], [block]). *)
Definition parse_line (st : list block * block) (line : string)
  : result (list block * block) :=
  let '(blocks, blk) := st in
  match line with
  | EmptyString => Raise IndexError
  | String c _ =>
      if Ascii.eqb c "["%char then
        let '(blocks, blk) :=
          if negb (size blk =? 0)%nat then (blocks ++ [blk], ∅) else (blocks, blk) in
        Ok (blocks, <["type" := strip (slice_1_m1 line)]> blk)
      else
        match split "="%char line with
        | [key; value] => Ok (blocks, <[strip key := strip value]> blk)
        | _ => Raise ValueError
        end
  end.

Fixpoint parse_lines (st : list block * block) (lines : list string)
  : result (list block * block) :=
  match lines with
  | [] => Ok st
  | line :: rest => st' <- parse_line st line ;; parse_lines st' rest
  end.

(** [parse_cfg], on the text that [f.read()] returns. *)
Definition parse_cfg (content : string) : result (list block) :=
  st <- parse_lines ([], ∅) (cfg_lines content) ;;
  let '(blocks, blk) := st in
  Ok (blocks ++ [blk]).

(** A text from its lines. *)
Definition lines_of (ls : list string) : string :=
  String.concat (String newline EmptyString) ls.

(** ** Vocabulary of the statements about the parser *)

(** A line of the filtered list that is no header and does not hold
    exactly one [=]. *)
Definition header_line (l : string) : bool :=
  match l with
  | String c _ => Ascii.eqb c "["
  | EmptyString => false
  end.

Definition malformed_line (l : string) : bool :=
  negb (header_line l) && negb (count_char "=" l =? 1)%nat.

(** A line that, once stripped, is empty or starts with [#]. *)
Definition blank_or_comment (l : string) : bool := negb (keep_line (strip l)).

(** ** Layers and their parameters

    [F] is the type of the 32-bit floats.  The program moves floats around
    and hands them to the numeric library; it never inspects one. *)

Section Layers.
Context {F : Type}.

(** A parameter or buffer of a library layer: its shape and its values.
    [p_data = None] stands for the values the library's constructor
    initialised it with; [Some d] for values written by [copy_]. *)
Record param : Type := {
  p_shape : list Z;
  p_data : option (list F)
}.

(** [p.numel()]. *)
Definition numel (p : param) : Z := fold_right Z.mul 1 (p_shape p).

Definition fresh_param (shape : list Z) : param :=
  {| p_shape := shape; p_data := None |}.

(** [nn.Conv2d], with a square kernel. *)
Record Conv2d : Type := {
  conv_in_channels : Z;
  conv_out_channels : Z;
  conv_kernel_size : Z;
  conv_stride : Z;
  conv_padding : Z;
  conv_weight : param;
  conv_bias : option param
}.

(** [nn.BatchNorm2d]. *)
Record BatchNorm2d : Type := {
  bn_num_features : Z;
  bn_weight : param;
  bn_bias : param;
  bn_running_mean : param;
  bn_running_var : param
}.

(** [DetectionLayer]: [anchors] holds the integer pairs handed to
    [torch.tensor]; [num_anchors] is set once, to [len(anchors)]. *)
Record DetectionLayer : Type := {
  anchors : list (Z * Z);
  num_classes : Z;
  input_dim : Z
}.

Definition num_anchors (det : DetectionLayer) : Z :=
  Z.of_nat (length (anchors det)).

Definition DetectionLayer_init (anchors : list (Z * Z)) (num_classes input_dim : Z)
  : DetectionLayer :=
  {| anchors := anchors; num_classes := num_classes; input_dim := input_dim |}.

(** The members of an [nn.Sequential] built by [create_modules]. *)
Inductive layer : Type :=
| LConv2d (conv : Conv2d)
| LBatchNorm2d (bn : BatchNorm2d)
| LLeakyReLU
| LShortcutLayer (idx : Z)
| LUpsample (scale_factor : Z)
| LRouteLayer (indices : list Z)
| LDetectionLayer (det : DetectionLayer).

Definition Sequential : Type := list layer.

(** The constructors of the library allocate the parameters, and the
    library refuses to allocate a tensor with a negative dimension.  What
    else a constructor checks differs between versions of the library and
    is left out: the statements below are about builds that succeed. *)
Definition Conv2d_init (in_channels out_channels kernel_size stride padding : Z)
  (bias : bool) : result Conv2d :=
  if (in_channels <? 0) || (out_channels <? 0) || (kernel_size <? 0)
  then Raise RuntimeError
  else Ok {| conv_in_channels := in_channels;
             conv_out_channels := out_channels;
             conv_kernel_size := kernel_size;
             conv_stride := stride;
             conv_padding := padding;
             conv_weight :=
               fresh_param [out_channels; in_channels; kernel_size; kernel_size];
             conv_bias :=
               if bias then Some (fresh_param [out_channels]) else None |}.

Definition BatchNorm2d_init (num_features : Z) : result BatchNorm2d :=
  if num_features <? 0 then Raise RuntimeError
  else Ok {| bn_num_features := num_features;
             bn_weight := fresh_param [num_features];
             bn_bias := fresh_param [num_features];
             bn_running_mean := fresh_param [num_features];
             bn_running_var := fresh_param [num_features] |}.

(** ** [create_modules] *)

(** The variables that live across the iterations of the loop. *)
Record build_state : Type := {
  in_channel : Z;
  out_channel : Z;
  out_channels : list Z;
  module_list : list Sequential
}.

Definition build_init : build_state :=
  {| in_channel := 3; out_channel := 3; out_channels := []; module_list := [] |}.

(** [int(block[key])]. *)
Definition int_of (blk : block) (key : string) : result Z :=
  v <- dict_getitem blk key ;; py_int v.

(** The [convolutional] branch: the module and the new [out_channel]. *)
Definition build_convolutional (in_channel : Z) (blk : block)
  : result (Sequential * Z) :=
  let bn := dict_has blk "batch_normalize" in
  let bias := negb bn in
  filters <- int_of blk "filters" ;;
  kernel_size <- int_of blk "size" ;;
  stride <- int_of blk "stride" ;;
  pad <- int_of blk "pad" ;;
  activation <- dict_getitem blk "activation" ;;
  let padding := if negb (pad =? 0) then (kernel_size - 1) / 2 else 0 in
  conv <- Conv2d_init in_channel filters kernel_size stride padding bias ;;
  bn_part <- (if bn then b <- BatchNorm2d_init filters ;; Ok [LBatchNorm2d b]
              else Ok []) ;;
  let leaky_part := if String.eqb activation "leaky" then [LLeakyReLU] else [] in
  Ok (LConv2d conv :: bn_part ++ leaky_part, filters).

(** The [route] branch: the module and the new [out_channel]. *)
Definition build_route (i : Z) (out_channels : list Z) (blk : block)
  : result (Sequential * Z) :=
  layers <- dict_getitem blk "layers" ;;
  let layer_indices := split "," layers in
  s0 <- py_getitem layer_indices 0 ;;
  first_idx <- py_int s0 ;;
  let first_idx := if first_idx <? 0 then i + first_idx else first_idx in
  if (1 <? length layer_indices)%nat then
    s1 <- py_getitem layer_indices 1 ;;
    second_idx <- py_int s1 ;;
    let second_idx := if second_idx <? 0 then second_idx + i else second_idx in
    c1 <- py_getitem out_channels first_idx ;;
    c2 <- py_getitem out_channels second_idx ;;
    Ok ([LRouteLayer [first_idx; second_idx]], c1 + c2)
  else
    c1 <- py_getitem out_channels first_idx ;;
    Ok ([LRouteLayer [first_idx]], c1).

(** The [yolo] branch. *)
Definition build_yolo (net_info blk : block) : result Sequential :=
  mask <- dict_getitem blk "mask" ;;
  masks <- mapM py_int (split "," mask) ;;
  anchors_str <- dict_getitem blk "anchors" ;;
  let anchors := split "," anchors_str in
  anchors <- mapM (fun m =>
                     a <- py_getitem anchors (2 * m) ;;
                     w <- py_int a ;;
                     b <- py_getitem anchors (2 * m + 1) ;;
                     h <- py_int b ;;
                     Ok (w, h)) masks ;;
  num_classes <- int_of blk "classes" ;;
  input_dim <- int_of net_info "width" ;;
  Ok [LDetectionLayer (DetectionLayer_init anchors num_classes input_dim)].

(** One iteration of [for i, block in enumerate(blocks[1:])]. *)
Definition create_module (net_info : block) (i : Z) (blk : block) (st : build_state)
  : result build_state :=
  block_type <- dict_getitem blk "type" ;;
  r <- (if String.eqb block_type "convolutional" then
          build_convolutional (in_channel st) blk
        else if String.eqb block_type "shortcut" then
          from <- int_of blk "from" ;;
          let idx := from + i in
          Ok ([LShortcutLayer idx], out_channel st)
        else if String.eqb block_type "upsample" then
          stride <- int_of blk "stride" ;;
          Ok ([LUpsample stride], out_channel st)
        else if String.eqb block_type "route" then
          build_route i (out_channels st) blk
        else if String.eqb block_type "yolo" then
          m <- build_yolo net_info blk ;;
          Ok (m, out_channel st)
        else Ok ([], out_channel st)) ;;
  let '(module, out_channel) := r in
  Ok {| in_channel := out_channel;
        out_channel := out_channel;
        out_channels := out_channels st ++ [out_channel];
        module_list := module_list st ++ [module] |}.

Fixpoint create_modules_loop (net_info : block) (i : Z) (blocks : list block)
  (st : build_state) : result build_state :=
  match blocks with
  | [] => Ok st
  | blk :: rest =>
      st' <- create_module net_info i blk st ;;
      create_modules_loop net_info (i + 1) rest st'
  end.

(** The state of the builder when the loop is over; [out_channels] is a
    local of [create_modules] and is read from here. *)
Definition create_modules_state (blocks : list block) : result build_state :=
  net_info <- py_getitem blocks 0 ;;
  create_modules_loop net_info 0 (drop 1 blocks) build_init.

Definition create_modules (blocks : list block)
  : result (block * list Sequential) :=
  net_info <- py_getitem blocks 0 ;;
  st <- create_modules_loop net_info 0 (drop 1 blocks) build_init ;;
  Ok (net_info, module_list st).

End Layers.

Arguments param : clear implicits.
Arguments Conv2d : clear implicits.
Arguments BatchNorm2d : clear implicits.
Arguments layer : clear implicits.
Arguments Sequential : clear implicits.
Arguments build_state : clear implicits.

(** ** [Darknet]: construction and [load_weights] *)

Section Network.
Context {F : Type}.

Record Darknet : Type := {
  blocks : list block;
  net_info : block;
  modules : list (Sequential F);
  header : option (list Z)
}.

(** [Darknet.__init__], on the text of the configuration file. *)
Definition Darknet_init (content : string) : result Darknet :=
  blocks <- parse_cfg content ;;
  r <- create_modules blocks ;;
  let '(net_info, module_list) := r in
  Ok {| blocks := blocks; net_info := net_info; modules := module_list;
        header := None |}.

(** The two arrays [np.fromfile] returns for a weight file: the leading
    int32 values and the float32 values that follow. *)
Record weight_file : Type := {
  wf_header : list Z;
  wf_weights : list F
}.

(** [weights[ptr: ptr + n]]: a numpy slice stops at the end of the array. *)
Definition np_slice (weights : list F) (ptr n : Z) : list F :=
  take (Z.to_nat n) (drop (Z.to_nat ptr) weights).

(** [torch.from_numpy(a).view_as(p)]: the element counts must agree. *)
Definition view_as (a : list F) (p : param F) : result (list F) :=
  if Z.of_nat (length a) =? numel p then Ok a else Raise RuntimeError.

(** [p.copy_(a)]. *)
Definition copy_ (p : param F) (a : list F) : param F :=
  {| p_shape := p_shape p; p_data := Some a |}.

(** [module[k]] on an [nn.Sequential]. *)
Definition seq_getitem (module : Sequential F) (k : nat) : result (layer F) :=
  match module !! k with
  | Some l => Ok l
  | None => Raise IndexError
  end.

Definition as_conv (l : layer F) : result (Conv2d F) :=
  match l with LConv2d c => Ok c | _ => Raise AttributeError end.

Definition as_bn (l : layer F) : result (BatchNorm2d F) :=
  match l with LBatchNorm2d b => Ok b | _ => Raise AttributeError end.

Definition set_conv_weight (conv : Conv2d F) (w : param F) : Conv2d F :=
  {| conv_in_channels := conv_in_channels conv;
     conv_out_channels := conv_out_channels conv;
     conv_kernel_size := conv_kernel_size conv;
     conv_stride := conv_stride conv;
     conv_padding := conv_padding conv;
     conv_weight := w;
     conv_bias := conv_bias conv |}.

Definition set_conv_bias (conv : Conv2d F) (b : param F) : Conv2d F :=
  {| conv_in_channels := conv_in_channels conv;
     conv_out_channels := conv_out_channels conv;
     conv_kernel_size := conv_kernel_size conv;
     conv_stride := conv_stride conv;
     conv_padding := conv_padding conv;
     conv_weight := conv_weight conv;
     conv_bias := Some b |}.

(** The [batch_normalize] branch of the loop body: the four slices are
    taken and reshaped first, then the four [copy_] run. *)
Definition load_batch_norm (weights : list F) (ptr : Z) (module : Sequential F)
  : result (Sequential F * Z) :=
  _ <- seq_getitem module 0 ;;
  l1 <- seq_getitem module 1 ;;
  bn <- as_bn l1 ;;
  let num_weights := numel (bn_weight bn) in
  bn_bias' <- view_as (np_slice weights ptr num_weights) (bn_bias bn) ;;
  let ptr := ptr + num_weights in
  bn_weight' <- view_as (np_slice weights ptr num_weights) (bn_weight bn) ;;
  let ptr := ptr + num_weights in
  bn_running_mean' <-
    view_as (np_slice weights ptr num_weights) (bn_running_mean bn) ;;
  let ptr := ptr + num_weights in
  bn_running_var' <-
    view_as (np_slice weights ptr num_weights) (bn_running_var bn) ;;
  let ptr := ptr + num_weights in
  let bn' :=
    {| bn_num_features := bn_num_features bn;
       bn_weight := copy_ (bn_weight bn) bn_weight';
       bn_bias := copy_ (bn_bias bn) bn_bias';
       bn_running_mean := copy_ (bn_running_mean bn) bn_running_mean';
       bn_running_var := copy_ (bn_running_var bn) bn_running_var' |} in
  Ok (<[1%nat := LBatchNorm2d bn']> module, ptr).

(** The [else] branch: the bias of the convolution. *)
Definition load_conv_bias (weights : list F) (ptr : Z) (module : Sequential F)
  : result (Sequential F * Z) :=
  l0 <- seq_getitem module 0 ;;
  conv <- as_conv l0 ;;
  b <- match conv_bias conv with
       | Some b => Ok b
       | None => Raise AttributeError
       end ;;
  let num_bias := numel b in
  conv_bias' <- view_as (np_slice weights ptr num_bias) b ;;
  let ptr := ptr + num_bias in
  Ok (<[0%nat := LConv2d (set_conv_bias conv (copy_ b conv_bias'))]> module, ptr).

(** The last four lines of the loop body: the kernel of the convolution. *)
Definition load_conv_weight (weights : list F) (ptr : Z) (module : Sequential F)
  : result (Sequential F * Z) :=
  l0 <- seq_getitem module 0 ;;
  conv <- as_conv l0 ;;
  let num_weights := numel (conv_weight conv) in
  conv_weight' <- view_as (np_slice weights ptr num_weights) (conv_weight conv) ;;
  let ptr := ptr + num_weights in
  Ok (<[0%nat := LConv2d (set_conv_weight conv (copy_ (conv_weight conv) conv_weight'))]>
        module, ptr).

(** The body of [if block_type == 'convolutional'].  The first component
    is the module as the statements that ran have left it; the second is
    the new [ptr], or the exception that stopped the body. *)
Definition load_convolutional (weights : list F) (ptr : Z) (blk : block)
  (module : Sequential F) : Sequential F * result Z :=
  match (if dict_has blk "batch_normalize"
         then load_batch_norm weights ptr module
         else load_conv_bias weights ptr module) with
  | Raise e => (module, Raise e)
  | Ok (module1, ptr1) =>
      match load_conv_weight weights ptr1 module1 with
      | Raise e => (module1, Raise e)
      | Ok (module2, ptr2) => (module2, Ok ptr2)
      end
  end.

(** One iteration of [for i in range(len(self.module_list))]. *)
Definition load_module (weights : list F) (blocks : list block) (i : nat)
  (ml : list (Sequential F)) (ptr : Z) : list (Sequential F) * result Z :=
  match ml !! i with
  | None => (ml, Raise IndexError)
  | Some module =>
      match py_getitem blocks (Z.of_nat i + 1) with
      | Raise e => (ml, Raise e)
      | Ok blk =>
          match dict_getitem blk "type" with
          | Raise e => (ml, Raise e)
          | Ok block_type =>
              if String.eqb block_type "convolutional" then
                let '(module', r) := load_convolutional weights ptr blk module in
                (<[i := module']> ml, r)
              else (ml, Ok ptr)
          end
      end
  end.

Fixpoint load_weights_loop (weights : list F) (blocks : list block)
  (range : list nat) (ml : list (Sequential F)) (ptr : Z)
  : list (Sequential F) * result Z :=
  match range with
  | [] => (ml, Ok ptr)
  | i :: rest =>
      match load_module weights blocks i ml ptr with
      | (ml', Ok ptr') => load_weights_loop weights blocks rest ml' ptr'
      | (ml', Raise e) => (ml', Raise e)
      end
  end.

(** [Darknet.load_weights]: the network as the call leaves it, and the
    final value of [ptr] or the exception raised. *)
Definition load_weights (net : Darknet) (file : weight_file)
  : Darknet * result Z :=
  let '(ml, r) :=
    load_weights_loop (wf_weights file) (blocks net)
      (seq 0 (length (modules net))) (modules net) 0 in
  ({| blocks := blocks net; net_info := net_info net; modules := ml;
      header := Some (wf_header file) |}, r).

End Network.

Arguments Darknet : clear implicits.
Arguments weight_file : clear implicits.

(** ** Vocabulary of the statements about the builder *)

(** A [convolutional] block whose [filters] is a positive integer; any
    other block passes. *)
Definition positive_filters (blk : block) : bool :=
  match blk !! "type" with
  | Some t =>
      if String.eqb t "convolutional" then
        match int_of blk "filters" with
        | Ok n => 0 <? n
        | Raise _ => false
        end
      else true
  | None => true
  end.

(** A configuration the builder accepts and whose convolutional blocks
    all declare a positive number of filters. *)
Definition valid_config (F : Type) (blocks : list block) : Prop :=
  (exists st : build_state F, create_modules_state blocks = Ok st)
  /\ forallb positive_filters (drop 1 blocks) = true.

(** The index a [route] block refers to, as [create_modules] resolves it
    at build position [i]. *)
Definition resolve (i idx : Z) : Z := if idx <? 0 then idx + i else idx.

(** The indices Python accepts on a list of [n] elements. *)
Definition in_list_range (n idx : Z) : bool := (- n <=? idx) && (idx <? n).

(** The loop variables after a branch has produced its module and its
    [out_channel]: the three statements that end the loop body. *)
Definition record_module {F} (st : build_state F) (r : Sequential F * Z)
  : build_state F :=
  {| in_channel := r.2; out_channel := r.2;
     out_channels := out_channels st ++ [r.2];
     module_list := module_list st ++ [r.1] |}.

(** ** Sample configurations *)

Definition conv_lines (filters : string) : list string :=
  ["[convolutional]"; "filters=" +:+ filters; "size=3"; "stride=1"; "pad=1";
   "activation=leaky"].

Definition cfg_tiny : string :=
  lines_of (["[net]"; "width=416"] ++ conv_lines "16"
            ++ ["[yolo]"; "mask=0"; "anchors=10,13"; "classes=1"]).

Definition cfg_shortcut_far : string :=
  lines_of (["[net]"; "width=416"] ++ conv_lines "16"
            ++ ["[shortcut]"; "from=-100"]).

Definition cfg_route_wrap : string :=
  lines_of (["[net]"; "width=416"] ++ conv_lines "16" ++ conv_lines "32"
            ++ ["[route]"; "layers=-3"]).

Definition cfg_route_far : string :=
  lines_of (["[net]"; "width=416"] ++ conv_lines "16" ++ conv_lines "32"
            ++ ["[route]"; "layers=-100"]).

Definition cfg_two_convs : string :=
  lines_of (["[net]"; "width=416";
             "[convolutional]"; "batch_normalize=1"; "filters=2"; "size=1";
             "stride=1"; "pad=1"; "activation=leaky";
             "[upsample]"; "stride=2";
             "[convolutional]"; "filters=1"; "size=1"; "stride=1"; "pad=1";
             "activation=linear"]).

Definition cfg_route_two : string :=
  lines_of (["[net]"; "width=416"] ++ conv_lines "16" ++ conv_lines "32"
            ++ ["[route]"; "layers=-1, 0"]).

(** The blocks of a sample configuration. *)
Definition blocks_of (content : string) : list block :=
  match parse_cfg content with
  | Ok bs => bs
  | Raise _ => []
  end.

(** ** Vocabulary of the statements about the weight loader *)

Section LoaderVocabulary.
Context {F : Type}.

(** The parameter [p] holds exactly the [n] floats of the blob that start
    at offset [off], and [n] is its number of elements. *)
Definition holds (weights : list F) (p : param F) (off n : Z) : Prop :=
  p_data p = Some (np_slice weights off n)
  /\ Z.of_nat (length (np_slice weights off n)) = n
  /\ numel p = n.

(** The shapes of a module built from a [convolutional] block: the kernel
    is [out x in x k x k]; with batch normalisation the four statistics
    have [out] entries each, without it the bias has [out] entries. *)
Definition conv_wf (has_bn : bool) (m : Sequential F) : Prop :=
  exists conv tail,
    m = LConv2d conv :: tail
    /\ 0 <= conv_out_channels conv /\ 0 <= conv_in_channels conv
    /\ 0 <= conv_kernel_size conv
    /\ p_shape (conv_weight conv)
       = [conv_out_channels conv; conv_in_channels conv;
          conv_kernel_size conv; conv_kernel_size conv]
    /\ if has_bn then
         exists bn tail',
           tail = LBatchNorm2d bn :: tail'
           /\ p_shape (bn_weight bn) = [conv_out_channels conv]
           /\ p_shape (bn_bias bn) = [conv_out_channels conv]
           /\ p_shape (bn_running_mean bn) = [conv_out_channels conv]
           /\ p_shape (bn_running_var bn) = [conv_out_channels conv]
       else
         exists b, conv_bias conv = Some b /\ p_shape b = [conv_out_channels conv].

Definition module_wf (blk : block) (m : Sequential F) : Prop :=
  exists t, blk !! "type" = Some t
  /\ (t = "convolutional" -> conv_wf (dict_has blk "batch_normalize") m).

Definition layer_params (l : layer F) : list (param F) :=
  match l with
  | LConv2d conv =>
      conv_weight conv :: match conv_bias conv with Some b => [b] | None => [] end
  | LBatchNorm2d bn =>
      [bn_weight bn; bn_bias bn; bn_running_mean bn; bn_running_var bn]
  | _ => []
  end.

(** The convolution of a module built from block [blk] has the block's
    [filters] output channels and a kernel of side [size]. *)
Definition conv_of_block (blk : block) (m : Sequential F) : Prop :=
  blk !! "type" = Some "convolutional" ->
  exists conv tail,
    m = LConv2d conv :: tail
    /\ int_of blk "filters" = Ok (conv_out_channels conv)
    /\ int_of blk "size" = Ok (conv_kernel_size conv).

(** No parameter of the module has been written since it was built. *)
Definition fresh_module (m : Sequential F) : Prop :=
  Forall (fun p => p_data p = None) (concat (map layer_params m)).

(** The layout of the blob, as the format lays it down for one
    convolutional layer whose floats start at [ptr]: with batch
    normalisation [n] floats of bias, [n] of scale, [n] of running mean,
    [n] of running variance; without it [n] floats of bias; then the
    kernel. *)
Definition bn_loaded (weights : list F) (ptr n : Z) (bn : BatchNorm2d F)
  : BatchNorm2d F :=
  {| bn_num_features := bn_num_features bn;
     bn_weight := copy_ (bn_weight bn) (np_slice weights (ptr + n) n);
     bn_bias := copy_ (bn_bias bn) (np_slice weights ptr n);
     bn_running_mean := copy_ (bn_running_mean bn) (np_slice weights (ptr + n + n) n);
     bn_running_var :=
       copy_ (bn_running_var bn) (np_slice weights (ptr + n + n + n) n) |}.

Definition kernel_loaded (weights : list F) (ptr : Z) (conv : Conv2d F)
  : Conv2d F :=
  set_conv_weight conv
    (copy_ (conv_weight conv) (np_slice weights ptr (numel (conv_weight conv)))).

(** The number of floats a convolution takes from the blob. *)
Definition conv_floats (has_bn : bool) (conv : Conv2d F) : Z :=
  (if has_bn then 4 * conv_out_channels conv else conv_out_channels conv)
  + conv_out_channels conv * conv_in_channels conv
    * conv_kernel_size conv * conv_kernel_size conv.

(** The number of floats the module of block [blk] takes: none unless the
    block is [convolutional]. *)
Definition module_floats (blk : block) (m : Sequential F) : Z :=
  match blk !! "type", m with
  | Some t, LConv2d conv :: _ =>
      if String.eqb t "convolutional"
      then conv_floats (dict_has blk "batch_normalize") conv
      else 0
  | _, _ => 0
  end.

(** The number of floats the modules from position [j] on take, and the
    number the whole network takes. *)
Definition floats_from (blocks : list block) (ml : list (Sequential F)) (j : nat)
  : Z :=
  fold_right Z.add 0 (drop j (zip_with module_floats (drop 1 blocks) ml)).

Definition floats_required (blocks : list block) (ml : list (Sequential F)) : Z :=
  floats_from blocks ml 0.

(** All the parameters and buffers of a module, and of a network. *)
Definition module_params (m : Sequential F) : list (param F) :=
  concat (map layer_params m).

Definition network_params (ml : list (Sequential F)) : list (param F) :=
  concat (map module_params ml).

(** A parameter is either as the constructor left it or holds as many
    floats of the blob as it has elements, taken from one place. *)
Definition untouched_or_full (weights : list F) (p : param F) : Prop :=
  match p_data p with
  | None => True
  | Some d => exists off, 0 <= off /\ holds weights p off (numel p)
  end.

(** The number of floats the modules before position [j] take: where the
    cursor stands when the loop reaches module [j]. *)
Definition floats_before (blocks : list block) (ml : list (Sequential F)) (j : nat)
  : Z :=
  fold_right Z.add 0 (take j (zip_with module_floats (drop 1 blocks) ml)).

(** What the module [m] of a [convolutional] block [blk] has become, [m'],
    when the loop body has run on it with the cursor at [ptr].  With [n]
    the number of filters and [k = n x in x size x size]: with batch
    normalisation the normalisation bias holds the [n] floats at [ptr], the
    scale those at [ptr + n], the running mean those at [ptr + 2n], the
    running variance those at [ptr + 3n] and the kernel the [k] floats at
    [ptr + 4n]; without it the bias of the convolution holds the [n] floats
    at [ptr] and the kernel the [k] floats at [ptr + n].  The layers after
    them are the layers of [m], and the module took [module_floats] floats,
    [4n + k] or [n + k]. *)
Definition conv_loaded (weights : list F) (blk : block) (ptr : Z)
  (m m' : Sequential F) : Prop :=
  exists conv tail conv',
    m = LConv2d conv :: tail
    /\ int_of blk "filters" = Ok (conv_out_channels conv)
    /\ p_shape (conv_weight conv') = p_shape (conv_weight conv)
    /\ let n := conv_out_channels conv in
       let k := n * conv_in_channels conv
                * conv_kernel_size conv * conv_kernel_size conv in
       if dict_has blk "batch_normalize" then
         exists bn tail' bn',
           tail = LBatchNorm2d bn :: tail'
           /\ m' = LConv2d conv' :: LBatchNorm2d bn' :: tail'
           /\ holds weights (bn_bias bn') ptr n
           /\ holds weights (bn_weight bn') (ptr + n) n
           /\ holds weights (bn_running_mean bn') (ptr + 2 * n) n
           /\ holds weights (bn_running_var bn') (ptr + 3 * n) n
           /\ holds weights (conv_weight conv') (ptr + 4 * n) k
           /\ module_floats blk m = 4 * n + k
       else
         exists b',
           m' = LConv2d conv' :: tail
           /\ conv_bias conv' = Some b'
           /\ holds weights b' ptr n
           /\ holds weights (conv_weight conv') (ptr + n) k
           /\ module_floats blk m = n + k.

(** What the loop body leaves of the module [m] of block [blk]: the
    loaded module for a [convolutional] block, [m] itself for any other. *)
Definition module_loaded (weights : list F) (blk : block) (ptr : Z)
  (m m' : Sequential F) : Prop :=
  (blk !! "type" = Some "convolutional" -> conv_loaded weights blk ptr m m')
  /\ (blk !! "type" <> Some "convolutional" ->
      m' = m /\ module_floats blk m = 0).

End LoaderVocabulary.

(** The network of a sample configuration; its floats are written as
    integers. *)
Definition net_of (content : string) : Darknet Z :=
  match Darknet_init content with
  | Ok net => net
  | Raise _ => {| blocks := []; net_info := ∅; modules := []; header := None |}
  end.

(** A weight file with the floats [1, 2, ..., n]. *)
Definition blob (n : nat) : weight_file Z :=
  {| wf_header := [0; 2; 0; 0; 0]; wf_weights := map Z.of_nat (seq 1 n) |}.

(** ** Tensors

    A tensor is its shape and the element found at each index vector.  The
    memory layout of the library (strides, contiguity) is not modelled: a
    view and a reshaped copy are the same tensor here, and which of them
    share memory is stated where a tensor is stored ([forward] below). *)

(** What the program asks of the floats: the two activation functions,
    sum, product, and the conversion of an integer. *)
Class Scalar (F : Type) : Type := {
  sigmoid : F -> F;
  exp : F -> F;
  fadd : F -> F -> F;
  fmul : F -> F -> F;
  of_int : Z -> F
}.

Section Tensors.
Context {F : Type} `{Scalar F}.

Record tensor : Type := {
  shape : list nat;
  at_ : list nat -> F
}.

Definition shape_numel (sh : list nat) : nat := fold_right Nat.mul 1%nat sh.

(** [t.numel()]. *)
Definition t_numel (t : tensor) : nat := shape_numel (shape t).

(** The position of an index vector in row-major order, and back. *)
Fixpoint ravel (sh idx : list nat) : nat :=
  match sh, idx with
  | _ :: sh', i :: idx' => (i * shape_numel sh' + ravel sh' idx')%nat
  | _, _ => 0%nat
  end.

Fixpoint unravel (sh : list nat) (pos : nat) : list nat :=
  match sh with
  | [] => []
  | _ :: sh' => (pos / shape_numel sh')%nat :: unravel sh' (pos mod shape_numel sh')%nat
  end.

Fixpoint in_bounds (sh idx : list nat) : bool :=
  match sh, idx with
  | [], [] => true
  | s :: sh', i :: idx' => (i <? s)%nat && in_bounds sh' idx'
  | _, _ => false
  end.

(** [torch.tensor([])]: one dimension, of size zero. *)
Definition empty_tensor : tensor := {| shape := [0%nat]; at_ := fun _ => of_int 0 |}.

(** The elements in row-major order. *)
Definition to_list (t : tensor) : list F :=
  map (fun pos => at_ t (unravel (shape t) pos)) (seq 0 (t_numel t)).

(** [t.size(d)]. *)
Definition t_size (t : tensor) (d : nat) : result nat :=
  match shape t !! d with
  | Some s => Ok s
  | None => Raise IndexError
  end.

(** The shape [view] settles on: at most one entry may be [-1], and is then
    inferred from the number of elements. *)
Definition infer_shape (n : nat) (dims : list Z) : result (list nat) :=
  if existsb (fun d => d <? -1) dims then Raise RuntimeError
  else
    let known := shape_numel (map Z.to_nat (filter (fun d => d <> -1) dims)) in
    match length (filter (fun d => d = -1) dims) with
    | 0%nat => if (known =? n)%nat then Ok (map Z.to_nat dims) else Raise RuntimeError
    | 1%nat =>
        if (0 <? known)%nat && (n mod known =? 0)%nat
        then Ok (map (fun d => if d =? -1 then (n / known)%nat else Z.to_nat d) dims)
        else Raise RuntimeError
    | _ => Raise RuntimeError
    end.

(** The same elements in row-major order under another shape. *)
Definition reshape (t : tensor) (sh : list nat) : tensor :=
  {| shape := sh; at_ := fun idx => at_ t (unravel (shape t) (ravel sh idx)) |}.

(** [t.view(dims)]. *)
Definition view (t : tensor) (dims : list Z) : result tensor :=
  sh <- infer_shape (t_numel t) dims ;; Ok (reshape t sh).

(** [t.transpose(1, 2)], on a tensor of three dimensions or more. *)
Definition transpose_1_2 (t : tensor) : tensor :=
  match shape t with
  | s0 :: s1 :: s2 :: rest =>
      {| shape := s0 :: s2 :: s1 :: rest;
         at_ := fun idx =>
                  match idx with
                  | i0 :: i1 :: i2 :: r => at_ t (i0 :: i2 :: i1 :: r)
                  | _ => at_ t idx
                  end |}
  | _ => t
  end.

(** [t[sel] = f(t[sel])] for a set of index vectors [sel]; [f] may look at
    the index, as a broadcast operand does. *)
Definition update_where (t : tensor) (sel : list nat -> bool)
  (f : list nat -> F -> F) : tensor :=
  {| shape := shape t;
     at_ := fun idx => if sel idx then f idx (at_ t idx) else at_ t idx |}.

(** *** [torch.cat(ts, dim=1)] *)

Definition dim1 (t : tensor) : nat := nth 1 (shape t) 0%nat.

(** Shapes that agree in every dimension but the second. *)
Definition cat_compatible (sh sh' : list nat) : bool :=
  match sh, sh' with
  | s0 :: _ :: r, s0' :: _ :: r' => (s0 =? s0')%nat && bool_decide (r = r')
  | _, _ => false
  end.

(** The element of the concatenation at row [i1] of the second dimension:
    it lies in the first tensor that still has such a row. *)
Fixpoint cat_at (t0 : tensor) (ts : list tensor) (i0 i1 : nat) (r : list nat) : F :=
  match ts with
  | [] => at_ t0 (i0 :: i1 :: r)
  | t :: ts' =>
      if (i1 <? dim1 t0)%nat then at_ t0 (i0 :: i1 :: r)
      else cat_at t ts' i0 (i1 - dim1 t0) r
  end.

Definition is_legacy_empty (t : tensor) : bool := bool_decide (shape t = [0%nat]).

Definition cat1 (ts : list tensor) : result tensor :=
  match ts with
  | [] => Raise RuntimeError
  | _ =>
      match filter (fun t => is_legacy_empty t = false) ts with
      | [] => Ok empty_tensor
      | t0 :: rest =>
          match shape t0 with
          | s0 :: s1 :: r =>
              if forallb (fun t => cat_compatible (shape t0) (shape t)) rest then
                Ok {| shape := s0 :: (s1 + fold_right Nat.add 0 (map dim1 rest))%nat :: r;
                      at_ := fun idx =>
                               match idx with
                               | i0 :: i1 :: ir => cat_at t0 rest i0 i1 ir
                               | _ => at_ t0 idx
                               end |}
              else Raise RuntimeError
          | _ => Raise IndexError
          end
      end
  end.

(** ** [ShortcutLayer], [RouteLayer], [DetectionLayer] *)

(** [ShortcutLayer.forward]. *)
Definition ShortcutLayer_forward {A} (idx : Z) (outputs : list A) : result A :=
  py_getitem outputs idx.

(** [RouteLayer.forward], on the values of the tensors of [outputs]. *)
Definition RouteLayer_forward (indices : list Z) (outputs : list tensor)
  : result tensor :=
  out <- mapM (py_getitem outputs) indices ;;
  cat1 out.

(** The components of an index vector of the five-dimensional view
    [(batch, anchor, channel, row, column)]. *)
Definition anchor_of (idx : list nat) : nat := nth 1 idx 0%nat.
Definition channel_of (idx : list nat) : nat := nth 2 idx 0%nat.
Definition row_of (idx : list nat) : nat := nth 3 idx 0%nat.
Definition col_of (idx : list nat) : nat := nth 4 idx 0%nat.

(** [self.anchors[a][j]], as a float. *)
Definition anchor_value (det : DetectionLayer) (a j : nat) : F :=
  match anchors det !! a with
  | Some (w, h) => of_int (if (j =? 0)%nat then w else h)
  | None => of_int 0
  end.

(** Lines 63 and 65: the sigmoid on channels [:2] and [4:]. *)
Definition apply_sigmoids (detection : tensor) : tensor :=
  let detection :=
    update_where detection (fun idx => (channel_of idx <? 2)%nat)
      (fun _ v => sigmoid v) in
  update_where detection (fun idx => (4 <=? channel_of idx)%nat)
    (fun _ v => sigmoid v).

(** Lines 75 to 77: the column index added to channel 0, the row index to
    channel 1, then both multiplied by [stride]. *)
Definition add_offsets (stride : Z) (detection : tensor) : tensor :=
  let detection :=
    update_where detection (fun idx => (channel_of idx =? 0)%nat)
      (fun idx v => fadd v (of_int (Z.of_nat (col_of idx)))) in
  let detection :=
    update_where detection (fun idx => (channel_of idx =? 1)%nat)
      (fun idx v => fadd v (of_int (Z.of_nat (row_of idx)))) in
  update_where detection (fun idx => (channel_of idx <? 2)%nat)
    (fun _ v => fmul v (of_int stride)).

(** Line 80: channels [2:4] become [exp] times the anchor's width, height. *)
Definition scale_by_anchors (det : DetectionLayer) (detection : tensor) : tensor :=
  update_where detection
    (fun idx => (2 <=? channel_of idx)%nat && (channel_of idx <? 4)%nat)
    (fun idx v => fmul (exp v) (anchor_value det (anchor_of idx) (channel_of idx - 2))).

(** Line 79: whether [self.anchors], with two dimensions of size one
    appended, expands over channels [2:4] of the view.  With at least one
    anchor the tensor of anchors has shape [(A, 2, 1, 1)] and the slice must
    have two channels.  Without an anchor [torch.tensor([])] has shape
    [(0,)], which becomes [(0, 1, 1)] and expands only over a slice that has
    no channel. *)
Definition anchors_expand (det : DetectionLayer) (channels : nat) : bool :=
  let sliced := (Nat.min channels 4 - Nat.min channels 2)%nat in
  match anchors det with
  | [] => (sliced =? 0)%nat
  | _ :: _ => (sliced =? 2)%nat
  end.

(** [DetectionLayer.forward].  [detection] is a view of [x], so the
    assignments into it change [x]: the first component of the result is [x]
    as the call leaves it, the second is the tensor returned.  Indexing
    channel 0 or 1 fails when the view has no such channel, and the
    library refuses to expand the anchors over a slice they do not fit. *)
Definition DetectionLayer_forward (det : DetectionLayer) (x : tensor)
  : result (tensor * tensor) :=
  batch_size <- t_size x 0 ;;
  grid_size <- t_size x 2 ;;
  stride <- (if (grid_size =? 0)%nat then Raise ZeroDivisionError
             else Ok (input_dim det / Z.of_nat grid_size)) ;;
  detection <- view x [Z.of_nat batch_size; num_anchors det; num_classes det + 5;
                       Z.of_nat grid_size; Z.of_nat grid_size] ;;
  let channels := nth 2 (shape detection) 0%nat in
  let detection := apply_sigmoids detection in
  _ <- (if (channels <? 2)%nat then Raise IndexError else Ok tt) ;;
  let detection := add_offsets stride detection in
  _ <- (if anchors_expand det channels then Ok tt else Raise RuntimeError) ;;
  let detection := scale_by_anchors det detection in
  out <- view (transpose_1_2 detection)
           [Z.of_nat batch_size; num_classes det + 5; -1] ;;
  Ok (reshape detection (shape x), transpose_1_2 out).

(** The decoded value, channel by channel: what the claim about the
    layer says the raw value [v] at channel [ch] of anchor [a], row [r],
    column [c] becomes. *)
Definition decoded (det : DetectionLayer) (stride : Z) (a ch r c : nat) (v : F) : F :=
  match ch with
  | 0%nat => fmul (fadd (sigmoid v) (of_int (Z.of_nat c))) (of_int stride)
  | 1%nat => fmul (fadd (sigmoid v) (of_int (Z.of_nat r))) (of_int stride)
  | 2%nat | 3%nat => fmul (exp v) (anchor_value det a (ch - 2))
  | _ => sigmoid v
  end.

End Tensors.

Arguments tensor F : clear implicits.

(** ** [Darknet.forward] *)

(** The numeric kernels of the library, on the values of tensors.
    [tensor_iadd x y] is the value [x] holds after [x += y]. *)
Class Kernels (F : Type) `{Scalar F} : Type := {
  conv2d : Conv2d F -> tensor F -> result (tensor F);
  batch_norm : BatchNorm2d F -> tensor F -> result (tensor F);
  leaky_relu : tensor F -> tensor F;
  upsample_bilinear : Z -> tensor F -> result (tensor F);
  tensor_iadd : tensor F -> tensor F -> result (tensor F)
}.

Section Forward.
Context {F : Type} `{Kernels F}.

(** [module(x)] for a module of a [convolutional] or [upsample] block.
    [create_modules] puts no other layer in such a module. *)
Fixpoint Sequential_forward (module : Sequential F) (x : tensor F)
  : result (tensor F) :=
  match module with
  | [] => Ok x
  | l :: rest =>
      x' <- match l with
            | LConv2d conv => conv2d conv x
            | LBatchNorm2d bn => batch_norm bn x
            | LLeakyReLU => Ok (leaky_relu x)
            | LUpsample scale_factor => upsample_bilinear scale_factor x
            | _ => Raise TypeError
            end ;;
      Sequential_forward rest x'
  end.

(** The tensor objects alive during a forward pass.  A tensor object is a
    position in [store]; two names for the same position are two names
    for the same object, and an operation in place rewrites the position.
    [x] and the entries of [outputs] are such names; [detection] is
    rebound to a new tensor at every use and is kept by value. *)
Record fstate : Type := {
  store : list (tensor F);
  x : nat;
  outputs : list nat;
  detection : tensor F
}.

(** The value of a tensor object. *)
Definition read (st : fstate) (l : nat) : tensor F :=
  default empty_tensor (store st !! l).

(** [x = v] for a new tensor [v]. *)
Definition bind_x_new (st : fstate) (v : tensor F) : fstate :=
  {| store := store st ++ [v]; x := length (store st);
     outputs := outputs st; detection := detection st |}.

(** An operation in place on the object [l]. *)
Definition write (st : fstate) (l : nat) (v : tensor F) : fstate :=
  {| store := <[l := v]> (store st); x := x st;
     outputs := outputs st; detection := detection st |}.

Definition set_detection (st : fstate) (d : tensor F) : fstate :=
  {| store := store st; x := x st; outputs := outputs st; detection := d |}.

(** [outputs.append(x)]. *)
Definition append_x (st : fstate) : fstate :=
  {| store := store st; x := x st; outputs := outputs st ++ [x st];
     detection := detection st |}.

(** The [convolutional] and [upsample] branches: the module returns a new
    tensor. *)
Definition forward_plain (module : Sequential F) (st : fstate) : result fstate :=
  v <- Sequential_forward module (read st (x st)) ;;
  Ok (bind_x_new st v).

(** The [shortcut] branch: [x += module(outputs)] rewrites the object [x]
    names. *)
Definition forward_shortcut (module : Sequential F) (st : fstate) : result fstate :=
  match module with
  | [LShortcutLayer idx] =>
      src <- ShortcutLayer_forward idx (outputs st) ;;
      v <- tensor_iadd (read st (x st)) (read st src) ;;
      Ok (write st (x st) v)
  | _ => Raise TypeError
  end.

(** The [route] branch: [torch.cat] returns a new tensor. *)
Definition forward_route (module : Sequential F) (st : fstate) : result fstate :=
  match module with
  | [LRouteLayer indices] =>
      v <- RouteLayer_forward indices (map (read st) (outputs st)) ;;
      Ok (bind_x_new st v)
  | _ => Raise TypeError
  end.

(** The [yolo] branch.  The layer rewrites the object [x] names, since it
    works on a view of it, and [x] is then bound to the tensor returned,
    here a new object.  (When the view the layer transposes is contiguous as
    it stands, as with a single anchor, the library lets the tensor returned
    share the memory of the layer's input.  Only an operation in place on the
    tensor returned, by a [shortcut] or [yolo] block that follows at once,
    could tell; that sharing is not modelled.) *)
Definition forward_yolo (module : Sequential F) (st : fstate) : result fstate :=
  match module with
  | [LDetectionLayer det] =>
      r <- DetectionLayer_forward det (read st (x st)) ;;
      let '(x_after, out) := r in
      let st := bind_x_new (write st (x st) x_after) out in
      d <- cat1 [out; detection st] ;;
      Ok (set_detection st d)
  | _ => Raise TypeError
  end.

(** One iteration of [for i, module in enumerate(self.module_list)]. *)
Definition forward_layer (blocks : list block) (i : nat) (module : Sequential F)
  (st : fstate) : result fstate :=
  blk <- py_getitem blocks (Z.of_nat i) ;;
  block_type <- dict_getitem blk "type" ;;
  st' <- (if String.eqb block_type "convolutional"
             || String.eqb block_type "upsample" then forward_plain module st
          else if String.eqb block_type "shortcut" then forward_shortcut module st
          else if String.eqb block_type "route" then forward_route module st
          else if String.eqb block_type "yolo" then forward_yolo module st
          else Ok st) ;;
  Ok (append_x st').

Fixpoint forward_loop (blocks : list block) (i : nat) (ml : list (Sequential F))
  (st : fstate) : result fstate :=
  match ml with
  | [] => Ok st
  | module :: rest =>
      st' <- forward_layer blocks i module st ;;
      forward_loop blocks (S i) rest st'
  end.

Definition forward_init (input : tensor F) : fstate :=
  {| store := [input]; x := 0%nat; outputs := []; detection := empty_tensor |}.

(** The state after the first [n] layers have run. *)
Definition state_after (net : Darknet F) (input : tensor F) (n : nat)
  : result fstate :=
  forward_loop (drop 1 (blocks net)) 0 (take n (modules net)) (forward_init input).

(** [Darknet.forward]. *)
Definition Darknet_forward (net : Darknet F) (input : tensor F)
  : result (tensor F) :=
  st <- forward_loop (drop 1 (blocks net)) 0 (modules net) (forward_init input) ;;
  Ok (detection st).

End Forward.

Arguments fstate : clear implicits.

(** ** A sample numeric library

    Floats are terms: an input value, an integer, or an operation applied
    to terms.  The kernels the program does not look into build terms with
    a named operator. *)

Inductive term : Type :=
| Raw (n : nat)
| Int (z : Z)
| Sigmoid (t : term)
| Exp (t : term)
| Add (t1 t2 : term)
| Mul (t1 t2 : term)
| Op (name : string) (t : term).

#[export] Instance term_scalar : Scalar term :=
  {| sigmoid := Sigmoid; exp := Exp; fadd := Add; fmul := Mul; of_int := Int |}.

Definition pointwise (name : string) (t : tensor term) : tensor term :=
  {| shape := shape t; at_ := fun idx => Op name (at_ t idx) |}.

(** A convolution of the sample library: the output has the shape the
    library computes, its elements are opaque. *)
Definition sample_conv2d (conv : Conv2d term) (t : tensor term)
  : result (tensor term) :=
  match shape t with
  | [b; c; h; w] =>
      if negb (Z.of_nat c =? conv_in_channels conv) || (conv_stride conv <=? 0)
      then Raise RuntimeError
      else
        let side n := Z.to_nat ((Z.of_nat n + 2 * conv_padding conv
                                 - conv_kernel_size conv) / conv_stride conv + 1) in
        Ok {| shape := [b; Z.to_nat (conv_out_channels conv); side h; side w];
              at_ := fun idx => Op "conv2d" (Int (Z.of_nat (ravel [b; c; h; w] idx))) |}
  | _ => Raise RuntimeError
  end.

(** Bilinear upsampling by a factor of one returns the values it was given. *)
Definition sample_upsample (scale_factor : Z) (t : tensor term)
  : result (tensor term) :=
  match shape t with
  | [b; c; h; w] =>
      if scale_factor =? 1 then Ok t
      else if scale_factor <=? 0 then Raise RuntimeError
      else Ok {| shape := [b; c; (h * Z.to_nat scale_factor)%nat;
                           (w * Z.to_nat scale_factor)%nat];
                 at_ := fun idx => Op "upsample" (Int (Z.of_nat (ravel [b; c; h; w] idx))) |}
  | _ => Raise RuntimeError
  end.

Definition sample_iadd (a b : tensor term) : result (tensor term) :=
  if bool_decide (shape a = shape b)
  then Ok {| shape := shape a; at_ := fun idx => Add (at_ a idx) (at_ b idx) |}
  else Raise RuntimeError.

#[export] Instance term_kernels : Kernels term :=
  {| conv2d := sample_conv2d;
     batch_norm := fun _ t => Ok (pointwise "batch_norm" t);
     leaky_relu := pointwise "leaky_relu";
     upsample_bilinear := sample_upsample;
     tensor_iadd := sample_iadd |}.

(** An input of the given shape whose elements are [Raw 0], [Raw 1], ... in
    row-major order. *)
Definition raw_input (sh : list nat) : tensor term :=
  {| shape := sh; at_ := fun idx => Raw (ravel sh idx) |}.

Definition net_of_terms (content : string) : Darknet term :=
  match Darknet_init content with
  | Ok net => net
  | Raise _ => {| blocks := []; net_info := ∅; modules := []; header := None |}
  end.

Definition cfg_two_yolo : string :=
  lines_of ["[net]"; "width=4";
            "[upsample]"; "stride=1";
            "[yolo]"; "mask=0"; "anchors=10,13"; "classes=0";
            "[route]"; "layers=0";
            "[yolo]"; "mask=0"; "anchors=20,26"; "classes=0"].

Definition cfg_no_yolo : string :=
  lines_of ["[net]"; "width=4";
            "[upsample]"; "stride=1";
            "[upsample]"; "stride=1"].

Definition cfg_shortcut : string :=
  lines_of ["[net]"; "width=4";
            "[upsample]"; "stride=1";
            "[upsample]"; "stride=1";
            "[shortcut]"; "from=-2";
            "[route]"; "layers=1"].

(** The detection layer of the sample: one anchor, one class. *)
Definition det_one : DetectionLayer :=
  DetectionLayer_init [(10, 13)] 1 416.

(** ** Vocabulary of the statements about the forward pass *)

(** What holds of the state when [i] layers have run: [outputs] has [i]
    entries, every name is the name of an object, and from the first layer
    on [x] is the object appended last. *)
Definition fstate_wf {F : Type} (i : nat) (s : fstate F) : Prop :=
  length (outputs s) = i
  /\ (x s < length (store s))%nat
  /\ ((0 < i)%nat -> last (outputs s) = Some (x s))
  /\ Forall (fun l => (l < length (store s))%nat) (outputs s).

(** The tensor a forward pass of a sample network returns. *)
Definition forward_result (net : Darknet term) (input : tensor term) : tensor term :=
  match Darknet_forward net input with
  | Ok d => d
  | Raise _ => empty_tensor
  end.

(** What a branch of the loop body may do to the state: keep the objects
    there are, maybe add one, rewrite values, rebind [x] to an object. *)
Definition branch_ok {F : Type} (s s1 : fstate F) : Prop :=
  (length (store s) <= length (store s1))%nat
  /\ outputs s1 = outputs s
  /\ (x s1 < length (store s1))%nat.

(** The state a sample run has reached. *)
Definition state_of (r : result (fstate term)) : fstate term :=
  match r with
  | Ok s => s
  | Raise _ => forward_init empty_tensor
  end.

(** ** Vocabulary of further statements *)

(** A block that has a [type] key. *)
Definition typed (b : block) : Prop := is_Some (b !! "type").

(** Stripping [s] again changes nothing: no white space at either end. *)
Definition stripped (s : string) : Prop := strip s = s.

(** Every key and every value of the block is stripped. *)
Definition stripped_block (b : block) : Prop :=
  map_Forall (fun k v => stripped k /\ stripped v) b.

(** The number of header lines among the lines kept. *)
Definition count_headers (lines : list string) : nat :=
  length (filter (fun l => header_line l = true) lines).

(** Whether the lines kept do not start with a header. *)
Definition leading_block (lines : list string) : nat :=
  match lines with
  | l :: _ => if header_line l then 0%nat else 1%nat
  | [] => 1%nat
  end.

Definition starts_with_space (s : string) : bool :=
  match s with
  | String c _ => is_space c
  | EmptyString => false
  end.

(** The channel count that reaches the block at build position [i]: 3 at
    the first position, else the record of the block just before. *)
Definition feeds (ocs : list Z) (i : nat) (c : Z) : Prop :=
  match i with
  | O => c = 3
  | S j => ocs !! j = Some c
  end.

(** The builder's final state on a sample configuration, and the block at
    a build position. *)
Definition built (content : string) : build_state Z :=
  match create_modules_state (blocks_of content) with
  | Ok st => st
  | Raise _ => build_init
  end.

Definition block_at (content : string) (i : nat) : block :=
  default ∅ (drop 1 (blocks_of content) !! i).

(** The pair of integers that mask entry [m] selects from the list
    [anchors] of a [yolo] block. *)
Definition anchor_pair (anchors : list string) (m : Z) (wh : Z * Z) : Prop :=
  exists a b, py_getitem anchors (2 * m) = Ok a /\ py_int a = Ok wh.1
              /\ py_getitem anchors (2 * m + 1) = Ok b /\ py_int b = Ok wh.2.

(** The keys a block of type [t] must carry for the builder to get
    through it: those read with [int(block[key])], those read as
    strings, and the one read first. *)
Definition int_keys (t : string) : list string :=
  if String.eqb t "convolutional" then ["filters"; "size"; "stride"; "pad"]
  else if String.eqb t "shortcut" then ["from"]
  else if String.eqb t "upsample" then ["stride"]
  else if String.eqb t "yolo" then ["classes"]
  else [].

Definition str_keys (t : string) : list string :=
  if String.eqb t "convolutional" then ["activation"]
  else if String.eqb t "route" then ["layers"]
  else if String.eqb t "yolo" then ["mask"; "anchors"]
  else [].

Definition first_key (t : string) : option string :=
  if String.eqb t "convolutional" then Some "filters"
  else if String.eqb t "shortcut" then Some "from"
  else if String.eqb t "upsample" then Some "stride"
  else if String.eqb t "route" then Some "layers"
  else if String.eqb t "yolo" then Some "mask"
  else None.

Definition reads_int (blk : block) (k : string) : Prop :=
  exists n, int_of blk k = Ok n.

(** A [shortcut] block without its [from]. *)
Definition cfg_shortcut_bare : string :=
  lines_of (["[net]"; "width=416"] ++ conv_lines "16" ++ ["[shortcut]"]).

(** ** The architecture of a network

    What is left of a layer when the values of its parameters are
    forgotten: its kind, its hyperparameters and the shapes of its
    parameters. *)
Section Architecture.
Context {F : Type}.

Definition erase_param (p : param F) : param F :=
  {| p_shape := p_shape p; p_data := None |}.

Definition erase_conv (conv : Conv2d F) : Conv2d F :=
  {| conv_in_channels := conv_in_channels conv;
     conv_out_channels := conv_out_channels conv;
     conv_kernel_size := conv_kernel_size conv;
     conv_stride := conv_stride conv;
     conv_padding := conv_padding conv;
     conv_weight := erase_param (conv_weight conv);
     conv_bias := option_map erase_param (conv_bias conv) |}.

Definition erase_bn (bn : BatchNorm2d F) : BatchNorm2d F :=
  {| bn_num_features := bn_num_features bn;
     bn_weight := erase_param (bn_weight bn);
     bn_bias := erase_param (bn_bias bn);
     bn_running_mean := erase_param (bn_running_mean bn);
     bn_running_var := erase_param (bn_running_var bn) |}.

Definition erase_layer (l : layer F) : layer F :=
  match l with
  | LConv2d conv => LConv2d (erase_conv conv)
  | LBatchNorm2d bn => LBatchNorm2d (erase_bn bn)
  | _ => l
  end.

Definition erase_module (m : Sequential F) : Sequential F :=
  erase_layer <$> (m : list (layer F)).

Definition architecture (ml : list (Sequential F)) : list (Sequential F) :=
  erase_module <$> ml.

(** The layers of the module carry no parameter. *)
Definition param_free (m : Sequential F) : Prop :=
  Forall (fun l => layer_params l = []) (m : list (layer F)).

(** The module of a [convolutional] block: a convolution, then a batch
    normalisation when the block asks for one (the convolution has no bias
    then), then layers without parameters. *)
Definition conv_shape (has_bn : bool) (m : Sequential F) : Prop :=
  exists conv rest,
    param_free rest
    /\ if has_bn
       then conv_bias conv = None
            /\ exists bn, m = LConv2d conv :: LBatchNorm2d bn :: rest
       else is_Some (conv_bias conv) /\ m = LConv2d conv :: rest.

Definition module_shape (blk : block) (m : Sequential F) : Prop :=
  exists t, blk !! "type" = Some t
  /\ if String.eqb t "convolutional"
     then conv_shape (dict_has blk "batch_normalize") m
     else param_free m.

End Architecture.

(** A [shortcut] block whose [from] points at the layer itself. *)
Definition cfg_shortcut_self : string :=
  lines_of ["[net]"; "width=4";
            "[upsample]"; "stride=1";
            "[shortcut]"; "from=0"].

(** A [route] block with one index, then a [shortcut] that adds into its
    output. *)
Definition cfg_route_one : string :=
  lines_of ["[net]"; "width=4";
            "[upsample]"; "stride=1";
            "[route]"; "layers=0";
            "[shortcut]"; "from=-1"].

(** ** Writing a configuration

    A section of a configuration file is the name between the brackets and
    the key/value pairs under it, in order.  [render] writes sections the
    way the files of the format are written; [block_of] is the dict a
    section stands for, a later pair winning over an earlier one with the
    same key. *)
Definition section : Type := string * list (string * string).

Definition header_of (t : string) : string := "[" +:+ t +:+ "]".

Definition entry_of (kv : string * string) : string := kv.1 +:+ "=" +:+ kv.2.

Definition render_section (s : section) : list string :=
  header_of s.1 :: map entry_of s.2.

Definition render (cfg : list section) : string :=
  lines_of (concat (map render_section cfg)).

Definition block_of (s : section) : block :=
  fold_left (fun m kv => <[kv.1 := kv.2]> m) s.2 {[ "type" := s.1 ]}.

(** What can be written and read back: no white space at the ends, no
    line break, no [=] in a key or a value, and no key that starts like a
    header or a comment. *)
Definition comment_line (l : string) : bool :=
  match l with
  | String c _ => Ascii.eqb c "#"
  | EmptyString => false
  end.

Definition plain_name (t : string) : bool :=
  String.eqb (strip t) t && (count_char newline t =? 0)%nat.

Definition plain_value (v : string) : bool :=
  plain_name v && (count_char "=" v =? 0)%nat.

Definition plain_key (k : string) : bool :=
  plain_value k && negb (header_line k) && negb (comment_line k).

Definition plain_section (s : section) : bool :=
  plain_name s.1 && forallb (fun kv => plain_key kv.1 && plain_value kv.2) s.2.

(** A two-section sample. *)
Definition sections_tiny : list section :=
  [("net", [("width", "416"); ("height", "416"); ("width", "608")]);
   ("yolo", [("classes", "1")])].

(** The lines [render] writes are lines the parser keeps as they are. *)
Definition line_ok (l : string) : Prop :=
  strip l = l /\ keep_line l = true /\ count_char newline l = 0%nat.

(** The block types [create_modules] and [Darknet.forward] have a branch
    for. *)
Definition known_type (t : string) : bool :=
  existsb (String.eqb t) ["convolutional"; "upsample"; "shortcut"; "route"; "yolo"].

(** A block of a type the program has no branch for, between two
    [upsample] blocks. *)
Definition cfg_maxpool : string :=
  lines_of ["[net]"; "width=4";
            "[upsample]"; "stride=1";
            "[maxpool]"; "size=2"; "stride=2";
            "[upsample]"; "stride=1"].

(** A convolution with [batch_normalize=0]. *)
Definition cfg_bn_zero : string :=
  lines_of ["[net]"; "width=416";
            "[convolutional]"; "batch_normalize=0"; "filters=2"; "size=3";
            "stride=1"; "pad=1"; "activation=linear"].
(** * Properties *)

(** ** The configuration parser *)

Example parse_cfg_two_blocks :
  parse_cfg (lines_of ["# tiny"; "[net]"; " width = 416 "; ""; "[yolo]"; "classes=1"])
  = Ok [ {[ "type" := "net"; "width" := "416" ]};
         {[ "type" := "yolo"; "classes" := "1" ]} ].
Proof. vm_compute. reflexivity. Qed.

Example py_int_examples :
  py_int " -100 " = Ok (-100) /\ py_int "1_000" = Ok 1000 /\
  py_int "" = Raise ValueError /\ py_int "1__0" = Raise ValueError /\
  py_int "- 1" = Raise ValueError /\ py_int "+7" = Ok 7 /\
  py_int (String (ascii_of_nat 28) "5") = Raise ValueError /\
  py_int (String (ascii_of_nat 160) "5") = Ok 5.
Proof. vm_compute. repeat split. Qed.

(** *** Facts about [split] and the line loop *)

Lemma split_length (sep : ascii) (s : string) :
  length (split sep s) = S (count_char sep s).
Proof.
  induction s as [|c r IH]; simpl; [reflexivity|].
  destruct (Ascii.eqb c sep); simpl.
  - now rewrite IH.
  - destruct (split sep r) as [|h t]; simpl in *; lia.
Qed.

(** The two-way unpacking [key, value = line.split('=')] succeeds exactly
    when the line holds one [=]. *)
Lemma split_two_iff (s : string) :
  (exists k v, split "=" s = [k; v]) <-> count_char "=" s = 1%nat.
Proof.
  pose proof (split_length "=" s) as Hl. split.
  - intros (k & v & E). rewrite E in Hl. simpl in Hl. lia.
  - intros E. rewrite E in Hl.
    destruct (split "=" s) as [|k [|v [|w t]]]; simpl in Hl; try lia.
    now exists k, v.
Qed.


Lemma parse_line_malformed st l :
  keep_line l = true -> malformed_line l = true ->
  parse_line st l = Raise ValueError.
Proof.
  destruct st as [blocks blk]. destruct l as [|c r]; [discriminate|].
  intros _ H. unfold malformed_line in H. apply andb_true_iff in H as [Hh Hc].
  simpl in Hh. apply negb_true_iff in Hh. apply negb_true_iff in Hc.
  apply Nat.eqb_neq in Hc.
  unfold parse_line. rewrite Hh.
  destruct (split "=" (String c r)) as [|k [|v [|w t]]] eqn:E; try reflexivity.
  exfalso. apply Hc. apply split_two_iff. now exists k, v.
Qed.

Lemma parse_line_wellformed st l :
  keep_line l = true -> malformed_line l = false ->
  exists st', parse_line st l = Ok st'.
Proof.
  destruct st as [blocks blk]. destruct l as [|c r]; [discriminate|].
  intros _ H. unfold malformed_line, header_line in H. unfold parse_line.
  destruct (Ascii.eqb c "[") eqn:Hh.
  - destruct (negb (size blk =? 0)%nat); eauto.
  - rewrite andb_true_l in H. apply negb_false_iff, Nat.eqb_eq in H.
    apply split_two_iff in H as (k & v & E). rewrite E. eauto.
Qed.

Lemma parse_lines_malformed lines : forall st,
  Forall (fun l => keep_line l = true) lines ->
  Exists (fun l => malformed_line l = true) lines ->
  parse_lines st lines = Raise ValueError.
Proof.
  induction lines as [|l rest IH]; intros st Hk Hex.
  - inversion Hex.
  - inversion Hk as [|? ? Hkl Hkrest]; subst. simpl.
    destruct (malformed_line l) eqn:Hm.
    + now rewrite (parse_line_malformed st l Hkl Hm).
    + destruct (parse_line_wellformed st l Hkl Hm) as [st' E]. rewrite E. simpl.
      apply IH; [assumption|].
      inversion Hex; subst; [congruence|assumption].
Qed.

Lemma parse_lines_wellformed lines : forall st,
  Forall (fun l => keep_line l = true) lines ->
  Forall (fun l => malformed_line l = false) lines ->
  exists st', parse_lines st lines = Ok st'.
Proof.
  induction lines as [|l rest IH]; intros st Hk Hall; simpl; [eauto|].
  inversion Hk; subst. inversion Hall; subst.
  destruct (parse_line_wellformed st l) as [st' E]; [assumption..|].
  rewrite E. simpl. now apply IH.
Qed.

Lemma cfg_lines_kept content :
  Forall (fun l => keep_line l = true) (cfg_lines content).
Proof.
  unfold cfg_lines. apply Forall_forall. intros l Hin.
  apply list_elem_of_filter in Hin. tauto.
Qed.


Lemma cfg_lines_nil content :
  forallb blank_or_comment (split newline content) = true ->
  cfg_lines content = [].
Proof.
  unfold cfg_lines. generalize (split newline content) as ls.
  induction ls as [|l ls IH]; simpl; intros H; [reflexivity|].
  apply andb_true_iff in H as [Hl Hls]. unfold blank_or_comment in Hl.
  apply negb_true_iff in Hl. rewrite filter_cons, decide_False; [auto|].
  congruence.
Qed.

(** C10.  A file that holds nothing but blank lines and comments parses to
    exactly one block, and that block has no key at all, not even [type]:
    the block in progress is appended after the loop whatever it holds. *)
Theorem parse_cfg_only_blank_and_comment_lines (content : string)
  (Hblank : forallb blank_or_comment (split newline content) = true) :
  exists blk : block,
    parse_cfg content = Ok [blk] /\ size blk = 0%nat /\ blk !! "type" = None
    /\ forall k, blk !! k = None.
Proof.
  exists ∅. unfold parse_cfg. rewrite (cfg_lines_nil content Hblank). simpl.
  repeat split; reflexivity.
Qed.

Lemma parse_cfg_only_blank_and_comment_lines_witness :
  exists blk : block,
    parse_cfg (lines_of ["# yolo"; ""; "   "; "  # nothing here"]) = Ok [blk]
    /\ size blk = 0%nat /\ blk !! "type" = None /\ forall k, blk !! k = None.
Proof.
  apply (parse_cfg_only_blank_and_comment_lines
           (lines_of ["# yolo"; ""; "   "; "  # nothing here"])).
  vm_compute. reflexivity.
Defined.

(** C6, as stated, fails: a [key=value] line in front of the first header
    is accepted and lands in a block that has no [type]; and a line
    without [=] raises Python's [ValueError], the program has no error
    class of its own. *)
Lemma parse_cfg_line_before_header_accepted :
  parse_cfg (lines_of ["width=416"; "[net]"; "height=416"])
  = Ok [ {[ "width" := "416" ]}; {[ "type" := "net"; "height" := "416" ]} ]
  /\ parse_cfg "foo" = Raise ValueError
  /\ ~ raises_class (parse_cfg "foo") "ConfigError".
Proof.
  split; [vm_compute; reflexivity|]. split; [vm_compute; reflexivity|].
  vm_compute. discriminate.
Qed.

(** C6, amended.  Parsing fails exactly when one of the lines kept by the
    filter (stripped, not blank, not a comment) is no header and does not
    hold exactly one [=]; the failure is the [ValueError] of the two-way
    unpacking.  Whether a header came before the line plays no role. *)
Theorem parse_cfg_fails_iff_malformed_line (content : string) :
  if existsb malformed_line (cfg_lines content)
  then parse_cfg content = Raise ValueError
  else exists blocks, parse_cfg content = Ok blocks /\ blocks <> [].
Proof.
  pose proof (cfg_lines_kept content) as Hk. unfold parse_cfg.
  destruct (existsb malformed_line (cfg_lines content)) eqn:E.
  - rewrite (parse_lines_malformed (cfg_lines content) ([], ∅) Hk); [reflexivity|].
    apply existsb_exists in E as (l & Hin & Hl).
    apply Exists_exists. exists l. split; [now apply list_elem_of_In|assumption].
  - destruct (parse_lines_wellformed (cfg_lines content) ([], ∅) Hk) as [[bs b] Est].
    + apply Forall_forall. intros l Hin. apply list_elem_of_In in Hin.
      destruct (malformed_line l) eqn:Hl; [|reflexivity].
      assert (existsb malformed_line (cfg_lines content) = true)
        by (apply existsb_exists; eauto).
      congruence.
    + rewrite Est. simpl. exists (bs ++ [b]). split; [reflexivity|].
      intros Hnil. apply app_eq_nil in Hnil as [_ Hnil]. discriminate.
Qed.

(** ** The graph builder *)

Lemma bind_Ok {A B} (r : result A) (k : A -> result B) (b : B) :
  bind r k = Ok b -> exists a, r = Ok a /\ k a = Ok b.
Proof. destruct r as [a|e]; simpl; [eauto|discriminate]. Qed.

Ltac inv_bind H :=
  let a := fresh "v" in
  let E := fresh "E" in
  apply bind_Ok in H as (a & E & H).

Lemma py_getitem_elem {A} (l : list A) (i : Z) (a : A) :
  py_getitem l i = Ok a -> a ∈ l.
Proof.
  unfold py_getitem. destruct (_ && _); [|discriminate].
  destruct (l !! _) eqn:E; [|discriminate]. intros [= ->].
  eapply list_elem_of_lookup_2; eassumption.
Qed.

Lemma py_getitem_Ok_iff {A} (l : list A) (i : Z) :
  (exists a, py_getitem l i = Ok a)
  <-> - Z.of_nat (length l) <= i < Z.of_nat (length l).
Proof.
  unfold py_getitem. split.
  - intros [a H]. destruct (i <? 0) eqn:Hi;
      destruct (_ && _) eqn:Hb; try discriminate; lia.
  - intros Hr.
    set (j := if i <? 0 then i + Z.of_nat (length l) else i).
    assert (Hj : 0 <= j < Z.of_nat (length l)) by (subst j; destruct (i <? 0) eqn:Hi; lia).
    replace ((0 <=? j) && (j <? Z.of_nat (length l))) with true by lia.
    destruct (l !! Z.to_nat j) eqn:E; [eauto|].
    apply lookup_ge_None in E. lia.
Qed.

Lemma py_getitem_out_of_range {A} (l : list A) (i : Z) :
  i < - Z.of_nat (length l) \/ Z.of_nat (length l) <= i ->
  py_getitem l i = Raise IndexError.
Proof.
  intros Hr. unfold py_getitem.
  destruct (_ && _) eqn:Hb; [|reflexivity].
  destruct (i <? 0) eqn:Hi; lia.
Qed.

(** What one iteration of the builder's loop does to the loop variables. *)
Lemma create_module_appends {F} net_info i blk (st st' : build_state F) :
  create_module net_info i blk st = Ok st' ->
  out_channels st' = out_channels st ++ [out_channel st']
  /\ in_channel st' = out_channel st'
  /\ exists m, module_list st' = module_list st ++ [m].
Proof.
  unfold create_module. intros H. inv_bind H. inv_bind H.
  destruct v0 as [m oc]. injection H as <-. simpl. eauto.
Qed.

Lemma create_modules_loop_app {F} net_info l1 : forall l2 i (st : build_state F),
  create_modules_loop net_info i (l1 ++ l2) st
  = (st1 <- create_modules_loop net_info i l1 st ;;
     create_modules_loop net_info (i + Z.of_nat (length l1)) l2 st1).
Proof.
  induction l1 as [|b l1 IH]; intros l2 i st; simpl.
  - now rewrite Z.add_0_r.
  - destruct (create_module net_info i b st) as [st'|e]; simpl; [|reflexivity].
    rewrite IH. destruct (create_modules_loop net_info (i + 1) l1 st'); simpl;
      [|reflexivity].
    f_equal. lia.
Qed.

Lemma create_modules_loop_length {F} net_info l : forall i (st st' : build_state F),
  create_modules_loop net_info i l st = Ok st' ->
  length (out_channels st') = (length (out_channels st) + length l)%nat
  /\ length (module_list st') = (length (module_list st) + length l)%nat
  /\ out_channels st `prefix_of` out_channels st'.
Proof.
  induction l as [|b l IH]; intros i st st' H; simpl in *.
  - injection H as <-. repeat split; try lia. reflexivity.
  - inv_bind H. apply IH in H as (H1 & H2 & H3).
    apply create_module_appends in E as (E1 & _ & m & E3).
    rewrite E1 in H1, H3. rewrite E3 in H2.
    rewrite length_app in H1, H2. simpl in *. repeat split; try lia.
    etransitivity; [|exact H3]. now apply prefix_app_r.
Qed.

Lemma dict_getitem_Ok (d : block) k v : dict_getitem d k = Ok v -> d !! k = Some v.
Proof. unfold dict_getitem. destruct (d !! k); [|discriminate]. now intros [= ->]. Qed.

Lemma build_convolutional_out {F} ic blk (m : Sequential F) oc :
  build_convolutional ic blk = Ok (m, oc) -> int_of blk "filters" = Ok oc.
Proof.
  unfold build_convolutional. intros H.
  destruct (int_of blk "filters") as [filters|]; [|discriminate]. simpl in H.
  repeat inv_bind H. injection H as _ <-. reflexivity.
Qed.

Lemma build_route_positive {F} i ocs blk (m : Sequential F) oc :
  build_route i ocs blk = Ok (m, oc) -> Forall (fun c => 0 < c) ocs -> 0 < oc.
Proof.
  unfold build_route. intros H Hall. rewrite Forall_forall in Hall.
  repeat inv_bind H. destruct (1 <? length _)%nat.
  - repeat inv_bind H. injection H as _ <-.
    match goal with
    | H1 : py_getitem ocs _ = Ok ?a, H2 : py_getitem ocs _ = Ok ?b |- 0 < ?a + ?b =>
        apply py_getitem_elem, Hall in H1; apply py_getitem_elem, Hall in H2; lia
    end.
  - inv_bind H. injection H as _ <-.
    match goal with
    | H1 : py_getitem ocs _ = Ok ?a |- 0 < ?a => now apply py_getitem_elem, Hall in H1
    end.
Qed.

Lemma create_module_positive {F} net_info i blk (st st' : build_state F) :
  create_module net_info i blk st = Ok st' ->
  positive_filters blk = true ->
  0 < out_channel st -> Forall (fun c => 0 < c) (out_channels st) ->
  0 < out_channel st'.
Proof.
  unfold create_module, positive_filters. intros H Hpos Hoc Hall.
  inv_bind H. apply dict_getitem_Ok in E. rewrite E in Hpos.
  inv_bind H. destruct v0 as [m oc]. injection H as <-. simpl.
  destruct (String.eqb v "convolutional").
  { apply build_convolutional_out in E0. rewrite E0 in Hpos. lia. }
  destruct (String.eqb v "shortcut").
  { repeat inv_bind E0. now injection E0 as _ <-. }
  destruct (String.eqb v "upsample").
  { repeat inv_bind E0. now injection E0 as _ <-. }
  destruct (String.eqb v "route").
  { eapply build_route_positive; eassumption. }
  destruct (String.eqb v "yolo").
  { repeat inv_bind E0. now injection E0 as _ <-. }
  now injection E0 as _ <-.
Qed.

Lemma create_modules_loop_positive {F} net_info l : forall i (st st' : build_state F),
  create_modules_loop net_info i l st = Ok st' ->
  forallb positive_filters l = true ->
  0 < out_channel st -> Forall (fun c => 0 < c) (out_channels st) ->
  0 < out_channel st' /\ Forall (fun c => 0 < c) (out_channels st').
Proof.
  induction l as [|b l IH]; intros i st st' H Hpos Hoc Hall; simpl in *.
  - injection H as <-. auto.
  - apply andb_true_iff in Hpos as [Hb Hl]. inv_bind H.
    pose proof (create_module_positive _ _ _ _ _ E Hb Hoc Hall) as Hoc'.
    apply create_module_appends in E as (E1 & _).
    apply (IH _ _ _ H Hl Hoc'). rewrite E1.
    apply Forall_app. split; [assumption|]. now constructor.
Qed.

(** C8.  For a configuration the builder accepts and whose convolutional
    blocks declare a positive number of filters, the builder ends with one
    output-channel record per block after the first (the metadata block),
    and every record is a positive integer. *)
Theorem out_channels_one_positive_record_per_block (F : Type)
  (blocks : list block) (Hvalid : valid_config F blocks) :
  exists st : build_state F,
    create_modules_state blocks = Ok st
    /\ length (out_channels st) = (length blocks - 1)%nat
    /\ length (module_list st) = (length blocks - 1)%nat
    /\ Forall (fun c => 0 < c) (out_channels st).
Proof.
  destruct Hvalid as [[st Hst] Hpos]. exists st. split; [assumption|].
  unfold create_modules_state in Hst. inv_bind Hst.
  pose proof (create_modules_loop_length _ _ _ _ _ Hst) as (H1 & H2 & _).
  rewrite length_drop in H1, H2. simpl in H1, H2.
  repeat split; try assumption.
  eapply create_modules_loop_positive; try eassumption; simpl; [lia|constructor].
Qed.

(** The build of the first [i] layer blocks, then block [i], then the rest. *)
Lemma create_modules_state_at {F} (blocks : list block) (i : nat) (blk : block) :
  drop 1 blocks !! i = Some blk ->
  exists net_info, blocks !! 0%nat = Some net_info
  /\ @create_modules_state F (take (S (S i)) blocks)
     = (st <- create_modules_state (take (S i) blocks) ;;
        create_module net_info (Z.of_nat i) blk st)
  /\ @create_modules_state F blocks
     = (st' <- create_modules_state (take (S (S i)) blocks) ;;
        create_modules_loop net_info (Z.of_nat i + 1) (drop (S (S i)) blocks) st').
Proof.
  destruct blocks as [|ni rest]; [now rewrite drop_nil|].
  simpl. rewrite drop_0. intros Hi. exists ni. split; [reflexivity|].
  pose proof (lookup_lt_Some _ _ _ Hi) as Hlt.
  assert (Hlen : length (take i rest) = i) by (rewrite length_take; lia).
  assert (Htake : take (S i) rest = take i rest ++ [blk]).
  { erewrite take_S_r; [reflexivity|assumption]. }
  unfold create_modules_state. cbn [py_getitem length]. simpl.
  rewrite !drop_0. split.
  - rewrite Htake, create_modules_loop_app, Hlen. simpl.
    destruct (create_modules_loop ni 0 (take i rest) build_init); simpl; [|reflexivity].
    rewrite Z.add_0_l. now destruct (create_module ni (Z.of_nat i) blk a).
  - rewrite <- (take_drop (S i) rest) at 1.
    rewrite create_modules_loop_app, length_take.
    replace (0 + Z.of_nat (S i `min` length rest)) with (Z.of_nat i + 1) by lia.
    reflexivity.
Qed.

Lemma create_modules_state_prefix_length {F} (blocks : list block) (i : nat)
  (st : build_state F) :
  (i <= length (drop 1 blocks))%nat ->
  create_modules_state (take (S i) blocks) = Ok st ->
  length (out_channels st) = i /\ length (module_list st) = i.
Proof.
  intros Hi H. unfold create_modules_state in H. inv_bind H.
  apply create_modules_loop_length in H as (H1 & H2 & _).
  rewrite length_drop, length_take in H1, H2. rewrite length_drop in Hi.
  change (length (out_channels build_init)) with 0%nat in H1.
  change (length (module_list build_init)) with 0%nat in H2. lia.
Qed.

Lemma out_channels_witness :
  exists st : build_state Z,
    create_modules_state (blocks_of cfg_tiny) = Ok st
    /\ length (out_channels st) = (length (blocks_of cfg_tiny) - 1)%nat
    /\ length (module_list st) = (length (blocks_of cfg_tiny) - 1)%nat
    /\ Forall (fun c => 0 < c) (out_channels st).
Proof.
  apply (out_channels_one_positive_record_per_block Z (blocks_of cfg_tiny)).
  split; [eexists; vm_compute; reflexivity | vm_compute; reflexivity].
Defined.

Lemma create_modules_of_state {F} (blocks : list block) :
  @create_modules F blocks
  = (st <- create_modules_state blocks ;;
     net_info <- py_getitem blocks 0 ;; Ok (net_info, module_list st)).
Proof.
  unfold create_modules, create_modules_state.
  destruct (py_getitem blocks 0) as [ni|e]; simpl; [|reflexivity].
  now destruct (create_modules_loop ni 0 (drop 1 blocks) build_init).
Qed.

Lemma py_getitem_nonneg {A} (l : list A) (i : Z) (a : A) :
  0 <= i -> l !! Z.to_nat i = Some a -> py_getitem l i = Ok a.
Proof.
  intros Hi Hl. pose proof (lookup_lt_Some _ _ _ Hl) as Hlt. unfold py_getitem.
  destruct (i <? 0) eqn:E1; [lia|].
  destruct ((0 <=? i) && (i <? Z.of_nat (length l))) eqn:E2; [|lia].
  now rewrite Hl.
Qed.

Lemma py_getitem_0 {A} (a : A) (l : list A) : py_getitem (a :: l) 0 = Ok a.
Proof. now apply py_getitem_nonneg. Qed.

Lemma py_getitem_1 {A} (a b : A) (l : list A) : py_getitem (a :: b :: l) 1 = Ok b.
Proof. now apply py_getitem_nonneg. Qed.

Lemma py_getitem_in_range {A} (l : list A) (n : nat) (i : Z) :
  length l = n ->
  in_list_range (Z.of_nat n) i = true -> exists a, py_getitem l i = Ok a.
Proof. intros <- H. apply py_getitem_Ok_iff. unfold in_list_range in H. lia. Qed.

Lemma py_getitem_not_in_range {A} (l : list A) (n : nat) (i : Z) :
  length l = n ->
  in_list_range (Z.of_nat n) i = false -> py_getitem l i = Raise IndexError.
Proof. intros <- H. apply py_getitem_out_of_range. unfold in_list_range in H. lia. Qed.

Lemma split_nonempty sep s : exists h t, split sep s = h :: t.
Proof.
  pose proof (split_length sep s). destruct (split sep s); simpl in *; [lia|eauto].
Qed.

(** What the [route] branch returns, by the number of entries of [layers]
    and the range of the resolved indices. *)
Lemma build_route_spec {F} (i : Z) (ocs : list Z) (blk : block) layers idxs :
  blk !! "layers" = Some layers ->
  mapM py_int (take 2 (split "," layers)) = Ok idxs ->
  match idxs with
  | [a] =>
      @build_route F i ocs blk
      = (c <- py_getitem ocs (resolve i a) ;; Ok ([LRouteLayer [resolve i a]], c))
  | [a; b] =>
      @build_route F i ocs blk
      = (c1 <- py_getitem ocs (resolve i a) ;;
         c2 <- py_getitem ocs (resolve i b) ;;
         Ok ([LRouteLayer [resolve i a; resolve i b]], c1 + c2))
  | _ => False
  end.
Proof.
  intros Hl Hm. unfold build_route, dict_getitem. rewrite Hl. simpl.
  destruct (split "," layers) as [|s0 [|s1 t]] eqn:Es.
  - destruct (split_nonempty "," layers) as (h & t & E). congruence.
  - simpl in Hm. rewrite py_getitem_0. cbn [bind].
    destruct (py_int s0) as [a|]; [|discriminate]. injection Hm as <-. simpl.
    unfold resolve. replace (i + a) with (a + i) by lia. reflexivity.
  - simpl in Hm. rewrite py_getitem_0, py_getitem_1. cbn [bind].
    destruct (py_int s0) as [a|]; [|discriminate]. cbn [bind] in *.
    destruct (py_int s1) as [b|]; [|discriminate]. injection Hm as <-. simpl.
    unfold resolve. replace (i + a) with (a + i) by lia. reflexivity.
Qed.

Lemma create_module_route {F} net_info i blk (st : build_state F) :
  blk !! "type" = Some "route" ->
  create_module net_info i blk st
  = (r <- build_route i (out_channels st) blk ;; Ok (record_module st r)).
Proof.
  intros Ht. unfold create_module, dict_getitem. rewrite Ht. simpl.
  destruct (build_route i (out_channels st) blk) as [[m oc]|]; reflexivity.
Qed.

Lemma create_module_shortcut {F} net_info i blk (st : build_state F) :
  blk !! "type" = Some "shortcut" ->
  create_module net_info i blk st
  = (from <- int_of blk "from" ;;
     Ok (record_module st ([LShortcutLayer (from + i)], out_channel st))).
Proof.
  intros Ht. unfold create_module, dict_getitem. rewrite Ht. simpl.
  destruct (int_of blk "from"); reflexivity.
Qed.

(** C4, as stated, fails.  A [shortcut] block is never range-checked by the
    builder: [from=-100] at position 1 builds.  A [route] index that
    resolves to [-1] at position 2 builds as well, since a negative list
    index counts from the end.  And [layers=-100] at position 2 does stop
    the build, but with Python's [IndexError]. *)
Lemma out_of_range_reference_builds :
  (exists net : Darknet Z,
     Darknet_init cfg_shortcut_far = Ok net
     /\ modules net !! 1%nat = Some [LShortcutLayer (-99)])
  /\ (exists st : build_state Z,
        create_modules_state (blocks_of cfg_route_wrap) = Ok st
        /\ module_list st !! 2%nat = Some [LRouteLayer [-1]]
        /\ out_channels st = [16; 32; 32])
  /\ @Darknet_init Z cfg_route_far = Raise IndexError
  /\ ~ raises_class (@Darknet_init Z cfg_route_far) "ConfigError".
Proof.
  split; [eexists; split; vm_compute; reflexivity|].
  split; [eexists; repeat split; vm_compute; reflexivity|].
  split; [vm_compute; reflexivity|]. vm_compute. discriminate.
Qed.

(** C4, amended.  Let the blocks in front of block [i] build.  If block [i]
    is a [route], the build goes on past it when every resolved index lies
    in [-i, i), the range Python accepts on the [i] records made so far, and
    stops with [IndexError] otherwise.  If block [i] is a [shortcut], the
    build goes on past it whatever [from] is. *)
Theorem reference_checked_only_by_list_indexing (F : Type)
  (blocks : list block) (i : nat) (blk : block) (st : build_state F)
  (Hblk : drop 1 blocks !! i = Some blk)
  (Hpre : create_modules_state (take (S i) blocks) = Ok st) :
  (forall layers idxs,
      blk !! "type" = Some "route" ->
      blk !! "layers" = Some layers ->
      mapM py_int (take 2 (split "," layers)) = Ok idxs ->
      if forallb (fun idx => in_list_range (Z.of_nat i) (resolve (Z.of_nat i) idx)) idxs
      then exists st', @create_modules_state F (take (S (S i)) blocks) = Ok st'
      else @create_modules_state F blocks = Raise IndexError
           /\ @create_modules F blocks = Raise IndexError)
  /\ (forall from,
        blk !! "type" = Some "shortcut" ->
        int_of blk "from" = Ok from ->
        exists st', @create_modules_state F (take (S (S i)) blocks) = Ok st'
                    /\ module_list st' !! i = Some [LShortcutLayer (from + Z.of_nat i)]).
Proof.
  destruct (create_modules_state_at (F:=F) blocks i blk Hblk) as (ni & _ & Hstep & Hall).
  destruct (create_modules_state_prefix_length blocks i st) as [Hlen Hlenm];
    [apply lookup_lt_Some in Hblk; lia | assumption |].
  rewrite Hpre in Hstep. cbn [bind] in Hstep. split.
  - intros layers idxs Ht Hl Hm.
    pose proof (build_route_spec (F:=F) (Z.of_nat i) (out_channels st) blk layers idxs Hl Hm)
      as Hspec.
    rewrite create_module_route in Hstep by assumption.
    rewrite create_modules_of_state, Hall, Hstep. clear Hall Hstep.
    destruct idxs as [|a [|b [|c t]]]; try contradiction; rewrite Hspec; simpl.
    + rewrite andb_true_r.
      destruct (in_list_range _ (resolve _ a)) eqn:Ea.
      * apply (py_getitem_in_range _ _ _ Hlen) in Ea as [c ->]. simpl. eauto.
      * apply (py_getitem_not_in_range _ _ _ Hlen) in Ea as ->. simpl. auto.
    + rewrite andb_true_r.
      destruct (in_list_range _ (resolve _ a)) eqn:Ea; simpl.
      * apply (py_getitem_in_range _ _ _ Hlen) in Ea as [c1 ->]. simpl.
        destruct (in_list_range _ (resolve _ b)) eqn:Eb; simpl.
        -- apply (py_getitem_in_range _ _ _ Hlen) in Eb as [c2 ->]. simpl. eauto.
        -- apply (py_getitem_not_in_range _ _ _ Hlen) in Eb as ->. simpl. auto.
      * apply (py_getitem_not_in_range _ _ _ Hlen) in Ea as ->. simpl. auto.
  - intros from Ht Hf. rewrite create_module_shortcut in Hstep by assumption.
    rewrite Hf in Hstep. cbn [bind] in Hstep. eexists. split; [exact Hstep|].
    simpl. rewrite <- Hlenm at 1. apply list_lookup_middle. reflexivity.
Qed.

Lemma reference_checked_only_by_list_indexing_witness :
  exists st : build_state Z,
    create_modules_state (take 3 (blocks_of cfg_route_far)) = Ok st
    /\ @create_modules Z (blocks_of cfg_route_far) = Raise IndexError.
Proof.
  eexists. split; [vm_compute; reflexivity|].
  refine (proj2 (proj1 (reference_checked_only_by_list_indexing Z
            (blocks_of cfg_route_far) 2 _ _ _ _) "-100" [-100] _ _ _)).
  - vm_compute. reflexivity.
  - vm_compute. reflexivity.
  - vm_compute. reflexivity.
  - vm_compute. reflexivity.
  - vm_compute. reflexivity.
Defined.

(** ** The weight loader *)

Section Loader.
Context {F : Type}.
Implicit Types (weights : list F) (p : param F) (m : Sequential F).

Lemma np_slice_length weights ptr n :
  length (np_slice weights ptr n)
  = (Z.to_nat n `min` (length weights - Z.to_nat ptr))%nat.
Proof. unfold np_slice. now rewrite length_take, length_drop. Qed.

Lemma numel_1 (a : Z) (p : param F) : p_shape p = [a] -> numel p = a.
Proof. unfold numel. intros ->. simpl. lia. Qed.

Lemma numel_4 (a b c d : Z) (p : param F) :
  p_shape p = [a; b; c; d] -> numel p = a * b * c * d.
Proof. unfold numel. intros ->. simpl. lia. Qed.

(** The reshape of a slice succeeds exactly when the blob still holds all
    the floats of the parameter. *)
Lemma view_as_np_slice weights p ptr n :
  numel p = n -> 0 <= ptr <= Z.of_nat (length weights) -> 0 <= n ->
  view_as (np_slice weights ptr n) p
  = if ptr + n <=? Z.of_nat (length weights)
    then Ok (np_slice weights ptr n) else Raise RuntimeError.
Proof.
  intros Hnum Hp Hn. unfold view_as. rewrite Hnum, np_slice_length.
  set (k := (Z.to_nat n `min` (length weights - Z.to_nat ptr))%nat).
  destruct (ptr + n <=? _) eqn:E1.
  - assert (k = Z.to_nat n) as -> by (subst k; lia).
    now rewrite (proj2 (Z.eqb_eq _ _)) by lia.
  - assert (k = (length weights - Z.to_nat ptr)%nat) as -> by (subst k; lia).
    now rewrite (proj2 (Z.eqb_neq _ _)) by lia.
Qed.

Lemma np_slice_full weights ptr n :
  0 <= ptr -> 0 <= n -> ptr + n <= Z.of_nat (length weights) ->
  Z.of_nat (length (np_slice weights ptr n)) = n.
Proof.
  intros. rewrite np_slice_length.
  assert ((Z.to_nat n `min` (length weights - Z.to_nat ptr))%nat = Z.to_nat n) as ->
    by lia.
  lia.
Qed.

Lemma view_as_Ok (a a' : list F) p :
  view_as a p = Ok a' -> a' = a /\ Z.of_nat (length a) = numel p.
Proof.
  unfold view_as. destruct (Z.eqb_spec (Z.of_nat (length a)) (numel p));
    [|discriminate].
  intros [= <-]. auto.
Qed.

Lemma load_batch_norm_spec weights ptr (conv : Conv2d F) bn tail n :
  p_shape (bn_weight bn) = [n] -> p_shape (bn_bias bn) = [n] ->
  p_shape (bn_running_mean bn) = [n] -> p_shape (bn_running_var bn) = [n] ->
  0 <= n -> 0 <= ptr <= Z.of_nat (length weights) ->
  load_batch_norm weights ptr (LConv2d conv :: LBatchNorm2d bn :: tail)
  = if ptr + 4 * n <=? Z.of_nat (length weights)
    then Ok (LConv2d conv :: LBatchNorm2d (bn_loaded weights ptr n bn) :: tail,
             ptr + n + n + n + n)
    else Raise RuntimeError.
Proof.
  intros Hw Hb Hm Hv Hn Hp. apply numel_1 in Hw, Hb, Hm, Hv.
  unfold load_batch_norm. cbn [seq_getitem lookup list_lookup bind as_bn].
  rewrite Hw.
  rewrite (view_as_np_slice _ _ ptr n) by (assumption || lia).
  destruct (Z.leb_spec (ptr + n) (Z.of_nat (length weights))); cbn [bind];
    [|destruct (Z.leb_spec (ptr + 4 * n) (Z.of_nat (length weights))); [lia|reflexivity]].
  rewrite (view_as_np_slice _ _ (ptr + n) n) by (assumption || lia).
  destruct (Z.leb_spec (ptr + n + n) (Z.of_nat (length weights))); cbn [bind];
    [|destruct (Z.leb_spec (ptr + 4 * n) (Z.of_nat (length weights))); [lia|reflexivity]].
  rewrite (view_as_np_slice _ _ (ptr + n + n) n) by (assumption || lia).
  destruct (Z.leb_spec (ptr + n + n + n) (Z.of_nat (length weights))); cbn [bind];
    [|destruct (Z.leb_spec (ptr + 4 * n) (Z.of_nat (length weights))); [lia|reflexivity]].
  rewrite (view_as_np_slice _ _ (ptr + n + n + n) n) by (assumption || lia).
  destruct (Z.leb_spec (ptr + n + n + n + n) (Z.of_nat (length weights))); cbn [bind];
    destruct (Z.leb_spec (ptr + 4 * n) (Z.of_nat (length weights))); try lia;
    reflexivity.
Qed.

Lemma load_conv_bias_spec weights ptr (conv : Conv2d F) b tail n :
  conv_bias conv = Some b -> p_shape b = [n] ->
  0 <= n -> 0 <= ptr <= Z.of_nat (length weights) ->
  load_conv_bias weights ptr (LConv2d conv :: tail)
  = if ptr + n <=? Z.of_nat (length weights)
    then Ok (LConv2d (set_conv_bias conv (copy_ b (np_slice weights ptr n))) :: tail,
             ptr + n)
    else Raise RuntimeError.
Proof.
  intros Hb Hs Hn Hp. apply numel_1 in Hs.
  unfold load_conv_bias. cbn [seq_getitem lookup list_lookup bind as_conv].
  rewrite Hb. cbn [bind]. rewrite Hs.
  rewrite (view_as_np_slice _ _ ptr n) by (assumption || lia).
  now destruct (ptr + n <=? Z.of_nat (length weights)).
Qed.

Lemma load_conv_weight_spec weights ptr (conv : Conv2d F) tail n :
  numel (conv_weight conv) = n ->
  0 <= n -> 0 <= ptr <= Z.of_nat (length weights) ->
  load_conv_weight weights ptr (LConv2d conv :: tail)
  = if ptr + n <=? Z.of_nat (length weights)
    then Ok (LConv2d (kernel_loaded weights ptr conv) :: tail, ptr + n)
    else Raise RuntimeError.
Proof.
  intros Hs Hn Hp.
  unfold load_conv_weight, kernel_loaded.
  cbn [seq_getitem lookup list_lookup bind as_conv]. rewrite Hs.
  rewrite (view_as_np_slice _ _ ptr n) by (assumption || lia).
  now destruct (ptr + n <=? Z.of_nat (length weights)).
Qed.

Lemma load_convolutional_bn weights ptr blk (conv : Conv2d F) bn tail n k :
  dict_has blk "batch_normalize" = true ->
  p_shape (bn_weight bn) = [n] -> p_shape (bn_bias bn) = [n] ->
  p_shape (bn_running_mean bn) = [n] -> p_shape (bn_running_var bn) = [n] ->
  numel (conv_weight conv) = k ->
  0 <= n -> 0 <= k -> 0 <= ptr <= Z.of_nat (length weights) ->
  load_convolutional weights ptr blk (LConv2d conv :: LBatchNorm2d bn :: tail)
  = if ptr + 4 * n <=? Z.of_nat (length weights) then
      if ptr + 4 * n + k <=? Z.of_nat (length weights) then
        (LConv2d (kernel_loaded weights (ptr + 4 * n) conv)
           :: LBatchNorm2d (bn_loaded weights ptr n bn) :: tail,
         Ok (ptr + 4 * n + k))
      else
        (LConv2d conv :: LBatchNorm2d (bn_loaded weights ptr n bn) :: tail,
         Raise RuntimeError)
    else (LConv2d conv :: LBatchNorm2d bn :: tail, Raise RuntimeError).
Proof.
  intros Hbn Hw Hb Hm Hv Hk Hn Hk0 Hp. unfold load_convolutional. rewrite Hbn.
  rewrite (load_batch_norm_spec weights ptr conv bn tail n) by assumption.
  destruct (Z.leb_spec (ptr + 4 * n) (Z.of_nat (length weights))); [|reflexivity].
  replace (ptr + n + n + n + n) with (ptr + 4 * n) by lia.
  rewrite (load_conv_weight_spec weights (ptr + 4 * n) conv _ k) by (assumption || lia).
  now destruct (ptr + 4 * n + k <=? Z.of_nat (length weights)).
Qed.

Lemma load_convolutional_bias weights ptr blk (conv : Conv2d F) b tail n k :
  dict_has blk "batch_normalize" = false ->
  conv_bias conv = Some b -> p_shape b = [n] ->
  numel (conv_weight conv) = k ->
  0 <= n -> 0 <= k -> 0 <= ptr <= Z.of_nat (length weights) ->
  load_convolutional weights ptr blk (LConv2d conv :: tail)
  = if ptr + n <=? Z.of_nat (length weights) then
      if ptr + n + k <=? Z.of_nat (length weights) then
        (LConv2d (kernel_loaded weights (ptr + n)
                    (set_conv_bias conv (copy_ b (np_slice weights ptr n)))) :: tail,
         Ok (ptr + n + k))
      else
        (LConv2d (set_conv_bias conv (copy_ b (np_slice weights ptr n))) :: tail,
         Raise RuntimeError)
    else (LConv2d conv :: tail, Raise RuntimeError).
Proof.
  intros Hbn Hb Hs Hk Hn Hk0 Hp. unfold load_convolutional. rewrite Hbn.
  rewrite (load_conv_bias_spec weights ptr conv b tail n) by assumption.
  destruct (Z.leb_spec (ptr + n) (Z.of_nat (length weights))); [|reflexivity].
  rewrite (load_conv_weight_spec weights (ptr + n) _ _ k) by (assumption || lia).
  now destruct (ptr + n + k <=? Z.of_nat (length weights)).
Qed.

Lemma copy_full weights p off n :
  numel p = n -> 0 <= off -> 0 <= n -> off + n <= Z.of_nat (length weights) ->
  untouched_or_full weights (copy_ p (np_slice weights off n)).
Proof.
  intros Hn Hoff Hn0 Hle. unfold untouched_or_full, copy_, holds, numel in *.
  simpl. exists off. rewrite Hn. repeat split; try assumption.
  now apply np_slice_full.
Qed.

Ltac solve_params :=
  unfold module_params;
  cbn [map concat layer_params kernel_loaded set_conv_weight set_conv_bias
       conv_weight conv_bias bn_loaded bn_weight bn_bias bn_running_mean
       bn_running_var app];
  repeat (rewrite Forall_cons || rewrite Forall_app);
  let Hall := fresh "Hall" in
  intros Hall;
  repeat match goal with H : _ /\ _ |- _ => destruct H end;
  repeat split; try assumption; try (apply copy_full; (assumption || lia)).

Ltac solve_params_with Hb :=
  unfold module_params;
  cbn [map concat layer_params kernel_loaded set_conv_weight set_conv_bias
       conv_weight conv_bias app];
  rewrite Hb; solve_params.

(** One convolutional module, loaded from [ptr]: the shapes stay, the
    pointer moves by the floats of the module if the blob has that many,
    the load fails otherwise, and whatever was written is a full slice. *)
Lemma load_convolutional_summary weights ptr blk m :
  blk !! "type" = Some "convolutional" ->
  conv_wf (dict_has blk "batch_normalize") m ->
  0 <= ptr <= Z.of_nat (length weights) ->
  exists m',
    (load_convolutional weights ptr blk m).1 = m'
    /\ 0 <= module_floats blk m
    /\ conv_wf (dict_has blk "batch_normalize") m'
    /\ module_floats blk m' = module_floats blk m
    /\ (load_convolutional weights ptr blk m).2
       = (if ptr + module_floats blk m <=? Z.of_nat (length weights)
          then Ok (ptr + module_floats blk m) else Raise RuntimeError)
    /\ (Forall (untouched_or_full weights) (module_params m) ->
        Forall (untouched_or_full weights) (module_params m')).
Proof.
  intros Ht (conv & tail & -> & Ho & Hi & Hk & Hws & Hrest) Hp.
  pose proof (numel_4 _ _ _ _ _ Hws) as Hnum.
  set (n := conv_out_channels conv) in *.
  set (k := n * conv_in_channels conv * conv_kernel_size conv * conv_kernel_size conv) in *.
  assert (Hk0 : 0 <= k) by (subst k; nia).
  assert (Hneed : forall (c : Conv2d F) (t : Sequential F), module_floats blk (LConv2d c :: t)
                   = conv_floats (dict_has blk "batch_normalize") c).
  { intros c t. unfold module_floats. now rewrite Ht. }
  rewrite !Hneed. unfold conv_floats at 1 3 4. fold n. fold k.
  destruct (dict_has blk "batch_normalize") eqn:Hbn.
  - destruct Hrest as (bn & tail' & -> & Hbw & Hbb & Hbm & Hbv).
    rewrite (load_convolutional_bn weights ptr blk conv bn tail' n k) by assumption.
    destruct (Z.leb_spec (ptr + 4 * n) (Z.of_nat (length weights))) as [H4|H4];
      [destruct (Z.leb_spec (ptr + 4 * n + k) (Z.of_nat (length weights))) as [H5|H5]|];
      eexists; (split; [reflexivity|]); (split; [lia|]); cbn [fst snd].
    + split; [|split; [|split]].
      * exists (kernel_loaded weights (ptr + 4 * n) conv), (LBatchNorm2d (bn_loaded weights ptr n bn) :: tail').
        repeat split; try assumption. eexists _, _. repeat split; assumption.
      * rewrite Hneed. reflexivity.
      * destruct (Z.leb_spec (ptr + (4 * n + k)) (Z.of_nat (length weights))); [f_equal; lia|lia].
      * apply numel_1 in Hbw, Hbb, Hbm, Hbv. solve_params.
    + split; [|split; [|split]].
      * exists conv, (LBatchNorm2d (bn_loaded weights ptr n bn) :: tail').
        repeat split; try assumption. eexists _, _. repeat split; assumption.
      * rewrite Hneed. reflexivity.
      * destruct (Z.leb_spec (ptr + (4 * n + k)) (Z.of_nat (length weights))); [lia|reflexivity].
      * apply numel_1 in Hbw, Hbb, Hbm, Hbv. solve_params.
    + split; [|split; [|split]].
      * exists conv, (LBatchNorm2d bn :: tail').
        repeat split; try assumption. eexists _, _. repeat split; assumption.
      * rewrite Hneed. reflexivity.
      * destruct (Z.leb_spec (ptr + (4 * n + k)) (Z.of_nat (length weights))); [lia|reflexivity].
      * trivial.
  - destruct Hrest as (b & Hb & Hbs).
    rewrite (load_convolutional_bias weights ptr blk conv b tail n k) by assumption.
    destruct (Z.leb_spec (ptr + n) (Z.of_nat (length weights))) as [H4|H4];
      [destruct (Z.leb_spec (ptr + n + k) (Z.of_nat (length weights))) as [H5|H5]|];
      eexists; (split; [reflexivity|]); (split; [lia|]); cbn [fst snd].
    + split; [|split; [|split]].
      * eexists _, tail. split; [reflexivity|].
        repeat split; try assumption. eexists. split; [reflexivity|assumption].
      * rewrite Hneed. reflexivity.
      * destruct (Z.leb_spec (ptr + (n + k)) (Z.of_nat (length weights))); [f_equal; lia|lia].
      * apply numel_1 in Hbs. solve_params_with Hb.
    + split; [|split; [|split]].
      * eexists _, tail. split; [reflexivity|].
        repeat split; try assumption. eexists. split; [reflexivity|assumption].
      * rewrite Hneed. reflexivity.
      * destruct (Z.leb_spec (ptr + (n + k)) (Z.of_nat (length weights))); [lia|reflexivity].
      * apply numel_1 in Hbs. solve_params_with Hb.
    + split; [|split; [|split]].
      * exists conv, tail. repeat split; try assumption. eexists. split; [eassumption|assumption].
      * rewrite Hneed. reflexivity.
      * destruct (Z.leb_spec (ptr + (n + k)) (Z.of_nat (length weights))); [lia|reflexivity].
      * trivial.
Qed.

Lemma build_convolutional_wf ic blk m oc :
  @build_convolutional F ic blk = Ok (m, oc) ->
  conv_wf (dict_has blk "batch_normalize") m.
Proof.
  unfold build_convolutional. intros H. repeat inv_bind H.
  injection H as <- _.
  match goal with
  | E : Conv2d_init _ _ _ _ _ _ = Ok ?c |- _ =>
      unfold Conv2d_init in E;
      destruct (_ || _) eqn:Hneg in E; [discriminate|];
      injection E as <-
  end.
  apply orb_false_iff in Hneg as [Hneg Hk]. apply orb_false_iff in Hneg as [Hi Ho].
  eexists _, _. split; [reflexivity|]. cbn.
  repeat (split; [lia || reflexivity|]).
  destruct (dict_has blk "batch_normalize"); simpl.
  - match goal with
    | E : bind (BatchNorm2d_init _) _ = Ok _ |- _ =>
        unfold BatchNorm2d_init in E; destruct (_ <? 0) in E; [discriminate|];
        simpl in E; injection E as <-
    end.
    eexists _, _. repeat split; reflexivity.
  - eexists. split; reflexivity.
Qed.

Lemma build_convolutional_of_block ic blk m oc :
  @build_convolutional F ic blk = Ok (m, oc) ->
  exists conv tail,
    m = LConv2d conv :: tail
    /\ int_of blk "filters" = Ok (conv_out_channels conv)
    /\ int_of blk "size" = Ok (conv_kernel_size conv)
    /\ conv_in_channels conv = ic
    /\ fresh_module m.
Proof.
  unfold build_convolutional. intros H.
  destruct (int_of blk "filters") as [filters|]; [|discriminate]. cbn [bind] in H.
  destruct (int_of blk "size") as [size|]; [|discriminate]. cbn [bind] in H.
  repeat inv_bind H. injection H as <- _.
  match goal with
  | E : Conv2d_init _ _ _ _ _ _ = Ok ?c |- _ =>
      unfold Conv2d_init in E;
      destruct (_ || _) in E; [discriminate|];
      injection E as <-
  end.
  eexists _, _. split; [reflexivity|]. cbn. repeat (split; [reflexivity|]).
  unfold fresh_module. cbn.
  destruct (dict_has blk "batch_normalize"); simpl in *.
  - match goal with
    | E : bind (BatchNorm2d_init _) _ = Ok _ |- _ =>
        unfold BatchNorm2d_init in E; destruct (_ <? 0) in E; [discriminate|];
        simpl in E; injection E as <-
    end.
    destruct (String.eqb _ "leaky"); repeat constructor.
  - match goal with E : Ok _ = Ok _ |- _ => injection E as <- end.
    destruct (String.eqb _ "leaky"); repeat constructor.
Qed.

Lemma build_route_module i ocs blk m oc :
  @build_route F i ocs blk = Ok (m, oc) -> exists idxs, m = [LRouteLayer idxs].
Proof.
  unfold build_route. intros H. repeat inv_bind H.
  destruct (1 <? length _)%nat; repeat inv_bind H; injection H as <- _; eauto.
Qed.

(** The module the builder makes for one block: its shapes, its link to the
    block, and its untouched parameters. *)
Lemma create_module_wf net_info i blk (st st' : build_state F) :
  create_module net_info i blk st = Ok st' ->
  exists m, module_list st' = module_list st ++ [m]
            /\ module_wf blk m /\ conv_of_block blk m /\ fresh_module m.
Proof.
  unfold create_module. intros H. inv_bind H. apply dict_getitem_Ok in E.
  inv_bind H. destruct v0 as [m oc]. injection H as <-. simpl.
  exists m. split; [reflexivity|].
  destruct (String.eqb_spec v "convolutional") as [->|Hne].
  - pose proof (build_convolutional_wf _ _ _ _ E0) as Hwf.
    destruct (build_convolutional_of_block _ _ _ _ E0) as (c & tl & -> & Hf & Hs & _ & Hfr).
    repeat split; [exists "convolutional"; auto| |assumption].
    intros _. eauto.
  - assert (Hfr : fresh_module m).
    { destruct (String.eqb v "shortcut"); [repeat inv_bind E0; injection E0 as <- _; constructor|].
      destruct (String.eqb v "upsample"); [repeat inv_bind E0; injection E0 as <- _; constructor|].
      destruct (String.eqb v "route");
        [apply build_route_module in E0 as [idxs ->]; constructor|].
      destruct (String.eqb v "yolo").
      - inv_bind E0. injection E0 as <- _. unfold build_yolo in E1.
        repeat inv_bind E1. injection E1 as <-. constructor.
      - injection E0 as <- _. constructor. }
    repeat split; [|intros Ht; congruence|assumption].
    exists v. split; [assumption|]. intros ->. contradiction.
Qed.

Lemma create_modules_loop_wf net_info l : forall i (st st' : build_state F),
  create_modules_loop net_info i l st = Ok st' ->
  exists ms, module_list st' = module_list st ++ ms
             /\ Forall2 module_wf l ms /\ Forall2 conv_of_block l ms
             /\ Forall fresh_module ms.
Proof.
  induction l as [|b l IH]; intros i st st' H; simpl in H.
  - injection H as <-. exists []. rewrite app_nil_r. repeat split; constructor.
  - inv_bind H. apply create_module_wf in E as (m & Em & Hm & Hc & Hf).
    apply IH in H as (ms & Ems & Hms & Hcs & Hfs). exists (m :: ms).
    rewrite Ems, Em, <- app_assoc. repeat split; try reflexivity; now constructor.
Qed.

Lemma create_modules_state_wf blocks (st : build_state F) :
  create_modules_state blocks = Ok st ->
  Forall2 module_wf (drop 1 blocks) (module_list st)
  /\ Forall2 conv_of_block (drop 1 blocks) (module_list st)
  /\ Forall fresh_module (module_list st).
Proof.
  unfold create_modules_state. intros H. inv_bind H.
  apply create_modules_loop_wf in H as (ms & -> & Hms). exact Hms.
Qed.

Lemma module_floats_nonneg blk m : module_wf blk m -> 0 <= @module_floats F blk m.
Proof.
  intros (t & Ht & Hwf). unfold module_floats. rewrite Ht.
  destruct m as [|[conv| | | | | |] tail]; try lia.
  destruct (String.eqb_spec t "convolutional") as [->|]; [|lia].
  destruct (Hwf eq_refl) as (c & tl & [= <- <-] & Ho & Hi & Hk & _).
  unfold conv_floats. destruct (dict_has blk "batch_normalize"); nia.
Qed.

Lemma py_getitem_succ (blocks : list block) (j : nat) blk :
  drop 1 blocks !! j = Some blk -> py_getitem blocks (Z.of_nat j + 1) = Ok blk.
Proof.
  intros H. rewrite lookup_drop in H. apply py_getitem_nonneg; [lia|].
  now replace (Z.to_nat (Z.of_nat j + 1)) with (1 + j)%nat by lia.
Qed.

Lemma load_module_spec weights blocks j (ml : list (Sequential F)) ptr blk m :
  drop 1 blocks !! j = Some blk -> ml !! j = Some m -> module_wf blk m ->
  0 <= ptr <= Z.of_nat (length weights) ->
  exists m',
    (load_module weights blocks j ml ptr).1 = <[j := m']> ml
    /\ module_wf blk m'
    /\ module_floats blk m' = module_floats blk m
    /\ (load_module weights blocks j ml ptr).2
       = (if ptr + module_floats blk m <=? Z.of_nat (length weights)
          then Ok (ptr + module_floats blk m) else Raise RuntimeError)
    /\ (Forall (untouched_or_full weights) (module_params m) ->
        Forall (untouched_or_full weights) (module_params m')).
Proof.
  intros Hb Hm (t & Ht & Hwf) Hp. unfold load_module.
  rewrite Hm, (py_getitem_succ _ _ _ Hb). unfold dict_getitem. rewrite Ht.
  destruct (String.eqb_spec t "convolutional") as [->|Hne].
  - destruct (load_convolutional_summary weights ptr blk m Ht (Hwf eq_refl) Hp)
      as (m' & E1 & _ & Hwf' & Hfl & E2 & Hs).
    destruct (load_convolutional weights ptr blk m) as [m1 r]. simpl in *. subst m1.
    exists m'. repeat split; try assumption.
    exists "convolutional". auto.
  - exists m. simpl. rewrite list_insert_id by assumption.
    assert (Hz : module_floats blk m = 0).
    { unfold module_floats. rewrite Ht.
      destruct m as [|[] ?]; try reflexivity.
      destruct (String.eqb_spec t "convolutional"); [contradiction|reflexivity]. }
    rewrite Hz, Z.add_0_r.
    destruct (Z.leb_spec ptr (Z.of_nat (length weights))); [|lia].
    repeat split; try reflexivity; [|trivial].
    exists t. split; [assumption|]. intros ->. contradiction.
Qed.

Lemma zip_with_insert_floats (bs : list block) (ml : list (Sequential F)) j blk m m' :
  bs !! j = Some blk -> ml !! j = Some m ->
  module_floats blk m' = module_floats blk m ->
  zip_with module_floats bs (<[j := m']> ml) = zip_with module_floats bs ml.
Proof.
  revert ml j. induction bs as [|b bs IH]; intros [|m0 ml] [|j] Hb Hm Hf;
    simpl in *; try reflexivity; try discriminate.
  - injection Hb as ->. injection Hm as ->. now rewrite Hf.
  - f_equal. now apply IH.
Qed.

Lemma floats_from_step blocks (ml : list (Sequential F)) j blk m :
  drop 1 blocks !! j = Some blk -> ml !! j = Some m ->
  floats_from blocks ml j = module_floats blk m + floats_from blocks ml (S j).
Proof.
  intros Hb Hm. unfold floats_from.
  erewrite drop_S; [reflexivity|].
  rewrite lookup_zip_with, Hb. simpl. now rewrite Hm.
Qed.

Lemma floats_from_nonneg blocks (ml : list (Sequential F)) j :
  Forall2 module_wf (drop 1 blocks) ml -> 0 <= floats_from blocks ml j.
Proof.
  intros Hwf. unfold floats_from.
  assert (Hall : Forall (fun z => 0 <= z) (zip_with module_floats (drop 1 blocks) ml)).
  { induction Hwf; simpl; constructor; [now apply module_floats_nonneg|assumption]. }
  apply (Forall_drop _ j) in Hall. induction Hall; simpl; lia.
Qed.

(** The loop of [load_weights] from position [j] on: it succeeds exactly
    when the blob holds the floats the remaining modules take, and then
    ends with the pointer advanced by that many. *)
Lemma load_weights_loop_spec weights blocks : forall n j (ml : list (Sequential F)) ptr,
  Forall2 module_wf (drop 1 blocks) ml -> (j + n = length ml)%nat ->
  0 <= ptr <= Z.of_nat (length weights) ->
  Forall (fun m => Forall (untouched_or_full weights) (module_params m)) ml ->
  exists ml',
    (load_weights_loop weights blocks (seq j n) ml ptr).1 = ml'
    /\ Forall2 module_wf (drop 1 blocks) ml'
    /\ Forall (fun m => Forall (untouched_or_full weights) (module_params m)) ml'
    /\ (load_weights_loop weights blocks (seq j n) ml ptr).2
       = (if ptr + floats_from blocks ml j <=? Z.of_nat (length weights)
          then Ok (ptr + floats_from blocks ml j) else Raise RuntimeError).
Proof.
  induction n as [|n IH]; intros j ml ptr Hwf Hlen Hp Hs.
  - exists ml. simpl. repeat split; try assumption.
    unfold floats_from. rewrite drop_ge; [|rewrite length_zip_with; lia].
    simpl. rewrite Z.add_0_r.
    now destruct (Z.leb_spec ptr (Z.of_nat (length weights))); [|lia].
  - assert (Hj : (j < length ml)%nat) by lia.
    destruct (lookup_lt_is_Some_2 ml j Hj) as [m Hm].
    pose proof (Forall2_length _ _ _ Hwf) as Hl2.
    destruct (lookup_lt_is_Some_2 (drop 1 blocks) j) as [blk Hb]; [lia|].
    pose proof (Forall2_lookup_lr _ _ _ _ _ _ Hwf Hb Hm) as Hwfm.
    destruct (load_module_spec weights blocks j ml ptr blk m Hb Hm Hwfm Hp)
      as (m' & E1 & Hwf' & Hfl & E2 & Hs').
    rewrite (floats_from_step blocks ml j blk m Hb Hm).
    pose proof (module_floats_nonneg blk m Hwfm) as Hnn.
    pose proof (floats_from_nonneg blocks ml (S j) Hwf) as Hnn'.
    assert (Hwf1 : Forall2 module_wf (drop 1 blocks) (<[j := m']> ml)).
    { rewrite <- (list_insert_id (drop 1 blocks) j blk Hb). now apply Forall2_insert. }
    assert (Hs1 : Forall (fun m => Forall (untouched_or_full weights) (module_params m))
                    (<[j := m']> ml)).
    { apply Forall_insert; [assumption|]. apply Hs'.
      rewrite Forall_lookup in Hs. eapply Hs. eassumption. }
    cbn [seq load_weights_loop].
    destruct (load_module weights blocks j ml ptr) as [ml1 r]. simpl in E1, E2. subst ml1 r.
    destruct (Z.leb_spec (ptr + module_floats blk m) (Z.of_nat (length weights))) as [Hle|Hgt].
    + destruct (IH (S j) (<[j := m']> ml) (ptr + module_floats blk m) Hwf1)
        as (ml' & E1' & Hwf2 & Hs2 & E2'); [rewrite length_insert; lia|lia|assumption|].
      exists ml'. repeat split; try assumption.
      rewrite E2'. unfold floats_from.
      rewrite (zip_with_insert_floats _ _ _ _ _ _ Hb Hm Hfl).
      now rewrite Z.add_assoc.
    + exists (<[j := m']> ml). repeat split; try assumption. simpl.
      destruct (Z.leb_spec (ptr + (module_floats blk m + floats_from blocks ml (S j)))
                  (Z.of_nat (length weights))); [lia|reflexivity].
Qed.

Lemma Darknet_init_inv content (net : Darknet F) :
  Darknet_init content = Ok net ->
  parse_cfg content = Ok (blocks net)
  /\ exists st, create_modules_state (blocks net) = Ok st
                /\ modules net = module_list st.
Proof.
  unfold Darknet_init. intros H. inv_bind H. inv_bind H.
  destruct v0 as [ni ml]. injection H as <-. simpl. split; [assumption|].
  rewrite create_modules_of_state in E0. inv_bind E0. inv_bind E0.
  injection E0 as _ <-. eauto.
Qed.

Lemma holds_copy weights p off n :
  numel p = n -> 0 <= off -> 0 <= n -> off + n <= Z.of_nat (length weights) ->
  holds weights (copy_ p (np_slice weights off n)) off n.
Proof.
  intros Hn Hoff Hn0 Hle. unfold holds. repeat split; [|exact Hn].
  now apply np_slice_full.
Qed.

Lemma sum_app (l1 l2 : list Z) :
  fold_right Z.add 0 (l1 ++ l2) = fold_right Z.add 0 l1 + fold_right Z.add 0 l2.
Proof. induction l1 as [|z l1 IH]; cbn [app fold_right]; lia. Qed.

Lemma floats_before_from blocks (ml : list (Sequential F)) j :
  floats_before blocks ml j + floats_from blocks ml j = floats_required blocks ml.
Proof.
  unfold floats_before, floats_from, floats_required, floats_from.
  rewrite <- sum_app, take_drop, drop_0. reflexivity.
Qed.

Lemma floats_before_step blocks (ml : list (Sequential F)) j blk m :
  drop 1 blocks !! j = Some blk -> ml !! j = Some m ->
  floats_before blocks ml (S j) = floats_before blocks ml j + module_floats blk m.
Proof.
  intros Hb Hm.
  pose proof (floats_before_from blocks ml j) as H1.
  pose proof (floats_before_from blocks ml (S j)) as H2.
  pose proof (floats_from_step blocks ml j blk m Hb Hm) as H3. lia.
Qed.

Lemma floats_before_all blocks (ml : list (Sequential F)) j :
  (length ml <= j)%nat -> floats_before blocks ml j = floats_required blocks ml.
Proof.
  intros Hj. pose proof (floats_before_from blocks ml j) as H1.
  unfold floats_from in H1 at 1.
  rewrite drop_ge in H1 by (rewrite length_zip_with; lia).
  cbn [fold_right] in H1. lia.
Qed.

Lemma module_floats_other blk t m :
  blk !! "type" = Some t -> t <> "convolutional" -> @module_floats F blk m = 0.
Proof.
  intros Ht Hne. unfold module_floats. rewrite Ht.
  destruct m as [|[] ?]; try reflexivity.
  destruct (String.eqb_spec t "convolutional"); [contradiction|reflexivity].
Qed.

(** One run of the loop body on a module that is still as built, with
    the floats it takes at hand: where each slice goes. *)
Lemma load_module_layout weights blocks i (ml : list (Sequential F)) ptr blk m :
  drop 1 blocks !! i = Some blk -> ml !! i = Some m ->
  module_wf blk m -> conv_of_block blk m ->
  0 <= ptr -> ptr + module_floats blk m <= Z.of_nat (length weights) ->
  exists m',
    load_module weights blocks i ml ptr
    = (<[i := m']> ml, Ok (ptr + module_floats blk m))
    /\ module_loaded weights blk ptr m m'.
Proof.
  intros Hb Hmi (t & Ht & Hconv) Hof Hp0 Hp1. unfold load_module, module_loaded.
  rewrite Hmi, (py_getitem_succ _ _ _ Hb). unfold dict_getitem. rewrite Ht.
  destruct (String.eqb_spec t "convolutional") as [->|Hne].
  - destruct (Hconv eq_refl) as (conv & tail & -> & Ho & Hi & Hk & Hws & Hrest).
    destruct (Hof Ht) as (c0 & t0 & [= <- <-] & Hfilters & _).
    pose proof (numel_4 _ _ _ _ _ Hws) as Hnum.
    assert (Hfl : module_floats blk (LConv2d conv :: tail)
                  = conv_floats (dict_has blk "batch_normalize") conv).
    { unfold module_floats. rewrite Ht. reflexivity. }
    unfold conv_floats in Hfl.
    set (n := conv_out_channels conv) in *.
    set (k := n * conv_in_channels conv * conv_kernel_size conv
              * conv_kernel_size conv) in *.
    assert (Hk0 : 0 <= k) by (subst k; nia).
    destruct (dict_has blk "batch_normalize") eqn:Hbn.
    + destruct Hrest as (bn & tail' & -> & Hbw & Hbb & Hbm & Hbv).
      assert (Hp : 0 <= ptr <= Z.of_nat (length weights)) by lia.
      rewrite (load_convolutional_bn weights ptr blk conv bn tail' n k)
        by assumption.
      destruct (Z.leb_spec (ptr + 4 * n) (Z.of_nat (length weights))); [|lia].
      destruct (Z.leb_spec (ptr + 4 * n + k) (Z.of_nat (length weights))); [|lia].
      rewrite Hfl, Z.add_assoc. eexists. split; [reflexivity|].
      split; [intros _|intros Hnot; congruence].
      apply numel_1 in Hbw, Hbb, Hbm, Hbv.
      exists conv, (LBatchNorm2d bn :: tail'), (kernel_loaded weights (ptr + 4 * n) conv).
      repeat (split; [reflexivity || assumption|]).
      fold n. fold k. cbv zeta. rewrite Hbn.
      exists bn, tail', (bn_loaded weights ptr n bn).
      repeat (split; [reflexivity|]).
      unfold bn_loaded, kernel_loaded; cbn [bn_bias bn_weight bn_running_mean
        bn_running_var conv_weight set_conv_weight].
      replace (ptr + n + n + n) with (ptr + 3 * n) by lia.
      replace (ptr + n + n) with (ptr + 2 * n) by lia. rewrite Hnum.
      repeat match goal with |- _ /\ _ => split end;
        try exact Hfl; apply holds_copy; (assumption || lia).
    + destruct Hrest as (b & Hb' & Hbs).
      assert (Hp : 0 <= ptr <= Z.of_nat (length weights)) by lia.
      rewrite (load_convolutional_bias weights ptr blk conv b tail n k)
        by assumption.
      destruct (Z.leb_spec (ptr + n) (Z.of_nat (length weights))); [|lia].
      destruct (Z.leb_spec (ptr + n + k) (Z.of_nat (length weights))); [|lia].
      rewrite Hfl, Z.add_assoc. eexists. split; [reflexivity|].
      split; [intros _|intros Hnot; congruence].
      apply numel_1 in Hbs.
      exists conv, tail,
        (kernel_loaded weights (ptr + n)
           (set_conv_bias conv (copy_ b (np_slice weights ptr n)))).
      repeat (split; [reflexivity || assumption|]).
      fold n. fold k. cbv zeta. rewrite Hbn.
      exists (copy_ b (np_slice weights ptr n)). split; [reflexivity|].
      unfold kernel_loaded; cbn [conv_weight conv_bias set_conv_weight set_conv_bias].
      rewrite Hnum.
      repeat match goal with |- _ /\ _ => split end;
        try reflexivity; try exact Hfl; apply holds_copy; (assumption || lia).
  - pose proof (module_floats_other blk t m Ht Hne) as Hz.
    exists m. rewrite Hz, Z.add_0_r, (list_insert_id ml i m Hmi).
    split; [reflexivity|]. split; [intros Hyes; congruence|auto].
Qed.

(** The loop of [load_weights] from position [j] on, on a network whose
    modules from [j] on are still as built ([ml0]), with the cursor where
    the modules before [j] have left it and a blob that holds the floats
    of the whole network: the modules before [j] stay as they are, and
    each later one is loaded from the place its predecessors leave. *)
Lemma load_weights_loop_layout weights blocks (ml0 : list (Sequential F)) :
  Forall2 module_wf (drop 1 blocks) ml0 ->
  Forall2 conv_of_block (drop 1 blocks) ml0 ->
  floats_required blocks ml0 <= Z.of_nat (length weights) ->
  forall n j (ml : list (Sequential F)),
    (j + n = length ml0)%nat -> length ml = length ml0 ->
    (forall k, (j <= k)%nat -> ml !! k = ml0 !! k) ->
    exists ml',
      load_weights_loop weights blocks (seq j n) ml (floats_before blocks ml0 j)
      = (ml', Ok (floats_required blocks ml0))
      /\ length ml' = length ml0
      /\ (forall k, (k < j)%nat -> ml' !! k = ml !! k)
      /\ (forall k blk m, (j <= k)%nat ->
            drop 1 blocks !! k = Some blk -> ml0 !! k = Some m ->
            exists m', ml' !! k = Some m'
                       /\ module_loaded weights blk (floats_before blocks ml0 k) m m').
Proof.
  intros Hwf Hcb Hle. induction n as [|n IH]; intros j ml Hjn Hlen Hrest;
    cbn [seq load_weights_loop].
  - exists ml. rewrite (floats_before_all blocks ml0 j) by lia.
    split; [reflexivity|]. split; [exact Hlen|]. split; [auto|].
    intros k blk m Hk _ Hm. apply lookup_lt_Some in Hm. lia.
  - destruct (lookup_lt_is_Some_2 ml0 j) as [m Hm0]; [lia|].
    assert (Hm : ml !! j = Some m) by (rewrite Hrest by lia; exact Hm0).
    pose proof (Forall2_length _ _ _ Hwf) as Hl2.
    destruct (lookup_lt_is_Some_2 (drop 1 blocks) j) as [blk Hb]; [lia|].
    pose proof (Forall2_lookup_lr _ _ _ _ _ _ Hwf Hb Hm0) as Hwfm.
    pose proof (Forall2_lookup_lr _ _ _ _ _ _ Hcb Hb Hm0) as Hcbm.
    pose proof (floats_before_step blocks ml0 j blk m Hb Hm0) as Hstep.
    pose proof (floats_before_from blocks ml0 j) as Hsum.
    pose proof (floats_before_from blocks ml0 (S j)) as Hsum'.
    pose proof (floats_from_nonneg blocks ml0 (S j) Hwf) as Hnn.
    pose proof (floats_from_nonneg blocks ml0 j Hwf) as Hnn'.
    pose proof (module_floats_nonneg blk m Hwfm) as Hmf.
    assert (Hb0 : 0 <= floats_before blocks ml0 j).
    { clear - Hwf. unfold floats_before.
      assert (Hall : Forall (fun z => 0 <= z)
                       (zip_with module_floats (drop 1 blocks) ml0)).
      { induction Hwf; simpl; constructor; [now apply module_floats_nonneg|assumption]. }
      apply (Forall_take _ j) in Hall. induction Hall; simpl; lia. }
    destruct (load_module_layout weights blocks j ml (floats_before blocks ml0 j)
                blk m Hb Hm Hwfm Hcbm Hb0) as (m' & -> & Hloaded); [lia|].
    rewrite <- Hstep.
    destruct (IH (S j) (<[j := m']> ml)) as (ml' & -> & Hlen' & Hlow & Hhigh).
    + lia.
    + now rewrite length_insert.
    + intros k Hk. rewrite list_lookup_insert_ne by lia. apply Hrest. lia.
    + exists ml'. split; [reflexivity|]. split; [exact Hlen'|]. split.
      * intros k Hk. rewrite Hlow by lia. apply list_lookup_insert_ne. lia.
      * intros k blk' m1 Hk Hb' Hm1.
        destruct (Nat.eq_dec k j) as [->|Hne]; [|apply Hhigh; [lia|assumption..]].
        rewrite Hb in Hb'. injection Hb' as <-.
        rewrite Hm0 in Hm1. injection Hm1 as <-.
        exists m'. split; [|exact Hloaded].
        rewrite Hlow by lia. apply list_lookup_insert_eq. lia.
Qed.

End Loader.

(** C1.  In a network built from a configuration, load a blob that holds
    the floats the network takes.  The call returns the cursor at that
    number, and the network it returns has, at every position, the module
    the loop body makes of the module built there, with the cursor where
    the modules before have left it: the cursor starts at 0 and moves past
    module [i] by the floats that module takes, never back.  For a
    [convolutional] block with [n] filters the floats are taken in this
    order: with batch normalisation [n] for the normalisation bias, [n] for
    the scale, [n] for the running mean, [n] for the running variance,
    without it [n] for the bias of the convolution; then
    [out x in x k x k] for the kernel.  Each slice has as many floats as
    the parameter it is assigned to has elements, and the parameter keeps
    its shape.  A module of any other block is returned as it was and
    takes no float.  The same holds of one run of the loop body on a module
    still as built, wherever the cursor stands. *)
Theorem load_weights_layout (F : Type) (content : string) (net : Darknet F)
  (Hnet : Darknet_init content = Ok net) :
  (forall (file : weight_file F),
      floats_required (blocks net) (modules net)
      <= Z.of_nat (length (wf_weights file)) ->
      exists net',
        load_weights net file
        = (net', Ok (floats_required (blocks net) (modules net)))
        /\ length (modules net') = length (modules net)
        /\ forall (i : nat) (blk : block) (m : Sequential F),
             drop 1 (blocks net) !! i = Some blk ->
             modules net !! i = Some m ->
             exists m',
               modules net' !! i = Some m'
               /\ module_loaded (wf_weights file) blk
                    (floats_before (blocks net) (modules net) i) m m')
  /\ floats_before (blocks net) (modules net) 0 = 0
  /\ (forall (i : nat) (blk : block) (m : Sequential F),
        drop 1 (blocks net) !! i = Some blk ->
        modules net !! i = Some m ->
        floats_before (blocks net) (modules net) (S i)
        = floats_before (blocks net) (modules net) i + module_floats blk m
        /\ 0 <= module_floats blk m)
  /\ (forall (i : nat) (blk : block) (m : Sequential F) (ml ml' : list (Sequential F))
             (weights : list F) (ptr ptr' : Z),
        drop 1 (blocks net) !! i = Some blk ->
        modules net !! i = Some m -> ml !! i = Some m ->
        0 <= ptr <= Z.of_nat (length weights) ->
        load_module weights (blocks net) i ml ptr = (ml', Ok ptr') ->
        exists m',
          ml' = <[i := m']> ml
          /\ ptr' = ptr + module_floats blk m
          /\ module_loaded weights blk ptr m m').
Proof.
  destruct (Darknet_init_inv content net Hnet) as (_ & st & Hst & Hml).
  destruct (create_modules_state_wf _ _ Hst) as (Hwf & Hcb & Hfr).
  rewrite <- Hml in Hwf, Hcb, Hfr.
  split; [|split; [reflexivity|split]].
  - intros file Hle. unfold load_weights.
    destruct (load_weights_loop_layout (wf_weights file) (blocks net) (modules net)
                Hwf Hcb Hle (length (modules net)) 0 (modules net))
      as (ml' & Hloop & Hlen & _ & Hall); [reflexivity|reflexivity|auto|].
    change (floats_before (blocks net) (modules net) 0) with 0 in Hloop.
    rewrite Hloop. eexists. split; [reflexivity|]. cbn [modules].
    split; [exact Hlen|]. intros i blk m Hb Hm. apply Hall; [lia|assumption..].
  - intros i blk m Hb Hm. split.
    + exact (floats_before_step _ _ _ _ _ Hb Hm).
    + exact (module_floats_nonneg blk m (Forall2_lookup_lr _ _ _ _ _ _ Hwf Hb Hm)).
  - intros i blk m ml ml' weights ptr ptr' Hb Hm Hmi Hp Hload.
    pose proof (Forall2_lookup_lr _ _ _ _ _ _ Hwf Hb Hm) as Hwfm.
    pose proof (Forall2_lookup_lr _ _ _ _ _ _ Hcb Hb Hm) as Hcbm.
    destruct (load_module_spec weights (blocks net) i ml ptr blk m Hb Hmi Hwfm Hp)
      as (m1 & _ & _ & _ & Hres & _).
    rewrite Hload in Hres. cbn [snd] in Hres.
    destruct (Z.leb_spec (ptr + module_floats blk m) (Z.of_nat (length weights)))
      as [Hfit|]; [|discriminate].
    destruct (load_module_layout weights (blocks net) i ml ptr blk m
                Hb Hmi Hwfm Hcbm (proj1 Hp) Hfit) as (m' & Hrun & Hloaded).
    rewrite Hload in Hrun. injection Hrun as -> ->.
    exists m'. auto.
Qed.

(** The third module of the sample is the convolution without batch
    normalisation: after the 8 + 6 floats of the first module its bias is
    float 15 of the blob and its kernel floats 16 and 17. *)
Lemma load_weights_layout_witness :
  exists net',
    load_weights (net_of cfg_two_convs) (blob 20) = (net', Ok 17)
    /\ floats_before (blocks (net_of cfg_two_convs)) (modules (net_of cfg_two_convs)) 2
       = 14
    /\ exists blk m m',
         drop 1 (blocks (net_of cfg_two_convs)) !! 2%nat = Some blk
         /\ modules (net_of cfg_two_convs) !! 2%nat = Some m
         /\ modules net' !! 2%nat = Some m'
         /\ module_loaded (wf_weights (blob 20)) blk 14 m m'.
Proof.
  destruct (proj1 (load_weights_layout Z cfg_two_convs (net_of cfg_two_convs)
                     ltac:(vm_compute; reflexivity)) (blob 20))
    as (net' & Hload & _ & Hall); [vm_compute; discriminate|].
  assert (Hblk : { blk | drop 1 (blocks (net_of cfg_two_convs)) !! 2%nat = Some blk }).
  { eexists. vm_compute. reflexivity. }
  destruct Hblk as [blk Hblk].
  assert (Hm : { m | modules (net_of cfg_two_convs) !! 2%nat = Some m }).
  { eexists. vm_compute. reflexivity. }
  destruct Hm as [m Hm].
  destruct (Hall 2%nat blk m Hblk Hm) as (m' & Hm' & Hloaded).
  assert (Hoff : floats_before (blocks (net_of cfg_two_convs))
                   (modules (net_of cfg_two_convs)) 2 = 14)
    by (vm_compute; reflexivity).
  rewrite Hoff in Hloaded.
  exists net'. split; [exact Hload|]. split; [exact Hoff|].
  exists blk, m, m'. auto.
Defined.

Example load_weights_two_convs :
  (load_weights (net_of cfg_two_convs) (blob 20)).1.(modules)
  = [ [LConv2d {| conv_in_channels := 3; conv_out_channels := 2;
                  conv_kernel_size := 1; conv_stride := 1; conv_padding := 0;
                  conv_weight := {| p_shape := [2; 3; 1; 1];
                                    p_data := Some [9; 10; 11; 12; 13; 14] |};
                  conv_bias := None |};
       LBatchNorm2d {| bn_num_features := 2;
                       bn_weight := {| p_shape := [2]; p_data := Some [3; 4] |};
                       bn_bias := {| p_shape := [2]; p_data := Some [1; 2] |};
                       bn_running_mean := {| p_shape := [2]; p_data := Some [5; 6] |};
                       bn_running_var := {| p_shape := [2]; p_data := Some [7; 8] |} |};
       LLeakyReLU];
      [LUpsample 2];
      [LConv2d {| conv_in_channels := 2; conv_out_channels := 1;
                  conv_kernel_size := 1; conv_stride := 1; conv_padding := 0;
                  conv_weight := {| p_shape := [1; 2; 1; 1];
                                    p_data := Some [16; 17] |};
                  conv_bias := Some {| p_shape := [1]; p_data := Some [15] |} |}] ].
Proof. vm_compute. reflexivity. Qed.

(** C7, as stated, fails on the class of the error: a blob that ends in the
    middle of the first kernel makes [view_as] raise [RuntimeError]; the
    program has no [WeightFormatError]. *)
Lemma truncated_blob_error_class :
  (load_weights (net_of cfg_two_convs) (blob 10)).2 = Raise RuntimeError
  /\ ~ raises_class (load_weights (net_of cfg_two_convs) (blob 10)).2
         "WeightFormatError".
Proof. split; [vm_compute; reflexivity|]. vm_compute. discriminate. Qed.

(** C7, amended.  When the blob holds fewer floats than the network
    takes, [load_weights] fails, with the [RuntimeError] of the reshape of
    the first slice that comes out short.  Nothing short, zero-filled or
    foreign is ever assigned: in the network the failed call leaves behind,
    every parameter is as the constructor left it or holds as many floats
    of the blob as it has elements. *)
Theorem truncated_blob_raises (F : Type) (content : string) (net : Darknet F)
  (file : weight_file F)
  (Hnet : Darknet_init content = Ok net)
  (Hshort : Z.of_nat (length (wf_weights file))
            < floats_required (blocks net) (modules net)) :
  exists net',
    load_weights net file = (net', Raise RuntimeError)
    /\ Forall (untouched_or_full (wf_weights file)) (network_params (modules net')).
Proof.
  destruct (Darknet_init_inv content net Hnet) as (_ & st & Hst & Hml).
  destruct (create_modules_state_wf _ _ Hst) as (Hwf & _ & Hfr).
  rewrite <- Hml in Hwf, Hfr. unfold load_weights.
  destruct (load_weights_loop_spec (wf_weights file) (blocks net)
              (length (modules net)) 0 (modules net) 0 Hwf)
    as (ml' & E1 & _ & Hs & E2); [reflexivity|lia| |].
  { eapply Forall_impl; [exact Hfr|]. intros m Hm. unfold fresh_module in Hm.
    eapply Forall_impl; [exact Hm|]. intros p Hp. unfold untouched_or_full.
    now rewrite Hp. }
  destruct (load_weights_loop _ _ _ _ _) as [ml1 r]. simpl in E1, E2. subst.
  unfold floats_required in Hshort. rewrite Z.add_0_l.
  destruct (Z.leb_spec (floats_from (blocks net) (modules net) 0)
              (Z.of_nat (length (wf_weights file)))); [lia|].
  eexists. split; [reflexivity|]. simpl. unfold network_params.
  apply Forall_concat, Forall_fmap. exact Hs.
Qed.

Lemma truncated_blob_raises_witness :
  exists net',
    load_weights (net_of cfg_two_convs) (blob 10) = (net', Raise RuntimeError)
    /\ Forall (untouched_or_full (wf_weights (blob 10))) (network_params (modules net')).
Proof.
  apply (truncated_blob_raises Z cfg_two_convs (net_of cfg_two_convs) (blob 10)).
  - vm_compute. reflexivity.
  - vm_compute. reflexivity.
Defined.

(** ** Tensors: index arithmetic *)

Section TensorFacts.
Context {F : Type} `{Scalar F}.

Lemma in_bounds_cons s sh i idx :
  in_bounds (s :: sh) (i :: idx) = true <-> (i < s)%nat /\ in_bounds sh idx = true.
Proof. simpl. rewrite andb_true_iff, Nat.ltb_lt. reflexivity. Qed.

Lemma ravel_lt sh : forall idx,
  in_bounds sh idx = true -> (ravel sh idx < shape_numel sh)%nat.
Proof.
  induction sh as [|s sh IH]; intros [|i idx] Hb; try discriminate.
  - simpl. lia.
  - apply in_bounds_cons in Hb as [Hi Hb]. specialize (IH idx Hb).
    cbn [ravel shape_numel fold_right]. fold (shape_numel sh). nia.
Qed.

(** Going to the row-major position and back is the identity on the index
    vectors of the shape. *)
Lemma unravel_ravel sh : forall idx,
  in_bounds sh idx = true -> unravel sh (ravel sh idx) = idx.
Proof.
  induction sh as [|s sh IH]; intros [|i idx] Hb; try discriminate.
  - reflexivity.
  - apply in_bounds_cons in Hb as [Hi Hb].
    pose proof (ravel_lt sh idx Hb) as Hlt.
    cbn [ravel unravel]. f_equal.
    + rewrite Nat.div_add_l by lia. rewrite Nat.div_small by assumption. lia.
    + rewrite Nat.add_comm, Nat.Div0.mod_add, Nat.mod_small by assumption.
      now apply IH.
Qed.

(** Two index vectors with the same row-major position name the same
    element of a reshaped tensor. *)
Lemma reshape_at (t : tensor F) sh idx idx' :
  in_bounds (shape t) idx' = true ->
  ravel sh idx = ravel (shape t) idx' ->
  at_ (reshape t sh) idx = at_ t idx'.
Proof. intros Hb E. simpl. now rewrite E, unravel_ravel. Qed.

Lemma no_dim_below_minus_one (dims : list nat) (tail : list Z) :
  existsb (fun d => d <? -1) (map Z.of_nat dims ++ tail)
  = existsb (fun d => d <? -1) tail.
Proof.
  induction dims as [|d ds IH]; simpl; [reflexivity|].
  destruct (Z.ltb_spec (Z.of_nat d) (-1)); [lia|exact IH].
Qed.

Lemma filter_known_dims (dims : list nat) (tail : list Z) :
  filter (fun d => d <> -1) (map Z.of_nat dims ++ tail)
  = map Z.of_nat dims ++ filter (fun d => d <> -1) tail.
Proof.
  induction dims as [|d ds IH]; simpl; [reflexivity|].
  rewrite filter_cons, decide_True by lia. now rewrite IH.
Qed.

Lemma filter_inferred_dims (dims : list nat) (tail : list Z) :
  filter (fun d => d = -1) (map Z.of_nat dims ++ tail)
  = filter (fun d => d = -1) tail.
Proof.
  induction dims as [|d ds IH]; simpl; [reflexivity|].
  rewrite filter_cons, decide_False by lia. exact IH.
Qed.

Lemma to_nat_of_nat_dims (dims : list nat) : map Z.to_nat (map Z.of_nat dims) = dims.
Proof.
  induction dims as [|d ds IH]; simpl; [reflexivity|]. now rewrite Nat2Z.id, IH.
Qed.

Lemma infer_shape_exact (n : nat) (dims : list nat) :
  shape_numel dims = n -> infer_shape n (map Z.of_nat dims) = Ok dims.
Proof.
  intros Hn. unfold infer_shape.
  pose proof (no_dim_below_minus_one dims []) as Hex.
  pose proof (filter_known_dims dims []) as Hne.
  pose proof (filter_inferred_dims dims []) as Heq.
  rewrite !app_nil_r in *. rewrite Hex, Hne, Heq, to_nat_of_nat_dims. simpl.
  now rewrite Hn, Nat.eqb_refl.
Qed.

Lemma infer_shape_last (n : nat) (dims : list nat) :
  (0 < shape_numel dims)%nat -> (n mod shape_numel dims = 0)%nat ->
  infer_shape n (map Z.of_nat dims ++ [-1])
  = Ok (dims ++ [(n / shape_numel dims)%nat]).
Proof.
  intros Hpos Hmod. unfold infer_shape.
  rewrite no_dim_below_minus_one, filter_known_dims, filter_inferred_dims.
  cbn [existsb]. change (-1 <? -1) with false. cbn [orb].
  rewrite !filter_cons, !filter_nil.
  rewrite (decide_False (P := (-1)%Z <> (-1)%Z)) by (intros Hx; now apply Hx).
  rewrite (decide_True (P := (-1)%Z = (-1)%Z)) by reflexivity.
  rewrite app_nil_r, to_nat_of_nat_dims. cbn [length].
  rewrite (proj2 (Nat.ltb_lt _ _) Hpos), Hmod. simpl. f_equal.
  rewrite map_app. simpl. f_equal.
  generalize (n / shape_numel dims)%nat as k. clear. intros k.
  induction dims as [|d ds IH]; simpl; [reflexivity|].
  destruct (Z.eqb_spec (Z.of_nat d) (-1)); [lia|]. now rewrite Nat2Z.id, IH.
Qed.

End TensorFacts.

(** ** The detection layer *)

Section Detection.
Context {F : Type} `{Scalar F}.

Lemma shape_transpose_1_2 (t : tensor F) s0 s1 s2 r :
  shape t = s0 :: s1 :: s2 :: r -> shape (transpose_1_2 t) = s0 :: s2 :: s1 :: r.
Proof. unfold transpose_1_2. now intros ->. Qed.


Lemma decode_at det stride (t : tensor F) b a ch r c :
  at_ (scale_by_anchors det (add_offsets stride (apply_sigmoids t))) [b; a; ch; r; c]
  = decoded det stride a ch r c (at_ t [b; a; ch; r; c]).
Proof.
  unfold scale_by_anchors, add_offsets, apply_sigmoids, update_where, decoded.
  cbn [at_ shape channel_of anchor_of row_of col_of nth].
  destruct ch as [|[|[|[|ch]]]]; reflexivity.
Qed.

Lemma anchors_expand_some (det : DetectionLayer) (C : nat) :
  (0 < length (anchors det))%nat -> anchors_expand det (5 + C) = true.
Proof.
  unfold anchors_expand. destruct (anchors det); [cbn; lia|]. reflexivity.
Qed.


End Detection.

(** ** Concatenation and the route layer *)

Section Route.
Context {F : Type} `{Scalar F}.

Lemma not_legacy_empty (t : tensor F) s0 s1 r :
  shape t = s0 :: s1 :: r -> is_legacy_empty t = false.
Proof.
  intros E. unfold is_legacy_empty. rewrite E. apply bool_decide_eq_false. discriminate.
Qed.

Lemma cat_compatible_same s0 n1 n2 r :
  cat_compatible (s0 :: n1 :: r) (s0 :: n2 :: r) = true.
Proof.
  unfold cat_compatible. rewrite Nat.eqb_refl. simpl.
  now apply bool_decide_eq_true.
Qed.

(** Two tensors concatenated along the second dimension: the rows of the
    first come first. *)
Lemma cat1_two (t1 t2 : tensor F) s0 n1 n2 r :
  shape t1 = s0 :: n1 :: r -> shape t2 = s0 :: n2 :: r ->
  exists t,
    cat1 [t1; t2] = Ok t
    /\ shape t = s0 :: (n1 + n2)%nat :: r
    /\ forall i0 i1 ir,
         at_ t (i0 :: i1 :: ir)
         = if (i1 <? n1)%nat then at_ t1 (i0 :: i1 :: ir)
           else at_ t2 (i0 :: (i1 - n1)%nat :: ir).
Proof.
  intros E1 E2. unfold cat1.
  rewrite !filter_cons, filter_nil.
  rewrite (decide_True (P := is_legacy_empty t1 = false))
    by (eapply not_legacy_empty; eassumption).
  rewrite (decide_True (P := is_legacy_empty t2 = false))
    by (eapply not_legacy_empty; eassumption).
  rewrite E1. cbn [forallb]. rewrite E2, cat_compatible_same. cbn [andb].
  eexists. split; [reflexivity|]. split.
  - cbn [shape map fold_right]. unfold dim1. rewrite E2. cbn [nth].
    now rewrite Nat.add_0_r.
  - intros i0 i1 ir. cbn [at_ cat_at]. unfold dim1. rewrite E1. cbn [nth].
    reflexivity.
Qed.

(** A tensor in front of the empty tensor [torch.tensor([])]: the result has
    the shape and the elements of the tensor. *)
Lemma cat1_legacy_empty (t : tensor F) s0 s1 r :
  shape t = s0 :: s1 :: r ->
  exists t',
    cat1 [t; empty_tensor] = Ok t'
    /\ shape t' = shape t
    /\ forall idx, at_ t' idx = at_ t idx.
Proof.
  intros E. unfold cat1. rewrite !filter_cons, filter_nil.
  rewrite (decide_True (P := is_legacy_empty t = false))
    by (eapply not_legacy_empty; eassumption).
  rewrite (decide_False (P := is_legacy_empty empty_tensor = false))
    by (unfold is_legacy_empty; cbn [shape empty_tensor];
        rewrite bool_decide_eq_true_2 by reflexivity; discriminate).
  rewrite E. cbn [forallb].
  eexists. split; [reflexivity|]. split.
  - cbn [shape map fold_right]. now rewrite Nat.add_0_r.
  - intros [|i0 [|i1 ir]]; reflexivity.
Qed.

End Route.

(** The builder's state before and after block [i], inside a whole build. *)
Lemma create_modules_state_step {F} (blocks : list block) (i : nat) (blk : block)
  (st : build_state F) :
  create_modules_state blocks = Ok st ->
  drop 1 blocks !! i = Some blk ->
  exists net_info st_i st_i',
    create_modules_state (take (S i) blocks) = Ok st_i
    /\ create_module net_info (Z.of_nat i) blk st_i = Ok st_i'
    /\ length (out_channels st_i) = i /\ length (module_list st_i) = i
    /\ out_channels st_i' `prefix_of` out_channels st
    /\ module_list st_i' `prefix_of` module_list st.
Proof.
  intros Hst Hblk.
  destruct (create_modules_state_at (F:=F) blocks i blk Hblk) as (ni & _ & Hstep & Hall).
  rewrite Hall in Hst. inv_bind Hst. rewrite E in Hall. rewrite Hstep in E.
  inv_bind E. rename v0 into st_i, v into st_i'.
  destruct (create_modules_state_prefix_length blocks i st_i) as [Hlen Hlenm];
    [apply lookup_lt_Some in Hblk; lia | assumption |].
  exists ni, st_i, st_i'. repeat split; try assumption.
  - now apply create_modules_loop_length in Hst as (_ & _ & Hp).
  - apply create_modules_loop_wf in Hst as (ms & -> & _). now apply prefix_app_r.
Qed.

Lemma prefix_snoc_lookup {A} (l l' : list A) (a : A) :
  (l ++ [a]) `prefix_of` l' -> take (length l) l' = l /\ l' !! length l = Some a.
Proof.
  intros [k ->]. rewrite <- app_assoc. split.
  - now rewrite take_app_length.
  - now apply list_lookup_middle.
Qed.

(** C3.  In a build that succeeds, a [route] block at position [i] with
    one index records the output channel count recorded for the layer the
    index refers to (a negative index first has [i] added; the records
    are the [i] made so far).  With two indices it records the sum of the
    two counts, and its layer returns the two referenced outputs
    concatenated along the channel axis, the first listed first. *)
Theorem route_channels_and_concatenation (F : Type) `{Scalar F}
  (blocks : list block) (st : build_state F) (i : nat) (blk : block)
  (layers : string) (idxs : list Z)
  (Hbuild : create_modules_state blocks = Ok st)
  (Hblk : drop 1 blocks !! i = Some blk)
  (Htype : blk !! "type" = Some "route")
  (Hlayers : blk !! "layers" = Some layers)
  (Hidxs : mapM py_int (take 2 (split "," layers)) = Ok idxs) :
  let earlier := take i (out_channels st) in
  match idxs with
  | [a] =>
      exists c,
        py_getitem earlier (resolve (Z.of_nat i) a) = Ok c
        /\ out_channels st !! i = Some c
        /\ module_list st !! i = Some [LRouteLayer [resolve (Z.of_nat i) a]]
  | [a; b] =>
      let ra := resolve (Z.of_nat i) a in
      let rb := resolve (Z.of_nat i) b in
      exists c1 c2,
        py_getitem earlier ra = Ok c1
        /\ py_getitem earlier rb = Ok c2
        /\ out_channels st !! i = Some (c1 + c2)
        /\ module_list st !! i = Some [LRouteLayer [ra; rb]]
        /\ forall (outputs : list (tensor F)) (t1 t2 : tensor F) s0 n1 n2 r,
             py_getitem outputs ra = Ok t1 -> py_getitem outputs rb = Ok t2 ->
             shape t1 = s0 :: n1 :: r -> shape t2 = s0 :: n2 :: r ->
             exists t,
               RouteLayer_forward [ra; rb] outputs = Ok t
               /\ shape t = s0 :: (n1 + n2)%nat :: r
               /\ forall i0 i1 ir,
                    at_ t (i0 :: i1 :: ir)
                    = if (i1 <? n1)%nat then at_ t1 (i0 :: i1 :: ir)
                      else at_ t2 (i0 :: (i1 - n1)%nat :: ir)
  | _ => False
  end.
Proof.
  intros earlier.
  destruct (create_modules_state_step blocks i blk st Hbuild Hblk)
    as (ni & st_i & st_i' & _ & Hstep & Hlen & Hlenm & Hpo & Hpm).
  rewrite create_module_route in Hstep by assumption.
  inv_bind Hstep. injection Hstep as <-. destruct v as [m oc]. simpl in Hpo, Hpm.
  apply prefix_snoc_lookup in Hpo as [Htake Hoc].
  apply prefix_snoc_lookup in Hpm as [_ Hm].
  rewrite Hlen in Htake, Hoc. rewrite Hlenm in Hm.
  subst earlier. rewrite Htake.
  pose proof (build_route_spec (F:=F) (Z.of_nat i) (out_channels st_i) blk layers idxs
                Hlayers Hidxs) as Hspec.
  destruct idxs as [|a [|b [|c t]]]; try contradiction; rewrite Hspec in E.
  - inv_bind E. injection E as <- <-. eauto.
  - inv_bind E. inv_bind E. injection E as <- <-.
    eexists _, _. repeat (split; [eassumption|]).
    intros outs t1 t2 s0 n1 n2 r H1 H2 Hs1 Hs2.
    unfold RouteLayer_forward. cbn [mapM]. rewrite H1, H2. cbn [bind].
    eapply cat1_two; eassumption.
Qed.

Lemma route_channels_and_concatenation_witness :
  exists c1 c2 : Z,
    py_getitem [16; 32] 1 = Ok c1 /\ py_getitem [16; 32] 0 = Ok c2
    /\ exists st : build_state term,
         create_modules_state (blocks_of cfg_route_two) = Ok st
         /\ out_channels st !! 2%nat = Some (c1 + c2)
         /\ module_list st !! 2%nat = Some [LRouteLayer [1; 0]].
Proof.
  assert (Hst : { st : build_state term
                | create_modules_state (blocks_of cfg_route_two) = Ok st }).
  { eexists. vm_compute. reflexivity. }
  destruct Hst as [st Hst].
  assert (Hblk : { blk | drop 1 (blocks_of cfg_route_two) !! 2%nat = Some blk
                         /\ blk !! "type" = Some "route"
                         /\ blk !! "layers" = Some "-1, 0" }).
  { eexists. vm_compute. repeat split. }
  destruct Hblk as (blk & Hblk & Htype & Hlayers).
  pose proof (route_channels_and_concatenation term (blocks_of cfg_route_two) st 2 blk
                "-1, 0" [-1; 0] Hst Hblk Htype Hlayers eq_refl) as Hthm.
  cbv zeta in Hthm. destruct Hthm as (c1 & c2 & H1 & H2 & Hoc & Hm & _).
  assert (Hoc' : out_channels st = [16; 32; 48]).
  { vm_compute in Hst. now injection Hst as <-. }
  rewrite Hoc' in H1, H2. exists c1, c2.
  split; [exact H1|]. split; [exact H2|]. exists st. auto.
Defined.



(** ** The forward pass *)

Section ForwardFacts.
Context {F : Type} `{Kernels F}.

Lemma forward_loop_app blocks l1 : forall l2 i (st : fstate F),
  forward_loop blocks i (l1 ++ l2) st
  = (st1 <- forward_loop blocks i l1 st ;;
     forward_loop blocks (i + length l1) l2 st1).
Proof.
  induction l1 as [|m l1 IH]; intros l2 i st; simpl.
  - now rewrite Nat.add_0_r.
  - destruct (forward_layer blocks i m st) as [st'|e]; simpl; [|reflexivity].
    rewrite IH. now replace (S i + length l1)%nat with (i + S (length l1))%nat by lia.
Qed.

(** The state after [n+1] layers is the state after [n] layers, then
    layer [n]. *)
Lemma state_after_S (net : Darknet F) input n m :
  modules net !! n = Some m ->
  state_after net input (S n)
  = (s <- state_after net input n ;; forward_layer (drop 1 (blocks net)) n m s).
Proof.
  intros Hm. unfold state_after.
  rewrite (take_S_r _ _ _ Hm), forward_loop_app.
  destruct (forward_loop _ 0 (take n (modules net)) _) as [s|e]; simpl; [|reflexivity].
  rewrite length_take_le by (apply lookup_lt_Some in Hm; lia).
  now destruct (forward_layer _ n m s).
Qed.

Lemma state_after_all (net : Darknet F) input d :
  Darknet_forward net input = Ok d ->
  exists s, state_after net input (length (modules net)) = Ok s /\ detection s = d.
Proof.
  unfold Darknet_forward, state_after. rewrite firstn_all. intros Hd.
  inv_bind Hd. injection Hd as <-. eauto.
Qed.

(** A forward pass that returns has passed through every prefix. *)
Lemma state_after_prefix (net : Darknet F) input d n :
  Darknet_forward net input = Ok d -> (n <= length (modules net))%nat ->
  exists s, state_after net input n = Ok s.
Proof.
  intros Hd Hn. apply state_after_all in Hd as (s & Hs & _).
  unfold state_after in *. rewrite firstn_all in Hs.
  rewrite <- (take_drop n (modules net)), forward_loop_app in Hs.
  inv_bind Hs. eauto.
Qed.

Lemma forward_layer_inv blocks i m (s s' : fstate F) :
  forward_layer blocks i m s = Ok s' ->
  exists blk t s1,
    py_getitem blocks (Z.of_nat i) = Ok blk /\ blk !! "type" = Some t
    /\ s' = append_x s1
    /\ (if String.eqb t "convolutional" || String.eqb t "upsample"
        then forward_plain m s
        else if String.eqb t "shortcut" then forward_shortcut m s
        else if String.eqb t "route" then forward_route m s
        else if String.eqb t "yolo" then forward_yolo m s
        else Ok s) = Ok s1.
Proof.
  unfold forward_layer. intros Hl. inv_bind Hl. inv_bind Hl.
  apply dict_getitem_Ok in E0. inv_bind Hl. injection Hl as <-.
  eexists _, _, _. repeat split; eassumption.
Qed.

Lemma py_getitem_lookup {A} (l : list A) (i : nat) (a b : A) :
  l !! i = Some a -> py_getitem l (Z.of_nat i) = Ok b -> a = b.
Proof.
  intros Hl Hp. rewrite (py_getitem_nonneg l (Z.of_nat i) a) in Hp; [|lia|].
  - now injection Hp.
  - now rewrite Nat2Z.id.
Qed.

Lemma read_bind_x_new (s : fstate F) (v : tensor F) :
  read (bind_x_new s v) (x (bind_x_new s v)) = v.
Proof.
  unfold read, bind_x_new. cbn [store x].
  now rewrite list_lookup_middle.
Qed.

(** What one layer does to [detection]. *)
Lemma forward_layer_detection blocks i m blk (s s' : fstate F) :
  forward_layer blocks i m s = Ok s' -> blocks !! i = Some blk ->
  (blk !! "type" = Some "yolo" ->
     exists det x_after out,
       m = [LDetectionLayer det]
       /\ DetectionLayer_forward det (read s (x s)) = Ok (x_after, out)
       /\ read s' (x s') = out
       /\ cat1 [out; detection s] = Ok (detection s'))
  /\ (blk !! "type" <> Some "yolo" -> detection s' = detection s).
Proof.
  intros Hl Hb. apply forward_layer_inv in Hl as (blk' & t & s1 & Hg & Ht & -> & Hbr).
  apply (py_getitem_lookup _ _ _ _ Hb) in Hg as <-. rewrite Ht. split.
  - intros [= ->]. cbn in Hbr. unfold forward_yolo in Hbr.
    destruct m as [|[| | | | | |det] [|]]; try discriminate.
    inv_bind Hbr. destruct v as [xa out]. inv_bind Hbr. injection Hbr as <-.
    exists det, xa, out. repeat split; try assumption.
    apply (read_bind_x_new (write s (x s) xa) out).
  - intros Hne. cbn [append_x detection].
    destruct (String.eqb t "convolutional" || String.eqb t "upsample").
    { unfold forward_plain in Hbr. inv_bind Hbr. now injection Hbr as <-. }
    destruct (String.eqb t "shortcut").
    { unfold forward_shortcut in Hbr.
      destruct m as [|[| | |idx| | |] [|]]; try discriminate.
      repeat inv_bind Hbr. now injection Hbr as <-. }
    destruct (String.eqb t "route").
    { unfold forward_route in Hbr.
      destruct m as [|[| | | | |idxs|] [|]]; try discriminate.
      repeat inv_bind Hbr. now injection Hbr as <-. }
    destruct (String.eqb_spec t "yolo") as [->|_]; [congruence|].
    now injection Hbr as <-.
Qed.

Lemma py_getitem_nat_inv {A} (l : list A) (i : nat) (a : A) :
  py_getitem l (Z.of_nat i) = Ok a -> l !! i = Some a.
Proof.
  unfold py_getitem. destruct (Z.ltb_spec (Z.of_nat i) 0); [lia|].
  destruct (_ && _); [|discriminate]. rewrite Nat2Z.id.
  destruct (l !! i); [|discriminate]. now intros [= ->].
Qed.

Lemma forward_layer_block blocks i m (s s' : fstate F) :
  forward_layer blocks i m s = Ok s' -> exists blk, blocks !! i = Some blk.
Proof.
  intros Hl. apply forward_layer_inv in Hl as (blk & _ & _ & Hg & _).
  apply py_getitem_nat_inv in Hg. eauto.
Qed.

(** Without a [yolo] block, [detection] is still the empty tensor when [n]
    layers have run. *)
Lemma no_yolo_detection_empty (net : Darknet F) input :
  (forall blk, blk ∈ drop 1 (blocks net) -> blk !! "type" <> Some "yolo") ->
  forall n s, (n <= length (modules net))%nat ->
    state_after net input n = Ok s -> detection s = empty_tensor.
Proof.
  intros Hno. induction n as [|n IH]; intros s Hn Hs.
  - unfold state_after in Hs. rewrite take_0 in Hs. simpl in Hs.
    now injection Hs as <-.
  - destruct (lookup_lt_is_Some_2 (modules net) n) as [m Hm]; [lia|].
    rewrite (state_after_S net input n m Hm) in Hs. inv_bind Hs.
    destruct (forward_layer_block _ _ _ _ _ Hs) as [blk Hb].
    destruct (forward_layer_detection _ _ _ _ _ _ Hs Hb) as [_ Hsame].
    rewrite Hsame; [apply IH; [lia|assumption]|].
    apply Hno. eapply list_elem_of_lookup_2. eassumption.
Qed.

End ForwardFacts.

(** C5, as stated, fails on the order.  Two [yolo] layers, the second fed
    through a [route]: the row of the tensor returned that comes first is
    the row the second-built layer decoded, the row of the first-built
    layer comes after it. *)
Lemma forward_puts_last_yolo_first :
  match Darknet_forward (net_of_terms cfg_two_yolo) (raw_input [1; 5; 1; 1]%nat),
        state_after (net_of_terms cfg_two_yolo) (raw_input [1; 5; 1; 1]%nat) 2,
        state_after (net_of_terms cfg_two_yolo) (raw_input [1; 5; 1; 1]%nat) 4
  with
  | Ok d, Ok s2, Ok s4 =>
      let first_built := read s2 (x s2) in
      let second_built := read s4 (x s4) in
      shape d = [1; 2; 5]%nat
      /\ to_list first_built
         = [Mul (Add (Sigmoid (Raw 0)) (Int 0)) (Int 4);
            Mul (Add (Sigmoid (Raw 1)) (Int 0)) (Int 4);
            Mul (Exp (Raw 2)) (Int 10); Mul (Exp (Raw 3)) (Int 13);
            Sigmoid (Raw 4)]
      /\ to_list d = to_list second_built ++ to_list first_built
      /\ at_ d [0; 0; 4]%nat = at_ second_built [0; 0; 4]%nat
      /\ at_ d [0; 0; 4]%nat <> at_ first_built [0; 0; 4]%nat
  | _, _, _ => False
  end.
Proof. vm_compute. repeat split. discriminate. Qed.


(** C5, amended.  When the forward pass returns [d]: [d] is the value of
    [detection] after the last layer; a [yolo] layer replaces [detection]
    by its own decoded output followed, along the detection axis, by what
    [detection] held (nothing, for the first of them), so the layer built
    last comes first; any other layer leaves [detection] alone; and a network without [yolo] layer returns the
    empty tensor. *)
Theorem forward_prepends_yolo_outputs (F : Type) `{Kernels F}
  (net : Darknet F) (input d : tensor F)
  (Hfwd : Darknet_forward net input = Ok d) :
  (exists s_end,
      state_after net input (length (modules net)) = Ok s_end
      /\ detection s_end = d)
  /\ (forall i m, modules net !! i = Some m ->
        exists blk s s',
          drop 1 (blocks net) !! i = Some blk
          /\ state_after net input i = Ok s
          /\ state_after net input (S i) = Ok s'
          /\ (blk !! "type" = Some "yolo" ->
                exists det x_after out,
                  m = [LDetectionLayer det]
                  /\ DetectionLayer_forward det (read s (x s)) = Ok (x_after, out)
                  /\ cat1 [out; detection s] = Ok (detection s')
                  /\ (forall s0 n1 r,
                        shape out = s0 :: n1 :: r ->
                        detection s = empty_tensor ->
                        shape (detection s') = shape out
                        /\ forall idx, at_ (detection s') idx = at_ out idx)
                  /\ (forall s0 n1 n2 r,
                        shape out = s0 :: n1 :: r ->
                        shape (detection s) = s0 :: n2 :: r ->
                        shape (detection s') = s0 :: (n1 + n2)%nat :: r
                        /\ forall i0 i1 ir,
                             at_ (detection s') (i0 :: i1 :: ir)
                             = if (i1 <? n1)%nat then at_ out (i0 :: i1 :: ir)
                               else at_ (detection s) (i0 :: (i1 - n1)%nat :: ir)))
          /\ (blk !! "type" <> Some "yolo" -> detection s' = detection s))
  /\ ((forall blk, blk ∈ drop 1 (blocks net) -> blk !! "type" <> Some "yolo") ->
      d = empty_tensor).
Proof.
  destruct (state_after_all net input d Hfwd) as (s_end & Hend & Hd).
  split; [eauto|]. split.
  - intros i m Hm. pose proof (lookup_lt_Some _ _ _ Hm) as Hi.
    destruct (state_after_prefix net input d i Hfwd) as [s Hs];
      [exact (Nat.lt_le_incl _ _ Hi)|].
    destruct (state_after_prefix net input d (S i) Hfwd) as [s' Hs']; [exact Hi|].
    pose proof Hs' as Hstep. rewrite (state_after_S net input i m Hm), Hs in Hstep.
    cbn [bind] in Hstep.
    destruct (forward_layer_block _ _ _ _ _ Hstep) as [blk Hb].
    destruct (forward_layer_detection _ _ _ _ _ _ Hstep Hb) as [Hyolo Hother].
    exists blk, s, s'. repeat (split; [assumption|]). split; [|exact Hother].
    intros Ht. destruct (Hyolo Ht) as (det & xa & out & -> & Hdet & _ & Hcat).
    exists det, xa, out. repeat (split; [reflexivity || assumption|]). split.
    + intros s0 n1 r Hs1 Hempty. rewrite Hempty in Hcat.
      destruct (cat1_legacy_empty out s0 n1 r Hs1) as (t & Ht' & Hsh & Hat).
      rewrite Hcat in Ht'. injection Ht' as <-. auto.
    + intros s0 n1 n2 r Hs1 Hs2.
      destruct (cat1_two out (detection s) s0 n1 n2 r Hs1 Hs2) as (t & Ht' & Hsh & Hat).
      rewrite Hcat in Ht'. injection Ht' as <-. auto.
  - intros Hno. rewrite <- Hd.
    eapply no_yolo_detection_empty; [exact Hno| |exact Hend]. lia.
Qed.

Lemma forward_result_ok (net : Darknet term) (input : tensor term) :
  is_ok (Darknet_forward net input) = true ->
  Darknet_forward net input = Ok (forward_result net input).
Proof.
  unfold forward_result. now destruct (Darknet_forward net input).
Qed.

Lemma forward_prepends_yolo_outputs_witness :
  exists s_end,
    state_after (net_of_terms cfg_two_yolo) (raw_input [1; 5; 1; 1]%nat) 4 = Ok s_end
    /\ detection s_end
       = forward_result (net_of_terms cfg_two_yolo) (raw_input [1; 5; 1; 1]%nat).
Proof.
  refine (proj1 (forward_prepends_yolo_outputs term (net_of_terms cfg_two_yolo)
                   (raw_input [1; 5; 1; 1]%nat) _ _)).
  apply forward_result_ok. vm_compute. reflexivity.
Defined.

Example forward_without_yolo_is_empty :
  Darknet_forward (net_of_terms cfg_no_yolo) (raw_input [1; 3; 2; 2]%nat)
  = Ok empty_tensor.
Proof. vm_compute. reflexivity. Qed.

Section ForwardInvariant.
Context {F : Type} `{Kernels F}.

Lemma bind_x_new_ok (s : fstate F) v :
  branch_ok s (bind_x_new s v).
Proof.
  unfold branch_ok, bind_x_new. cbn. rewrite length_app. simpl.
  repeat split; lia.
Qed.

Lemma write_ok (s : fstate F) l v :
  (x s < length (store s))%nat -> branch_ok s (write s l v).
Proof.
  intros Hx. unfold branch_ok, write. cbn. rewrite length_insert. auto.
Qed.

Lemma forward_layer_wf blocks i m (s s' : fstate F) :
  forward_layer blocks i m s = Ok s' -> fstate_wf i s -> fstate_wf (S i) s'.
Proof.
  intros Hl (Hlen & Hx & Hlast & Hall).
  apply forward_layer_inv in Hl as (blk & t & s1 & _ & _ & -> & Hbr).
  assert (Hok : branch_ok s s1).
  { destruct (String.eqb t "convolutional" || String.eqb t "upsample").
    { unfold forward_plain in Hbr. inv_bind Hbr. injection Hbr as <-.
      apply bind_x_new_ok. }
    destruct (String.eqb t "shortcut").
    { unfold forward_shortcut in Hbr.
      destruct m as [|[| | |idx| | |] [|]]; try discriminate.
      repeat inv_bind Hbr. injection Hbr as <-. now apply write_ok. }
    destruct (String.eqb t "route").
    { unfold forward_route in Hbr.
      destruct m as [|[| | | | |idxs|] [|]]; try discriminate.
      repeat inv_bind Hbr. injection Hbr as <-. apply bind_x_new_ok. }
    destruct (String.eqb t "yolo").
    { unfold forward_yolo in Hbr.
      destruct m as [|[| | | | | |det] [|]]; try discriminate.
      inv_bind Hbr. destruct v as [xa out]. inv_bind Hbr. injection Hbr as <-.
      unfold branch_ok. cbn. rewrite length_app, length_insert. simpl.
      repeat split; lia. }
    injection Hbr as <-. unfold branch_ok. auto. }
  destruct Hok as (Hst & Hout & Hx1).
  unfold fstate_wf, append_x. cbn. rewrite Hout, length_app. simpl.
  repeat split; try lia.
  - intros _. apply last_snoc.
  - apply Forall_app. split.
    + eapply Forall_impl; [exact Hall|]. simpl. intros. lia.
    + now constructor.
Qed.

Lemma state_after_wf (net : Darknet F) input : forall n s,
  (n <= length (modules net))%nat ->
  state_after net input n = Ok s -> fstate_wf n s.
Proof.
  induction n as [|n IH]; intros s Hn Hs.
  - unfold state_after in Hs. rewrite take_0 in Hs. simpl in Hs.
    injection Hs as <-. unfold fstate_wf, forward_init. cbn.
    repeat split; try lia. constructor.
  - destruct (lookup_lt_is_Some_2 (modules net) n) as [m Hm]; [exact Hn|].
    rewrite (state_after_S net input n m Hm) in Hs. inv_bind Hs.
    eapply forward_layer_wf; [exact Hs|]. apply IH; [|assumption].
    exact (Nat.lt_le_incl _ _ Hn).
Qed.

End ForwardInvariant.

Lemma is_ok_state (r : result (fstate term)) : is_ok r = true -> r = Ok (state_of r).
Proof. now destruct r. Qed.

(** C9.  Let layer [i] be a [shortcut] and let the pass go through it, from
    state [s] to state [s'].  Then [i] is at least 1, the object [x] names is
    the one appended to the history as entry [i-1], the layer rewrites that
    object to the sum of its value and the value of the source entry, and
    the history of [s'] has that same object as entry [i-1] and as entry
    [i].  So whoever reads entry [i-1] in [s'],
    as a route or shortcut layer does, gets the sum and not the value
    layer [i-1] had produced. *)
Theorem shortcut_adds_in_place (F : Type) `{Kernels F}
  (net : Darknet F) (input : tensor F) (i : nat) (blk : block)
  (m : Sequential F) (s s' : fstate F)
  (Hblk : drop 1 (blocks net) !! i = Some blk)
  (Htype : blk !! "type" = Some "shortcut")
  (Hm : modules net !! i = Some m)
  (Hs : state_after net input i = Ok s)
  (Hs' : state_after net input (S i) = Ok s') :
  exists (idx : Z) (src l : nat) (v : tensor F),
    m = [LShortcutLayer idx]
    /\ (1 <= i)%nat
    /\ x s = l /\ x s' = l
    /\ outputs s !! (i - 1)%nat = Some l
    /\ outputs s' !! (i - 1)%nat = Some l
    /\ outputs s' !! i = Some l
    /\ ShortcutLayer_forward idx (outputs s) = Ok src
    /\ tensor_iadd (read s l) (read s src) = Ok v
    /\ read s' l = v
    /\ py_getitem (map (read s') (outputs s')) (Z.of_nat (i - 1)) = Ok v
    /\ py_getitem (map (read s') (outputs s')) (Z.of_nat i) = Ok v.
Proof.
  pose proof (lookup_lt_Some _ _ _ Hm) as Hi.
  destruct (state_after_wf net input i s (Nat.lt_le_incl _ _ Hi) Hs)
    as (Hlen & Hx & Hlast & Hall).
  rewrite (state_after_S net input i m Hm), Hs in Hs'. cbn [bind] in Hs'.
  apply forward_layer_inv in Hs' as (blk' & t & s1 & Hg & Ht & -> & Hbr).
  apply (py_getitem_lookup _ _ _ _ Hblk) in Hg as <-.
  rewrite Htype in Ht. injection Ht as <-. cbn in Hbr.
  unfold forward_shortcut in Hbr.
  destruct m as [|[| | |idx| | |] [|]]; try discriminate.
  inv_bind Hbr. inv_bind Hbr. injection Hbr as <-. rename v into src, v0 into v.
  assert (Hpos : (1 <= i)%nat).
  { destruct i; [|lia]. unfold ShortcutLayer_forward in E.
    apply py_getitem_elem in E.
    destruct (outputs s); [inversion E|discriminate Hlen]. }
  assert (Hprev : outputs s !! (i - 1)%nat = Some (x s)).
  { rewrite <- Hlast by lia. rewrite last_lookup, Hlen. f_equal. lia. }
  assert (Hread : read (append_x (write s (x s) v)) (x s) = v).
  { unfold read, append_x, write. cbn. now rewrite list_lookup_insert_eq. }
  exists idx, src, (x s), v.
  repeat (split; [reflexivity || assumption|]).
  cbn [append_x write outputs x].
  assert (Hi1 : (outputs s ++ [x s]) !! (i - 1)%nat = Some (x s))
    by (now apply lookup_app_l_Some).
  assert (Hi2 : (outputs s ++ [x s]) !! i = Some (x s))
    by (rewrite <- Hlen; now apply list_lookup_middle).
  repeat (split; [assumption|]).
  split.
  - apply py_getitem_nonneg; [lia|]. rewrite Nat2Z.id, list_lookup_fmap, Hi1.
    cbn. f_equal. exact Hread.
  - apply py_getitem_nonneg; [lia|]. rewrite Nat2Z.id, list_lookup_fmap, Hi2.
    cbn. f_equal. exact Hread.
Qed.

Lemma shortcut_adds_in_place_witness :
  let net := net_of_terms cfg_shortcut in
  let input := raw_input [1; 3; 1; 1]%nat in
  let s := state_of (state_after net input 2) in
  let s' := state_of (state_after net input 3) in
  outputs s' !! 1%nat = Some (x s) /\ outputs s' !! 2%nat = Some (x s)
  /\ to_list (read s (x s)) = [Raw 0; Raw 1; Raw 2]
  /\ to_list (read s' (x s))
     = [Add (Raw 0) (Raw 0); Add (Raw 1) (Raw 1); Add (Raw 2) (Raw 2)].
Proof.
  intros net input s s'.
  assert (Hblk : { blk | drop 1 (blocks net) !! 2%nat = Some blk
                         /\ blk !! "type" = Some "shortcut" }).
  { eexists. vm_compute. split; reflexivity. }
  destruct Hblk as (blk & Hblk & Htype).
  destruct (shortcut_adds_in_place term net input 2 blk [LShortcutLayer 0] s s'
              Hblk Htype)
    as (idx & src & l & v & _ & _ & Hx & _ & _ & H1 & H2 & _).
  - vm_compute. reflexivity.
  - apply is_ok_state. vm_compute. reflexivity.
  - apply is_ok_state. vm_compute. reflexivity.
  - rewrite <- Hx in H1, H2. split; [exact H1|]. split; [exact H2|].
    split; vm_compute; reflexivity.
Defined.

(** The [route] layer that follows the [shortcut] of the sample reads
    entry 1 and finds the sums there. *)
Example route_after_shortcut_reads_the_sum :
  let s := state_of (state_after (net_of_terms cfg_shortcut)
                       (raw_input [1; 3; 1; 1]%nat) 4) in
  to_list (read s (x s))
  = [Add (Raw 0) (Raw 0); Add (Raw 1) (Raw 1); Add (Raw 2) (Raw 2)].
Proof. vm_compute. reflexivity. Qed.

(** * Further properties *)

(** ** The configuration parser *)

Lemma parse_line_Ok st l st' :
  parse_line st l = Ok st' ->
  exists c r, l = String c r
  /\ ((Ascii.eqb c "[" = true
       /\ st' = ((if negb (size st.2 =? 0)%nat then st.1 ++ [st.2] else st.1),
                 <["type" := strip (slice_1_m1 l)]>
                   (if negb (size st.2 =? 0)%nat then ∅ else st.2)))
      \/ (Ascii.eqb c "[" = false
          /\ exists key value, split "=" l = [key; value]
             /\ st' = (st.1, <[strip key := strip value]> st.2))).
Proof.
  destruct st as [blocks blk]. destruct l as [|c r]; [discriminate|]. simpl.
  intros Hl. exists c, r. split; [reflexivity|].
  destruct (Ascii.eqb c "[") eqn:Hc.
  - left. split; [reflexivity|].
    destruct (negb (size blk =? 0)%nat); now injection Hl as <-.
  - right. split; [reflexivity|].
    destruct (if Ascii.eqb c "=" then _ else _) as [|k [|v [|w t]]] eqn:E;
      try discriminate.
    injection Hl as <-. eauto.
Qed.

Lemma typed_insert (b : block) k v : typed b -> typed (<[k := v]> b).
Proof.
  unfold typed. intros Hb. destruct (decide (k = "type")) as [->|Hne].
  - rewrite lookup_insert_eq. eauto.
  - now rewrite lookup_insert_ne.
Qed.

Lemma typed_insert_type (b : block) v : typed (<["type" := v]> b).
Proof. unfold typed. rewrite lookup_insert_eq. eauto. Qed.

(** The blocks after the first all have a [type], at every point of the
    loop; so has the first once a header has opened it. *)
Lemma parse_lines_typed lines : forall st st',
  parse_lines st lines = Ok st' ->
  Forall typed (drop 1 (st.1 ++ [st.2])) ->
  Forall typed (drop 1 (st'.1 ++ [st'.2]))
  /\ (Forall typed (st.1 ++ [st.2]) -> Forall typed (st'.1 ++ [st'.2])).
Proof.
  induction lines as [|l rest IH]; intros st st' Hp Hinv; simpl in Hp.
  - injection Hp as <-. auto.
  - inv_bind Hp. rename v into st1.
    apply parse_line_Ok in E as (c & r & -> & Hcase).
    assert (H1 : Forall typed (drop 1 (st1.1 ++ [st1.2]))
                 /\ (Forall typed (st.1 ++ [st.2]) -> Forall typed (st1.1 ++ [st1.2]))).
    { destruct st as [blocks blk]. simpl in *.
      destruct Hcase as [(_ & ->)|(_ & key & value & _ & ->)]; simpl.
      - destruct (negb (size blk =? 0)%nat).
        + split.
          * rewrite drop_app_le by (rewrite length_app; simpl; lia).
            apply Forall_app. split; [assumption|].
            constructor; [apply typed_insert_type|constructor].
          * intros Hall. apply Forall_app. split; [assumption|].
            constructor; [apply typed_insert_type|constructor].
        + split.
          * destruct blocks as [|b0 bs]; simpl in *; [constructor|].
            apply Forall_app in Hinv as [Hbs _]. apply Forall_app. split; [assumption|].
            constructor; [apply typed_insert_type|constructor].
          * intros Hall. apply Forall_app in Hall as [Hbs _].
            apply Forall_app. split; [assumption|].
            constructor; [apply typed_insert_type|constructor].
      - split.
        + destruct blocks as [|b0 bs]; simpl in *; [constructor|].
          apply Forall_app in Hinv as [Hbs Hb]. apply Forall_app. split; [assumption|].
          inversion Hb; subst. constructor; [now apply typed_insert|constructor].
        + intros Hall. apply Forall_app in Hall as [Hbs Hb].
          apply Forall_app. split; [assumption|].
          inversion Hb; subst. constructor; [now apply typed_insert|constructor]. }
    destruct H1 as [H1 H1'].
    destruct (IH st1 st' Hp H1) as [H2 H2']. split; [assumption|]. auto.
Qed.

(** X1.  In what [parse_cfg] returns, every block after the first has a
    [type] key, and so has the first when the first line the filter keeps
    is a header: [create_modules] can then read [block['type']] of every
    layer block. *)
Theorem parse_cfg_blocks_typed (content : string) (blocks : list block)
  (Hparse : parse_cfg content = Ok blocks) :
  Forall typed (drop 1 blocks)
  /\ (leading_block (cfg_lines content) = 0%nat -> Forall typed blocks).
Proof.
  unfold parse_cfg in Hparse. inv_bind Hparse. destruct v as [bs b].
  injection Hparse as <-.
  split.
  - apply (parse_lines_typed _ _ _ E). simpl. constructor.
  - intros Hlead. destruct (cfg_lines content) as [|l rest] eqn:El; [discriminate|].
    simpl in Hlead. destruct (header_line l) eqn:Hh; [|discriminate].
    cbn [parse_lines] in E. inv_bind E. rename v into st1.
    apply parse_line_Ok in E0 as (c & r & -> & Hcase). simpl in Hh.
    destruct Hcase as [(_ & ->)|(Hc & _)]; [|congruence]. simpl in E.
    apply (parse_lines_typed _ _ _ E); simpl.
    + constructor.
    + constructor; [apply typed_insert_type|constructor].
Qed.

Lemma parse_cfg_blocks_typed_witness :
  Forall typed (drop 1 (blocks_of cfg_tiny))
  /\ (leading_block (cfg_lines cfg_tiny) = 0%nat -> Forall typed (blocks_of cfg_tiny)).
Proof.
  apply (parse_cfg_blocks_typed cfg_tiny (blocks_of cfg_tiny)).
  vm_compute. reflexivity.
Defined.

Lemma size_insert_ne_0 (b : block) k v : size (<[k := v]> b) <> 0%nat.
Proof. rewrite map_size_empty_iff. apply insert_non_empty. Qed.

Lemma count_headers_cons l rest :
  count_headers (l :: rest)
  = ((if header_line l then 1 else 0) + count_headers rest)%nat.
Proof.
  unfold count_headers. rewrite filter_cons.
  destruct (decide (header_line l = true)) as [E|E].
  - now rewrite E.
  - apply not_true_is_false in E. now rewrite E.
Qed.

(** Once the block in progress holds a key, every header closes one block. *)
Lemma parse_lines_count lines : forall st st',
  parse_lines st lines = Ok st' -> size st.2 <> 0%nat ->
  length (st'.1 ++ [st'.2]) = (length (st.1 ++ [st.2]) + count_headers lines)%nat
  /\ size st'.2 <> 0%nat.
Proof.
  induction lines as [|l rest IH]; intros st st' Hp Hne; cbn [parse_lines] in Hp.
  - injection Hp as <-. unfold count_headers. simpl. split; [lia|assumption].
  - inv_bind Hp. rename v into st1.
    apply parse_line_Ok in E as (c & r & -> & Hcase).
    rewrite count_headers_cons. cbn [header_line].
    destruct st as [blocks blk]. simpl in *.
    destruct Hcase as [(Hc & ->)|(Hc & key & value & _ & ->)]; rewrite Hc.
    + destruct (Nat.eqb_spec (size blk) 0) as [|_]; [contradiction|]. simpl in Hp.
      destruct (IH _ _ Hp) as [Hlen Hne']; [apply size_insert_ne_0|].
      split; [|assumption]. simpl in Hlen. rewrite Hlen, !length_app. simpl. lia.
    + destruct (IH _ _ Hp) as [Hlen Hne']; [apply size_insert_ne_0|].
      split; [|assumption]. simpl in Hlen. rewrite Hlen, !length_app. simpl. lia.
Qed.

(** X2.  [parse_cfg] returns one block for every header line, and one more
    in front of them when the first line the filter keeps is no header (or
    there is no line at all). *)
Theorem parse_cfg_block_count (content : string) (blocks : list block)
  (Hparse : parse_cfg content = Ok blocks) :
  length blocks
  = (count_headers (cfg_lines content) + leading_block (cfg_lines content))%nat.
Proof.
  unfold parse_cfg in Hparse. inv_bind Hparse. destruct v as [bs b].
  injection Hparse as <-.
  destruct (cfg_lines content) as [|l rest]; cbn [parse_lines] in E.
  - injection E as <- <-. reflexivity.
  - inv_bind E. rename v into st1.
    apply parse_line_Ok in E0 as (c & r & -> & Hcase).
    rewrite count_headers_cons. cbn [header_line leading_block].
    cbn [fst snd] in Hcase. rewrite map_size_empty in Hcase. cbn in Hcase.
    destruct Hcase as [(Hc & ->)|(Hc & key & value & _ & ->)]; rewrite Hc;
      simpl in E;
      (destruct (parse_lines_count _ _ _ E) as [Hlen _];
       [apply size_insert_ne_0|]); simpl in Hlen; rewrite Hlen; simpl; lia.
Qed.

Lemma parse_cfg_block_count_witness :
  length (blocks_of cfg_two_yolo)
  = (count_headers (cfg_lines cfg_two_yolo)
     + leading_block (cfg_lines cfg_two_yolo))%nat.
Proof.
  apply (parse_cfg_block_count cfg_two_yolo (blocks_of cfg_two_yolo)).
  vm_compute. reflexivity.
Defined.

Lemma lstrip_head s : starts_with_space (lstrip s) = false.
Proof.
  induction s as [|c r IH]; simpl; [reflexivity|].
  destruct (is_space c) eqn:E; [exact IH|]. simpl. exact E.
Qed.

Lemma lstrip_id s : starts_with_space s = false -> lstrip s = s.
Proof. destruct s as [|c r]; simpl; [reflexivity|]. now intros ->. Qed.

Lemma rstrip_head s : starts_with_space s = false -> starts_with_space (rstrip s) = false.
Proof.
  destruct s as [|c r]; simpl; [reflexivity|]. intros Hc.
  destruct (rstrip r); [rewrite Hc|]; simpl; exact Hc.
Qed.

Lemma rstrip_cons c r :
  rstrip (String c r) =
  match rstrip r with
  | EmptyString => if is_space c then EmptyString else String c EmptyString
  | r' => String c r'
  end.
Proof. reflexivity. Qed.

Lemma rstrip_idem s : rstrip (rstrip s) = rstrip s.
Proof.
  induction s as [|c r IH]; [reflexivity|].
  rewrite (rstrip_cons c r).
  destruct (rstrip r) as [|c' r'] eqn:E.
  - destruct (is_space c) eqn:Hc; [reflexivity|].
    rewrite rstrip_cons. simpl. now rewrite Hc.
  - rewrite (rstrip_cons c (String c' r')), IH. reflexivity.
Qed.

(** Stripping twice is stripping once. *)
Lemma strip_idem s : strip (strip s) = strip s.
Proof.
  unfold strip. rewrite (lstrip_id (rstrip (lstrip s))).
  - apply rstrip_idem.
  - apply rstrip_head, lstrip_head.
Qed.

Lemma parse_lines_stripped lines : forall st st',
  parse_lines st lines = Ok st' ->
  Forall stripped_block (st.1 ++ [st.2]) ->
  Forall stripped_block (st'.1 ++ [st'.2]).
Proof.
  induction lines as [|l rest IH]; intros st st' Hp Hinv; cbn [parse_lines] in Hp.
  - now injection Hp as <-.
  - inv_bind Hp. rename v into st1.
    apply parse_line_Ok in E as (c & r & -> & Hcase).
    apply (IH _ _ Hp). destruct st as [blocks blk]. cbn [fst snd] in *.
    apply Forall_app in Hinv as [Hbs Hb]. inversion Hb as [|? ? Hblk _]; subst.
    destruct Hcase as [(_ & ->)|(_ & key & value & _ & ->)]; cbn [fst snd].
    + assert (Hty : stripped "type" /\ stripped (strip (slice_1_m1 (String c r)))).
      { split; [reflexivity|apply strip_idem]. }
      destruct (negb (size blk =? 0)%nat).
      * apply Forall_app. split; [apply Forall_app; split; assumption|].
        constructor; [|constructor].
        apply map_Forall_insert_2; [exact Hty|apply map_Forall_empty].
      * apply Forall_app. split; [assumption|]. constructor; [|constructor].
        apply map_Forall_insert_2; [exact Hty|assumption].
    + apply Forall_app. split; [assumption|]. constructor; [|constructor].
      apply map_Forall_insert_2; [|assumption].
      split; apply strip_idem.
Qed.

(** X3.  Every key and every value of every block [parse_cfg] returns,
    the [type] included, is free of white space at both ends: stripping it
    again changes nothing. *)
Theorem parse_cfg_entries_stripped (content : string) (blocks : list block)
  (Hparse : parse_cfg content = Ok blocks) :
  Forall stripped_block blocks.
Proof.
  unfold parse_cfg in Hparse. inv_bind Hparse. destruct v as [bs b0].
  injection Hparse as <-.
  apply (parse_lines_stripped _ _ _ E). cbn [fst snd].
  constructor; [apply map_Forall_empty|constructor].
Qed.

Lemma parse_cfg_entries_stripped_witness :
  Forall stripped_block (blocks_of cfg_route_two).
Proof.
  apply (parse_cfg_entries_stripped cfg_route_two (blocks_of cfg_route_two)).
  vm_compute. reflexivity.
Defined.

(** ** The builder *)

Lemma create_modules_state_prefix_feeds {F} (blocks : list block) (i : nat)
  (st : build_state F) :
  (i <= length (drop 1 blocks))%nat ->
  create_modules_state (take (S i) blocks) = Ok st ->
  feeds (out_channels st) i (in_channel st) /\ out_channel st = in_channel st.
Proof.
  intros Hi Hst. destruct i as [|j].
  - unfold create_modules_state in Hst. inv_bind Hst.
    destruct blocks as [|b0 rest]; [discriminate|].
    cbn in Hst. injection Hst as <-. split; reflexivity.
  - destruct (lookup_lt_is_Some_2 (drop 1 blocks) j) as [blk Hblk]; [lia|].
    destruct (@create_modules_state_at F blocks j blk Hblk) as (ni & _ & Hstep & _).
    rewrite Hstep in Hst. inv_bind Hst. rename v into st0.
    destruct (create_modules_state_prefix_length blocks j st0) as [Hlen _];
      [lia|exact E|].
    destruct (create_module_appends _ _ _ _ _ Hst) as (Hocs & Hin & _).
    split; [|now rewrite Hin].
    cbn [feeds]. rewrite Hocs, Hin.
    rewrite lookup_app_r by lia. rewrite Hlen, Nat.sub_diag. reflexivity.
Qed.

Lemma create_module_convolutional {F} net_info i blk (st : build_state F) :
  blk !! "type" = Some "convolutional" ->
  create_module net_info i blk st
  = (r <- build_convolutional (in_channel st) blk ;; Ok (record_module st r)).
Proof.
  intros Ht. unfold create_module, dict_getitem. rewrite Ht. simpl.
  destruct (build_convolutional (in_channel st) blk) as [[m oc]|e]; reflexivity.
Qed.

Lemma create_module_passes {F} net_info i blk t (st st' : build_state F) :
  blk !! "type" = Some t -> t <> "convolutional" -> t <> "route" ->
  create_module net_info i blk st = Ok st' ->
  out_channel st' = out_channel st.
Proof.
  intros Ht Hc Hr H. unfold create_module, dict_getitem in H. rewrite Ht in H.
  cbn [bind] in H.
  destruct (String.eqb_spec t "convolutional"); [contradiction|].
  inv_bind H. destruct v as [m oc]. injection H as <-. cbn.
  destruct (String.eqb t "shortcut"); [inv_bind E; now injection E as _ <-|].
  destruct (String.eqb t "upsample"); [inv_bind E; now injection E as _ <-|].
  destruct (String.eqb_spec t "route"); [contradiction|].
  destruct (String.eqb t "yolo"); [inv_bind E; now injection E as _ <-|].
  now injection E as _ <-.
Qed.

Lemma feeds_prefix (l1 l2 : list Z) i c :
  l1 `prefix_of` l2 -> feeds l1 i c -> feeds l2 i c.
Proof.
  intros Hp. destruct i as [|j]; cbn; [auto|].
  intros Hl. exact (prefix_lookup_Some _ _ _ _ Hl Hp).
Qed.

Lemma create_modules_state_record {F} (blocks : list block) (i : nat) (blk : block)
  (st : build_state F) :
  create_modules_state blocks = Ok st ->
  drop 1 blocks !! i = Some blk ->
  exists net_info st_i st_i' m,
    blocks !! 0%nat = Some net_info
    /\ create_module net_info (Z.of_nat i) blk st_i = Ok st_i'
    /\ feeds (out_channels st) i (in_channel st_i)
    /\ out_channel st_i = in_channel st_i
    /\ module_list st_i' = module_list st_i ++ [m]
    /\ out_channels st !! i = Some (out_channel st_i')
    /\ module_list st !! i = Some m.
Proof.
  intros Hbuild Hblk.
  destruct (@create_modules_state_at F blocks i blk Hblk) as (ni & Hni & Hstep & Hrest).
  rewrite Hrest in Hbuild. inv_bind Hbuild. rename v into st_i'.
  rewrite Hstep in E. inv_bind E. rename v into st_i. rename E0 into Hpre, E into Hstep'.
  pose proof (lookup_lt_Some _ _ _ Hblk) as Hi.
  destruct (create_modules_state_prefix_length blocks i st_i) as [Hlo Hlm];
    [apply Nat.lt_le_incl; exact Hi|exact Hpre|].
  destruct (create_modules_loop_length _ _ _ _ _ Hbuild) as (_ & _ & Hpo).
  destruct (create_modules_loop_wf _ _ _ _ _ Hbuild) as (ms & Hpm & _).
  destruct (create_module_appends _ _ _ _ _ Hstep') as (Hocs & Hin & m & Hml).
  destruct (create_modules_state_prefix_feeds blocks i st_i) as [Hfeeds Hoc];
    [apply Nat.lt_le_incl; exact Hi|exact Hpre|].
  exists ni, st_i, st_i', m. repeat match goal with |- _ /\ _ => split end;
    try assumption.
  - apply (feeds_prefix (out_channels st_i)); [|exact Hfeeds].
    transitivity (out_channels st_i'); [|exact Hpo].
    rewrite Hocs. now apply prefix_app_r.
  - apply (prefix_lookup_Some (out_channels st_i')); [|exact Hpo].
    rewrite Hocs, lookup_app_r by lia. now rewrite Hlo, Nat.sub_diag.
  - rewrite Hpm, lookup_app_l by (rewrite Hml, length_app; cbn; lia).
    rewrite Hml, lookup_app_r by (rewrite Hlm; lia). now rewrite Hlm, Nat.sub_diag.
Qed.

(** X4.  In a network that builds, the convolution made from a
    [convolutional] block takes as many input channels as the block just
    before it recorded, whatever the type of that block (3 at the first
    position); it produces [filters] output channels, and [filters] is the
    count the block records. *)
Theorem convolution_channels_chain (F : Type) (blocks : list block)
  (st : build_state F) (i : nat) (blk : block)
  (Hbuild : create_modules_state blocks = Ok st)
  (Hblk : drop 1 blocks !! i = Some blk)
  (Htype : blk !! "type" = Some "convolutional") :
  exists conv tail,
    module_list st !! i = Some (LConv2d conv :: tail)
    /\ feeds (out_channels st) i (conv_in_channels conv)
    /\ int_of blk "filters" = Ok (conv_out_channels conv)
    /\ out_channels st !! i = Some (conv_out_channels conv).
Proof.
  destruct (create_modules_state_record blocks i blk st Hbuild Hblk)
    as (ni & st_i & st_i' & m & _ & Hstep & Hfeeds & _ & Hml & Hoc & Hm).
  rewrite (create_module_convolutional _ _ _ _ Htype) in Hstep.
  inv_bind Hstep. destruct v as [m' oc]. injection Hstep as <-.
  cbn in Hml, Hoc. apply app_inj_tail in Hml as [_ <-].
  pose proof (build_convolutional_out _ _ _ _ E) as Hf.
  destruct (build_convolutional_of_block _ _ _ _ E) as (conv & tl & -> & Hf' & _ & Hic & _).
  exists conv, tl. rewrite Hic.
  assert (oc = conv_out_channels conv) as -> by congruence.
  auto.
Qed.

Lemma convolution_channels_chain_witness :
  exists conv tail,
    module_list (built cfg_route_two) !! 1%nat = Some (LConv2d conv :: tail)
    /\ feeds (out_channels (built cfg_route_two)) 1 (conv_in_channels conv)
    /\ int_of (block_at cfg_route_two 1) "filters" = Ok (conv_out_channels conv)
    /\ out_channels (built cfg_route_two) !! 1%nat
       = Some (conv_out_channels conv).
Proof.
  apply (convolution_channels_chain Z (blocks_of cfg_route_two)
           (built cfg_route_two) 1 (block_at cfg_route_two 1));
    vm_compute; reflexivity.
Defined.

(** X5.  In a network that builds, a block whose type is neither
    [convolutional] nor [route] (a [shortcut], an [upsample], a [yolo], or
    a type the builder does not know) records the channel count of the
    block just before it, 3 at the first position. *)
Theorem other_blocks_keep_channels (F : Type) (blocks : list block)
  (st : build_state F) (i : nat) (blk : block) (t : string)
  (Hbuild : create_modules_state blocks = Ok st)
  (Hblk : drop 1 blocks !! i = Some blk)
  (Htype : blk !! "type" = Some t)
  (Hconv : t <> "convolutional") (Hroute : t <> "route") :
  exists c, out_channels st !! i = Some c /\ feeds (out_channels st) i c.
Proof.
  destruct (create_modules_state_record blocks i blk st Hbuild Hblk)
    as (ni & st_i & st_i' & m & _ & Hstep & Hfeeds & Hout & _ & Hoc & _).
  rewrite (create_module_passes _ _ _ _ _ _ Htype Hconv Hroute Hstep) in Hoc.
  exists (in_channel st_i). now rewrite <- Hout at 1.
Qed.

Lemma other_blocks_keep_channels_witness :
  exists c, out_channels (built cfg_tiny) !! 1%nat = Some c
            /\ feeds (out_channels (built cfg_tiny)) 1 c.
Proof.
  apply (other_blocks_keep_channels Z (blocks_of cfg_tiny) (built cfg_tiny) 1
           (block_at cfg_tiny 1) "yolo");
    solve [vm_compute; reflexivity | discriminate].
Defined.

Lemma mapM_Forall2 {A B} (f : A -> result B) (l : list A) : forall r,
  mapM f l = Ok r -> Forall2 (fun a b => f a = Ok b) l r.
Proof.
  induction l as [|a l IH]; intros r H; cbn [mapM] in H.
  - injection H as <-. constructor.
  - inv_bind H. inv_bind H. injection H as <-. constructor; auto.
Qed.

Lemma create_module_yolo {F} net_info i blk (st : build_state F) :
  blk !! "type" = Some "yolo" ->
  create_module net_info i blk st
  = (m <- build_yolo net_info blk ;; Ok (record_module st (m, out_channel st))).
Proof.
  intros Ht. unfold create_module, dict_getitem. rewrite Ht. simpl.
  destruct (build_yolo net_info blk); reflexivity.
Qed.

(** X6.  In a network that builds, a [yolo] block yields a module holding
    one detection layer.  The layer has one anchor for each entry of
    [mask], in the order of the mask: entry [m] selects the integers at
    positions [2m] and [2m+1] of the [anchors] list.  Its number of classes
    is the block's [classes], and its input dimension is the [width] of the
    first block of the configuration. *)
Theorem yolo_anchors_follow_mask (F : Type) (blocks : list block)
  (st : build_state F) (i : nat) (blk : block) (mask anchors_str : string)
  (Hbuild : create_modules_state blocks = Ok st)
  (Hblk : drop 1 blocks !! i = Some blk)
  (Htype : blk !! "type" = Some "yolo")
  (Hmask : blk !! "mask" = Some mask)
  (Hanchors : blk !! "anchors" = Some anchors_str) :
  exists det masks net_info,
    module_list st !! i = Some [LDetectionLayer det]
    /\ mapM py_int (split "," mask) = Ok masks
    /\ Forall2 (anchor_pair (split "," anchors_str)) masks (anchors det)
    /\ num_anchors det = Z.of_nat (length (split "," mask))
    /\ int_of blk "classes" = Ok (num_classes det)
    /\ blocks !! 0%nat = Some net_info
    /\ int_of net_info "width" = Ok (input_dim det).
Proof.
  destruct (create_modules_state_record blocks i blk st Hbuild Hblk)
    as (ni & st_i & st_i' & m & Hni & Hstep & _ & _ & Hml & _ & Hm).
  rewrite (create_module_yolo _ _ _ _ Htype) in Hstep.
  inv_bind Hstep. injection Hstep as <-. cbn in Hml.
  apply app_inj_tail in Hml as [_ <-].
  unfold build_yolo, dict_getitem in E. rewrite Hmask, Hanchors in E.
  cbn [bind] in E. inv_bind E. rename v0 into masks. inv_bind E.
  rename v0 into pairs. inv_bind E. inv_bind E. injection E as <-.
  exists (DetectionLayer_init pairs v0 v1), masks, ni.
  repeat match goal with |- _ /\ _ => split end; try assumption; try reflexivity.
  - apply mapM_Forall2 in E1. eapply Forall2_impl; [exact E1|].
    intros m [w h] Hm'. cbn beta in Hm'. repeat inv_bind Hm'.
    injection Hm' as <- <-. unfold anchor_pair. eauto 10.
  - unfold num_anchors. cbn. apply mapM_Forall2 in E0, E1.
    apply Forall2_length in E0, E1. congruence.
Qed.

Lemma yolo_anchors_follow_mask_witness :
  exists det masks net_info,
    module_list (built cfg_two_yolo) !! 1%nat = Some [LDetectionLayer det]
    /\ mapM py_int (split "," "0") = Ok masks
    /\ Forall2 (anchor_pair (split "," "10,13")) masks (anchors det)
    /\ num_anchors det = Z.of_nat (length (split "," "0"))
    /\ int_of (block_at cfg_two_yolo 1) "classes" = Ok (num_classes det)
    /\ blocks_of cfg_two_yolo !! 0%nat = Some net_info
    /\ int_of net_info "width" = Ok (input_dim det).
Proof.
  apply (yolo_anchors_follow_mask Z (blocks_of cfg_two_yolo) (built cfg_two_yolo)
           1 (block_at cfg_two_yolo 1) "0" "10,13");
    vm_compute; reflexivity.
Defined.

Lemma int_of_reads blk k n : int_of blk k = Ok n -> reads_int blk k.
Proof. intros H. now exists n. Qed.

Lemma create_module_reads {F} net_info i blk t (st st' : build_state F) :
  blk !! "type" = Some t ->
  create_module net_info i blk st = Ok st' ->
  Forall (reads_int blk) (int_keys t)
  /\ Forall (fun k => is_Some (blk !! k)) (str_keys t)
  /\ (t = "yolo" -> reads_int net_info "width").
Proof.
  intros Ht H. unfold create_module, dict_getitem in H. rewrite Ht in H.
  cbn [bind] in H. inv_bind H. clear H. unfold int_keys, str_keys.
  destruct (String.eqb_spec t "convolutional") as [->|Hc].
  { unfold build_convolutional in E. repeat inv_bind E.
    apply dict_getitem_Ok in E4.
    split; [|split; [|discriminate]].
    - repeat constructor; eapply int_of_reads; eassumption.
    - repeat constructor. rewrite E4; eauto. }
  destruct (String.eqb_spec t "shortcut") as [->|Hs].
  { inv_bind E. split; [|split; [constructor|discriminate]].
    repeat constructor; eapply int_of_reads; eassumption. }
  destruct (String.eqb_spec t "upsample") as [->|Hu].
  { inv_bind E. split; [|split; [constructor|discriminate]].
    repeat constructor; eapply int_of_reads; eassumption. }
  destruct (String.eqb_spec t "route") as [->|Hr].
  { unfold build_route in E. inv_bind E. apply dict_getitem_Ok in E0.
    split; [constructor|split; [|discriminate]].
    repeat constructor. rewrite E0; eauto. }
  destruct (String.eqb_spec t "yolo") as [->|Hy].
  { inv_bind E. unfold build_yolo in E0. repeat inv_bind E0.
    apply dict_getitem_Ok in E1, E3.
    split; [|split].
    - repeat constructor; eapply int_of_reads; eassumption.
    - repeat constructor; [rewrite E1|rewrite E3]; eauto.
    - intros _. eapply int_of_reads; eassumption. }
  split; [constructor|split; [constructor|contradiction]].
Qed.

(** X7.  A network builds only from blocks that carry what their type
    reads.  In a configuration that builds, a block of type [t] holds an
    integer under each key the builder converts with [int]
    ([filters], [size], [stride], [pad] for [convolutional]; [from]; the
    [stride] of [upsample]; [classes]) and holds the keys read as text
    ([activation]; [layers]; [mask] and [anchors]); and when there is a
    [yolo] block the first block of the configuration holds an integer
    [width]. *)
Theorem built_blocks_carry_their_keys (F : Type) (blocks : list block)
  (st : build_state F) (i : nat) (blk : block) (t : string)
  (Hbuild : create_modules_state blocks = Ok st)
  (Hblk : drop 1 blocks !! i = Some blk)
  (Htype : blk !! "type" = Some t) :
  Forall (reads_int blk) (int_keys t)
  /\ Forall (fun k => is_Some (blk !! k)) (str_keys t)
  /\ (t = "yolo" ->
      exists net_info, blocks !! 0%nat = Some net_info /\ reads_int net_info "width").
Proof.
  destruct (create_modules_state_record blocks i blk st Hbuild Hblk)
    as (ni & st_i & st_i' & m & Hni & Hstep & _).
  destruct (create_module_reads _ _ _ _ _ _ Htype Hstep) as (Hi & Hs & Hy).
  split; [assumption|split; [assumption|]]. intros Ht. eauto.
Qed.

Lemma built_blocks_carry_their_keys_witness :
  Forall (reads_int (block_at cfg_tiny 0)) (int_keys "convolutional")
  /\ Forall (fun k => is_Some (block_at cfg_tiny 0 !! k)) (str_keys "convolutional")
  /\ ("convolutional" = "yolo" ->
      exists net_info, blocks_of cfg_tiny !! 0%nat = Some net_info
                       /\ reads_int net_info "width").
Proof.
  apply (built_blocks_carry_their_keys Z (blocks_of cfg_tiny) (built cfg_tiny) 0
           (block_at cfg_tiny 0) "convolutional");
    vm_compute; reflexivity.
Defined.

Lemma create_modules_raise_at {F} (blocks : list block) (i : nat) (blk : block)
  (st : build_state F) (e : pyexn) :
  drop 1 blocks !! i = Some blk ->
  create_modules_state (take (S i) blocks) = Ok st ->
  (forall net_info, create_module net_info (Z.of_nat i) blk st = Raise e) ->
  @create_modules_state F blocks = Raise e /\ @create_modules F blocks = Raise e.
Proof.
  intros Hblk Hpre Hstep.
  destruct (@create_modules_state_at F blocks i blk Hblk) as (ni & _ & Hs & Hrest).
  assert (Hst : @create_modules_state F blocks = Raise e).
  { rewrite Hrest, Hs, Hpre. cbn [bind]. rewrite Hstep. reflexivity. }
  split; [exact Hst|]. rewrite create_modules_of_state, Hst. reflexivity.
Qed.

(** X8.  When the blocks before position [i] build, a block at position
    [i] that has no [type], or that lacks the key its type reads first
    ([filters] for [convolutional], [from] for [shortcut], [stride] for
    [upsample], [layers] for [route], [mask] for [yolo]), stops
    [create_modules] with Python's [KeyError]. *)
Theorem missing_key_raises_KeyError (F : Type) (blocks : list block)
  (i : nat) (blk : block) (st : build_state F)
  (Hblk : drop 1 blocks !! i = Some blk)
  (Hpre : create_modules_state (take (S i) blocks) = Ok st)
  (Hmissing : blk !! "type" = None
              \/ exists t k, blk !! "type" = Some t /\ first_key t = Some k
                             /\ blk !! k = None) :
  @create_modules F blocks = Raise KeyError.
Proof.
  apply (create_modules_raise_at blocks i blk st KeyError Hblk Hpre).
  intros ni. unfold create_module, dict_getitem.
  destruct Hmissing as [Hno|(t & k & Ht & Hk & Hnone)].
  - rewrite Hno. reflexivity.
  - rewrite Ht. cbn [bind]. unfold first_key in Hk.
    destruct (String.eqb t "convolutional").
    { injection Hk as <-. unfold build_convolutional, int_of, dict_getitem.
      rewrite Hnone. reflexivity. }
    destruct (String.eqb t "shortcut").
    { injection Hk as <-. unfold int_of, dict_getitem. rewrite Hnone. reflexivity. }
    destruct (String.eqb t "upsample").
    { injection Hk as <-. unfold int_of, dict_getitem. rewrite Hnone. reflexivity. }
    destruct (String.eqb t "route").
    { injection Hk as <-. unfold build_route, dict_getitem. rewrite Hnone. reflexivity. }
    destruct (String.eqb t "yolo"); [|discriminate].
    injection Hk as <-. unfold build_yolo, dict_getitem. rewrite Hnone. reflexivity.
Qed.

Lemma missing_key_raises_KeyError_witness :
  @create_modules Z (blocks_of cfg_shortcut_bare) = Raise KeyError.
Proof.
  apply (missing_key_raises_KeyError Z (blocks_of cfg_shortcut_bare) 1
           (block_at cfg_shortcut_bare 1)
           (built (lines_of (["[net]"; "width=416"] ++ conv_lines "16"))));
    [vm_compute; reflexivity|vm_compute; reflexivity|].
  right. exists "shortcut", "from". vm_compute. auto.
Defined.

(** ** The weight loader *)

Lemma seq_getitem_Ok {F} (m : Sequential F) k l :
  seq_getitem m k = Ok l -> m !! k = Some l.
Proof. unfold seq_getitem. destruct (m !! k); [|discriminate]. now intros [= ->]. Qed.

Lemma as_conv_Ok {F} (l : layer F) conv : as_conv l = Ok conv -> l = LConv2d conv.
Proof. destruct l; try discriminate. now intros [= ->]. Qed.

Lemma as_bn_Ok {F} (l : layer F) bn : as_bn l = Ok bn -> l = LBatchNorm2d bn.
Proof. destruct l; try discriminate. now intros [= ->]. Qed.

Lemma insert_same_erased {F} (m : Sequential F) k l l' :
  m !! k = Some l -> erase_layer l' = erase_layer l ->
  erase_module (<[k := l']> m) = erase_module m.
Proof.
  intros Hk He. unfold erase_module, Sequential in *. rewrite list_fmap_insert, He. apply list_insert_id.
  now rewrite list_lookup_fmap, Hk.
Qed.

Lemma load_batch_norm_erased {F} (weights : list F) ptr m m' ptr' :
  load_batch_norm weights ptr m = Ok (m', ptr') ->
  erase_module m' = erase_module m.
Proof.
  unfold load_batch_norm. intros H. repeat inv_bind H. injection H as <- _.
  apply seq_getitem_Ok in E0. apply as_bn_Ok in E1. subst.
  eapply insert_same_erased; [eassumption|reflexivity].
Qed.

Lemma load_conv_bias_erased {F} (weights : list F) ptr m m' ptr' :
  load_conv_bias weights ptr m = Ok (m', ptr') ->
  erase_module m' = erase_module m.
Proof.
  unfold load_conv_bias. intros H. repeat inv_bind H. injection H as <- _.
  apply seq_getitem_Ok in E. apply as_conv_Ok in E0. subst.
  destruct (conv_bias v0) as [b|] eqn:Hb; [|discriminate]. injection E1 as <-.
  eapply insert_same_erased; [eassumption|].
  cbn. unfold erase_conv. cbn. now rewrite Hb.
Qed.

Lemma load_conv_weight_erased {F} (weights : list F) ptr m m' ptr' :
  load_conv_weight weights ptr m = Ok (m', ptr') ->
  erase_module m' = erase_module m.
Proof.
  unfold load_conv_weight. intros H. repeat inv_bind H. injection H as <- _.
  apply seq_getitem_Ok in E. apply as_conv_Ok in E0. subst.
  eapply insert_same_erased; [eassumption|reflexivity].
Qed.

Lemma load_convolutional_erased {F} (weights : list F) ptr blk m :
  erase_module (load_convolutional weights ptr blk m).1 = erase_module m.
Proof.
  unfold load_convolutional.
  assert (H1 : forall m1 p1,
             (if dict_has blk "batch_normalize"
              then load_batch_norm weights ptr m
              else load_conv_bias weights ptr m) = Ok (m1, p1) ->
             erase_module m1 = erase_module m).
  { intros m1 p1. destruct (dict_has blk "batch_normalize");
      [apply load_batch_norm_erased|apply load_conv_bias_erased]. }
  destruct (if dict_has blk "batch_normalize" then _ else _) as [[m1 p1]|e];
    [|reflexivity].
  specialize (H1 m1 p1 eq_refl).
  destruct (load_conv_weight weights p1 m1) as [[m2 p2]|e] eqn:E2; cbn [fst].
  - apply load_conv_weight_erased in E2. congruence.
  - exact H1.
Qed.

Lemma load_module_erased {F} (weights : list F) blocks i ml ptr :
  architecture (load_module weights blocks i ml ptr).1 = architecture ml.
Proof.
  unfold load_module. destruct (ml !! i) as [m|] eqn:Hm; [|reflexivity].
  destruct (py_getitem blocks _) as [blk|]; [|reflexivity].
  destruct (dict_getitem blk "type") as [t|]; [|reflexivity].
  destruct (String.eqb t "convolutional"); [|reflexivity].
  pose proof (load_convolutional_erased weights ptr blk m) as He.
  destruct (load_convolutional weights ptr blk m) as [m' r]. cbn [fst] in *.
  unfold architecture. rewrite list_fmap_insert, He. apply list_insert_id.
  now rewrite list_lookup_fmap, Hm.
Qed.

Lemma load_weights_loop_erased {F} (weights : list F) blocks range :
  forall ml ptr,
    architecture (load_weights_loop weights blocks range ml ptr).1 = architecture ml.
Proof.
  induction range as [|i rest IH]; intros ml ptr; cbn [load_weights_loop];
    [reflexivity|].
  pose proof (load_module_erased weights blocks i ml ptr) as He.
  destruct (load_module weights blocks i ml ptr) as [ml' [p|e]]; cbn [fst] in He.
  - now rewrite IH.
  - exact He.
Qed.

(** X9.  Whatever the blob holds, and whether the call returns or raises,
    [load_weights] leaves the architecture of the network as it was: the
    same modules with the same layers, hyperparameters and parameter
    shapes, the same blocks and [net_info].  Only the values of
    parameters change, and [header] becomes the header of the file. *)
Theorem load_weights_keeps_architecture (F : Type) (net : Darknet F)
  (file : weight_file F) :
  architecture (modules (load_weights net file).1) = architecture (modules net)
  /\ length (modules (load_weights net file).1) = length (modules net)
  /\ blocks (load_weights net file).1 = blocks net
  /\ net_info (load_weights net file).1 = net_info net
  /\ header (load_weights net file).1 = Some (wf_header file).
Proof.
  unfold load_weights.
  pose proof (load_weights_loop_erased (wf_weights file) (blocks net)
                (seq 0 (length (modules net))) (modules net) 0) as He.
  destruct (load_weights_loop _ _ _ _ _) as [ml r]. cbn in *.
  split; [exact He|]. split; [|auto].
  apply (f_equal length) in He. unfold architecture in He.
  now rewrite !length_fmap in He.
Qed.

Section LastLoad.
Context {F : Type}.
Implicit Types (weights : list F) (p : param F) (m : Sequential F).

Lemma erase_param_fresh p : p_data p = None -> erase_param p = p.
Proof. destruct p as [sh d]. cbn. now intros ->. Qed.

Lemma erase_layer_param_free (l : layer F) :
  layer_params (erase_layer l) = [] -> erase_layer l = l.
Proof. destruct l; cbn; try reflexivity; discriminate. Qed.

Lemma erase_module_param_free m : param_free (erase_module m) -> erase_module m = m.
Proof.
  unfold param_free, erase_module, Sequential in *.
  induction m as [|l m IH]; [reflexivity|]. rewrite fmap_cons. intros Hf.
  inversion Hf as [|? ? Hl Hm]; subst.
  now rewrite (erase_layer_param_free l Hl), (IH Hm).
Qed.

Lemma erase_module_fresh m : fresh_module m -> erase_module m = m.
Proof.
  unfold fresh_module, erase_module, Sequential in *.
  induction m as [|l m IH]; [reflexivity|]. cbn [map concat]. intros Hf.
  apply Forall_app in Hf as [Hl Hm]. rewrite fmap_cons, (IH Hm). f_equal.
  destruct l as [conv|bn| | | | |]; try reflexivity; cbn in Hl |- *.
  - destruct conv as [ic oc k s pd w b]. cbn in *.
    inversion Hl as [|? ? Hw Hb]; subst. unfold erase_conv. cbn.
    rewrite (erase_param_fresh w Hw). destruct b as [b|]; [|reflexivity]. cbn.
    inversion Hb; subst. now rewrite (erase_param_fresh b).
  - destruct bn as [n w b rm rv]. cbn in *.
    inversion Hl as [|? ? Hw Hl1]; subst. inversion Hl1 as [|? ? Hb Hl2]; subst.
    inversion Hl2 as [|? ? Hrm Hl3]; subst. inversion Hl3 as [|? ? Hrv _]; subst.
    unfold erase_bn. cbn.
    now rewrite !erase_param_fresh by assumption.
Qed.

(** On a module of the shape the builder gives to a [convolutional]
    block, the loop body does not look at the values the parameters hold:
    it ends the same way on the module and on its architecture, and when
    it gets through, with the same module. *)
Lemma load_convolutional_erased_input weights ptr blk m :
  conv_shape (dict_has blk "batch_normalize") (erase_module m) ->
  (load_convolutional weights ptr blk (erase_module m)).2
  = (load_convolutional weights ptr blk m).2
  /\ (is_ok (load_convolutional weights ptr blk m).2 = true ->
      (load_convolutional weights ptr blk (erase_module m)).1
      = (load_convolutional weights ptr blk m).1).
Proof.
  intros (conv0 & rest0 & Hfree & Hshape). unfold load_convolutional.
  destruct (dict_has blk "batch_normalize").
  - destruct Hshape as (Hnone & bn0 & Hm).
    destruct m as [|[conv| | | | | |] [|[|bn| | | | |] rest]]; try discriminate.
    unfold erase_module in Hm. rewrite !fmap_cons in Hm. cbn [erase_layer] in Hm.
    injection Hm as <- <- <-.
    assert (Hrest : erase_module rest = rest)
      by (apply erase_module_param_free; exact Hfree).
    assert (Hb : conv_bias conv = None)
      by (destruct conv as [? ? ? ? ? ? [b|]]; [discriminate|reflexivity]).
    unfold erase_module. rewrite !fmap_cons. fold (erase_module rest).
    rewrite Hrest. cbn [erase_layer].
    unfold load_batch_norm, load_conv_weight, seq_getitem.
    cbn [lookup list_lookup bind as_bn as_conv erase_bn erase_conv bn_weight
         bn_bias bn_running_mean bn_running_var conv_weight].
    change (numel (erase_param (bn_weight bn))) with (numel (bn_weight bn)).
    change (view_as ?a (erase_param ?p)) with (view_as a p).
    repeat (destruct (view_as _ _); cbn [bind fst snd is_ok];
            [|split; [reflexivity|discriminate]]).
    cbn [insert list_insert lookup list_lookup bind as_conv].
    change (numel (erase_param (conv_weight conv))) with (numel (conv_weight conv)).
    change (view_as ?a (erase_param ?p)) with (view_as a p).
    destruct (view_as _ _); cbn [bind fst snd is_ok];
      [|split; [reflexivity|discriminate]].
    split; [reflexivity|]. intros _. cbn [insert list_insert].
    destruct conv; cbn in Hb |- *; subst; reflexivity.
  - destruct Hshape as ([b0 Hsome] & Hm).
    destruct m as [|[conv| | | | | |] rest]; try discriminate.
    unfold erase_module in Hm. rewrite !fmap_cons in Hm. cbn [erase_layer] in Hm.
    injection Hm as <- <-.
    assert (Hrest : erase_module rest = rest)
      by (apply erase_module_param_free; exact Hfree).
    unfold erase_module. rewrite !fmap_cons. fold (erase_module rest).
    rewrite Hrest. cbn [erase_layer].
    destruct conv as [ic oc k s pd w [b|]]; [|discriminate]. clear Hsome.
    unfold load_conv_bias, load_conv_weight, seq_getitem.
    cbn [lookup list_lookup bind as_conv erase_conv conv_bias conv_weight
         option_map].
    change (numel (erase_param b)) with (numel b).
    change (view_as ?a (erase_param ?p)) with (view_as a p).
    destruct (view_as _ b); cbn [bind fst snd is_ok];
      [|split; [reflexivity|discriminate]].
    cbn [insert list_insert lookup list_lookup bind as_conv set_conv_bias
         erase_conv conv_weight conv_bias option_map].
    change (numel (erase_param w)) with (numel w).
    change (view_as ?a (erase_param ?p)) with (view_as a p).
    destruct (view_as _ w); cbn [bind fst snd is_ok];
      [|split; [reflexivity|discriminate]].
    split; reflexivity.
Qed.

Lemma load_module_erased_input weights blocks j (ml ml_e : list (Sequential F))
  ptr m blk :
  ml !! j = Some m -> ml_e !! j = Some (erase_module m) ->
  drop 1 blocks !! j = Some blk -> module_shape blk (erase_module m) ->
  (load_module weights blocks j ml_e ptr).2 = (load_module weights blocks j ml ptr).2
  /\ (is_ok (load_module weights blocks j ml ptr).2 = true ->
      exists m',
        (load_module weights blocks j ml ptr).1 = <[j := m']> ml
        /\ (load_module weights blocks j ml_e ptr).1 = <[j := m']> ml_e
        /\ erase_module m' = erase_module m).
Proof.
  intros Hm Hme Hblk (t & Ht & Hshape). unfold load_module.
  rewrite Hm, Hme, (py_getitem_succ _ _ _ Hblk). unfold dict_getitem. rewrite Ht.
  destruct (String.eqb t "convolutional").
  - destruct (load_convolutional_erased_input weights ptr blk m Hshape) as [H2 H1].
    pose proof (load_convolutional_erased weights ptr blk m) as He.
    destruct (load_convolutional weights ptr blk (erase_module m)) as [me' re].
    destruct (load_convolutional weights ptr blk m) as [m' r].
    cbn [fst snd] in *. split; [exact H2|]. intros Hok.
    exists m'. rewrite (H1 Hok). auto.
  - cbn [fst snd is_ok]. split; [reflexivity|]. intros _. exists m.
    rewrite (list_insert_id ml j m Hm). split; [reflexivity|].
    rewrite (erase_module_param_free m Hshape) in Hme.
    rewrite (list_insert_id ml_e j m Hme). auto.
Qed.

Lemma architecture_insert (ml : list (Sequential F)) j m m' :
  ml !! j = Some m -> erase_module m' = erase_module m ->
  architecture (<[j := m']> ml) = architecture ml.
Proof.
  intros Hm He. unfold architecture. rewrite list_fmap_insert, He.
  apply list_insert_id. now rewrite list_lookup_fmap, Hm.
Qed.

(** A load that gets through pays no attention to the values the
    parameters held: run on the modules still to visit with their values
    forgotten, it ends with the same network. *)
Lemma load_weights_loop_erased_input weights blocks :
  forall n j (ml ml_e : list (Sequential F)) ptr,
    (j + n = length ml)%nat -> length ml_e = length ml ->
    (forall k, (k < j)%nat -> ml_e !! k = ml !! k) ->
    (forall k, (j <= k)%nat -> ml_e !! k = erase_module <$> ml !! k) ->
    Forall2 module_shape (drop 1 blocks) (architecture ml) ->
    (load_weights_loop weights blocks (seq j n) ml_e ptr).2
    = (load_weights_loop weights blocks (seq j n) ml ptr).2
    /\ (is_ok (load_weights_loop weights blocks (seq j n) ml ptr).2 = true ->
        (load_weights_loop weights blocks (seq j n) ml_e ptr).1
        = (load_weights_loop weights blocks (seq j n) ml ptr).1).
Proof.
  induction n as [|n IH]; intros j ml ml_e ptr Hlen Hlen_e Hlo Hhi Hshape;
    cbn [seq load_weights_loop fst snd].
  - split; [reflexivity|]. intros _. apply list_eq. intros k.
    destruct (Nat.lt_ge_cases k j) as [Hk|Hk]; [now apply Hlo|].
    rewrite (lookup_ge_None_2 ml k), (lookup_ge_None_2 ml_e k) by lia.
    reflexivity.
  - destruct (lookup_lt_is_Some_2 ml j) as [m Hm]; [lia|].
    assert (Hme : ml_e !! j = Some (erase_module m))
      by (rewrite (Hhi j (Nat.le_refl j)), Hm; reflexivity).
    assert (Ha : architecture ml !! j = Some (erase_module m))
      by (unfold architecture; rewrite list_lookup_fmap, Hm; reflexivity).
    destruct (Forall2_lookup_r _ _ _ _ _ Hshape Ha) as (blk & Hblk & Hsh).
    destruct (load_module_erased_input weights blocks j ml ml_e ptr m blk
                Hm Hme Hblk Hsh) as [H2 H1].
    destruct (load_module weights blocks j ml ptr) as [ml1 [p1|e]];
      destruct (load_module weights blocks j ml_e ptr) as [ml1e re];
      cbn [fst snd] in H1, H2; subst re.
    + destruct (H1 eq_refl) as (m' & -> & -> & He).
      apply IH.
      * rewrite length_insert. lia.
      * now rewrite !length_insert.
      * intros k Hk. destruct (Nat.eq_dec j k) as [<-|Hne].
        -- rewrite !list_lookup_insert_eq by lia. reflexivity.
        -- rewrite !list_lookup_insert_ne by exact Hne. apply Hlo. lia.
      * intros k Hk. rewrite !list_lookup_insert_ne by lia. apply Hhi. lia.
      * now rewrite (architecture_insert ml j m m' Hm He).
    + cbn [fst snd is_ok]. split; [reflexivity|discriminate].
Qed.

Lemma build_convolutional_shape ic blk (m : Sequential F) oc :
  build_convolutional ic blk = Ok (m, oc) ->
  conv_shape (dict_has blk "batch_normalize") m.
Proof.
  unfold build_convolutional. intros H. repeat inv_bind H. injection H as <- _.
  unfold Conv2d_init in E4. destruct (_ || _); [discriminate|].
  injection E4 as <-.
  assert (Hleaky : param_free
            (if String.eqb v3 "leaky" then [LLeakyReLU] else [] : list (layer F))).
  { destruct (String.eqb v3 "leaky"); repeat constructor. }
  destruct (dict_has blk "batch_normalize"); cbn [negb] in *.
  - inv_bind E5. injection E5 as <-.
    refine (ex_intro _ _ (ex_intro _ _ (conj _ (conj _ (ex_intro _ _ eq_refl)))));
      [exact Hleaky|reflexivity].
  - injection E5 as <-.
    refine (ex_intro _ _ (ex_intro _ _ (conj _ (conj _ eq_refl))));
      [exact Hleaky|eexists; reflexivity].
Qed.

Lemma create_module_shape net_info i blk (st st' : build_state F) :
  create_module net_info i blk st = Ok st' ->
  exists m, module_list st' = module_list st ++ [m] /\ module_shape blk m.
Proof.
  unfold create_module. intros H. inv_bind H. apply dict_getitem_Ok in E.
  inv_bind H. destruct v0 as [m oc]. injection H as <-. cbn.
  exists m. split; [reflexivity|]. exists v. split; [exact E|].
  destruct (String.eqb v "convolutional");
    [exact (build_convolutional_shape _ _ _ _ E0)|].
  destruct (String.eqb v "shortcut");
    [repeat inv_bind E0; injection E0 as <- _; repeat constructor|].
  destruct (String.eqb v "upsample");
    [repeat inv_bind E0; injection E0 as <- _; repeat constructor|].
  destruct (String.eqb v "route");
    [apply build_route_module in E0 as [idxs ->]; repeat constructor|].
  destruct (String.eqb v "yolo").
  - inv_bind E0. injection E0 as <- _. unfold build_yolo in E1.
    repeat inv_bind E1. injection E1 as <-. repeat constructor.
  - injection E0 as <- _. constructor.
Qed.

Lemma create_modules_loop_shape net_info l : forall i (st st' : build_state F),
  create_modules_loop net_info i l st = Ok st' ->
  exists ms, module_list st' = module_list st ++ ms /\ Forall2 module_shape l ms.
Proof.
  induction l as [|b l IH]; intros i st st' H; cbn [create_modules_loop] in H.
  - injection H as <-. exists []. rewrite app_nil_r. split; constructor.
  - inv_bind H. apply create_module_shape in E as (m & Em & Hm).
    apply IH in H as (ms & Ems & Hms). exists (m :: ms).
    rewrite Ems, Em, <- app_assoc. split; [reflexivity|now constructor].
Qed.

Lemma create_modules_state_shape blocks (st : build_state F) :
  create_modules_state blocks = Ok st ->
  Forall2 module_shape (drop 1 blocks) (module_list st).
Proof.
  unfold create_modules_state. intros H. inv_bind H.
  apply create_modules_loop_shape in H as (ms & -> & Hms). exact Hms.
Qed.

Lemma architecture_fresh (ml : list (Sequential F)) :
  Forall fresh_module ml -> architecture ml = ml.
Proof.
  unfold architecture. induction 1 as [|m ml Hm _ IH]; [reflexivity|].
  now rewrite fmap_cons, IH, (erase_module_fresh m Hm).
Qed.

End LastLoad.

(** X10.  The last file loaded wins.  On a network built from a
    configuration, if loading a file gets through, then loading it after
    any other file, whether that earlier load got through or stopped half
    way, leaves exactly the same network and returns the same cursor:
    nothing of the earlier file survives. *)
Theorem last_load_wins (F : Type) (content : string) (net net_b : Darknet F)
  (file_a file_b : weight_file F) (ptr : Z)
  (Hnet : Darknet_init content = Ok net)
  (Hload : load_weights net file_b = (net_b, Ok ptr)) :
  load_weights (load_weights net file_a).1 file_b = (net_b, Ok ptr).
Proof.
  destruct (Darknet_init_inv _ _ Hnet) as (_ & st & Hst & Hml).
  destruct (create_modules_state_wf _ _ Hst) as (_ & _ & Hfresh).
  pose proof (create_modules_state_shape _ _ Hst) as Hshape.
  rewrite <- Hml in Hfresh, Hshape.
  pose proof (architecture_fresh _ Hfresh) as Harch.
  unfold load_weights at 2.
  pose proof (load_weights_loop_erased (wf_weights file_a) (blocks net)
                (seq 0 (length (modules net))) (modules net) 0) as Ha.
  destruct (load_weights_loop (wf_weights file_a) _ _ _ _) as [ml_a r_a].
  cbn [fst] in Ha |- *. rewrite Harch in Ha.
  assert (Hlen : length ml_a = length (modules net)).
  { rewrite <- Ha. unfold architecture. now rewrite length_fmap. }
  unfold load_weights in Hload |- *. cbn [blocks modules net_info]. rewrite Hlen.
  destruct (load_weights_loop_erased_input (wf_weights file_b) (blocks net)
              (length (modules net)) 0 ml_a (modules net) 0) as [H2 H1].
  - lia.
  - now rewrite Hlen.
  - intros k Hk. lia.
  - intros k _. rewrite <- Ha at 1. unfold architecture.
    now rewrite list_lookup_fmap.
  - now rewrite Ha.
  - destruct (load_weights_loop (wf_weights file_b) (blocks net) _ (modules net) 0)
      as [ml_b r_b].
    destruct (load_weights_loop (wf_weights file_b) (blocks net) _ ml_a 0)
      as [ml_ab r_ab].
    cbn [fst snd] in H1, H2. injection Hload as <- ->. subst r_ab.
    rewrite (H1 eq_refl). reflexivity.
Qed.

Lemma last_load_wins_witness :
  load_weights (load_weights (net_of cfg_two_convs) (blob 10)).1 (blob 20)
  = ((load_weights (net_of cfg_two_convs) (blob 20)).1, Ok 17).
Proof.
  apply (last_load_wins Z cfg_two_convs); vm_compute; reflexivity.
Defined.

(** ** The detection layer *)

Section DetectionMore.
Context {F : Type} `{Scalar F}.

Lemma infer_shape_mismatch (n : nat) (dims : list nat) :
  shape_numel dims <> n -> infer_shape n (map Z.of_nat dims) = Raise RuntimeError.
Proof.
  intros Hn. unfold infer_shape.
  pose proof (no_dim_below_minus_one dims []) as Hex.
  pose proof (filter_known_dims dims []) as Hne.
  pose proof (filter_inferred_dims dims []) as Heq.
  rewrite !app_nil_r in *. rewrite Hex, Hne, Heq, to_nat_of_nat_dims. simpl.
  destruct (Nat.eqb_spec (shape_numel dims) n); [contradiction|reflexivity].
Qed.

(** The first lines of the layer, on an input of four dimensions with a
    grid that is not empty: the view is taken when the element counts
    agree, and nothing after it can fail. *)
Lemma DetectionLayer_forward_unfold (det : DetectionLayer) (x : tensor F)
  (B K G G2 A C : nat) :
  length (anchors det) = A -> num_classes det = Z.of_nat C ->
  shape x = [B; K; G; G2] -> (0 < B)%nat -> (0 < A)%nat -> (0 < G)%nat ->
  (K * G2 = A * (5 + C) * G)%nat ->
  let stride := input_dim det / Z.of_nat G in
  let d := scale_by_anchors det
             (add_offsets stride
                (apply_sigmoids (reshape x [B; A; (5 + C)%nat; G; G]))) in
  exists out, DetectionLayer_forward det x = Ok (reshape d (shape x), out).
Proof.
  intros Hanchors Hclasses Hshape HB HA HG Hcount stride d.
  unfold DetectionLayer_forward, t_size. rewrite Hshape.
  cbn [lookup list_lookup bind].
  destruct (Nat.eqb_spec G 0) as [|_]; [lia|]. cbn [bind]. fold stride.
  replace [Z.of_nat B; num_anchors det; num_classes det + 5; Z.of_nat G; Z.of_nat G]
    with (map Z.of_nat [B; A; (5 + C)%nat; G; G]).
  2: { unfold num_anchors. rewrite Hanchors, Hclasses. cbn [map].
       repeat f_equal. lia. }
  unfold view at 1. rewrite infer_shape_exact.
  2: { unfold t_numel. rewrite Hshape. cbn [shape_numel fold_right].
       replace (B * (K * (G * (G2 * 1))))%nat with (B * (K * G2 * G))%nat by ring.
       rewrite Hcount. ring. }
  cbn [bind].
  set (detection0 := reshape x [B; A; (5 + C)%nat; G; G]).
  change (nth 2 (shape detection0) 0%nat) with (5 + C)%nat.
  change (5 + C <? 2)%nat with false.
  rewrite anchors_expand_some by (rewrite Hanchors; exact HA).
  cbn [bind]. subst detection0. fold d.
  assert (Hd : shape d = [B; A; (5 + C)%nat; G; G]) by reflexivity.
  pose proof (shape_transpose_1_2 d _ _ _ _ Hd) as Htr.
  replace [Z.of_nat B; num_classes det + 5; -1]
    with (map Z.of_nat [B; (5 + C)%nat] ++ [-1]).
  2: { rewrite Hclasses. cbn [map app]. repeat f_equal. lia. }
  unfold view. unfold t_numel. rewrite Htr.
  assert (Hnum : shape_numel [B; (5 + C)%nat; A; G; G]
                 = (A * G * G * shape_numel [B; (5 + C)%nat])%nat).
  { cbn [shape_numel fold_right]. ring. }
  assert (Hpos : (0 < shape_numel [B; (5 + C)%nat])%nat).
  { cbn [shape_numel fold_right]. lia. }
  rewrite infer_shape_last; [|exact Hpos|rewrite Hnum; apply Nat.Div0.mod_mul].
  cbn [bind]. eexists. reflexivity.
Qed.

End DetectionMore.

(** X11.  The detection layer works in place.  On an input of shape
    [(B, A(5+C), G, G)], with [B], [A] and [G] positive, the call leaves its
    argument with the shape it had and with every raw value replaced by
    the decoded one: the tensor the caller passed no longer holds the
    output of the layer before. *)
Theorem DetectionLayer_forward_overwrites_input (F : Type) `{Scalar F}
  (det : DetectionLayer) (x : tensor F) (B A C G : nat)
  (Hanchors : length (anchors det) = A)
  (Hclasses : num_classes det = Z.of_nat C)
  (Hshape : shape x = [B; (A * (5 + C))%nat; G; G])
  (HB : (0 < B)%nat) (HA : (0 < A)%nat) (HG : (0 < G)%nat) :
  let stride := input_dim det / Z.of_nat G in
  exists x_after out,
    DetectionLayer_forward det x = Ok (x_after, out)
    /\ shape x_after = shape x
    /\ (forall b a r c ch,
          (b < B)%nat -> (a < A)%nat -> (r < G)%nat -> (c < G)%nat ->
          (ch < 5 + C)%nat ->
          at_ x_after [b; (a * (5 + C) + ch)%nat; r; c]
          = decoded det stride a ch r c
              (at_ x [b; (a * (5 + C) + ch)%nat; r; c])).
Proof.
  intros stride.
  destruct (DetectionLayer_forward_unfold det x B (A * (5 + C)) G G A C
              Hanchors Hclasses Hshape HB HA HG) as [out Hout]; [ring|].
  eexists _, out. split; [exact Hout|]. split; [reflexivity|].
  intros b a r c ch Hb Ha Hr Hc Hch.
  assert (Hin : in_bounds [B; (A * (5 + C))%nat; G; G]
                  [b; (a * (5 + C) + ch)%nat; r; c] = true).
  { cbn [in_bounds]. rewrite !andb_true_iff, !Nat.ltb_lt.
    repeat split; try assumption. nia. }
  assert (Hravel : ravel [B; A; (5 + C)%nat; G; G] [b; a; ch; r; c]
                   = ravel [B; (A * (5 + C))%nat; G; G]
                       [b; (a * (5 + C) + ch)%nat; r; c]).
  { cbn [ravel shape_numel fold_right]. ring. }
  rewrite (reshape_at _ _ _ [b; a; ch; r; c]).
  - fold stride. rewrite decode_at. f_equal.
    apply reshape_at; rewrite Hshape; [exact Hin|exact Hravel].
  - cbn [shape scale_by_anchors add_offsets apply_sigmoids update_where reshape
         in_bounds].
    rewrite !andb_true_iff, !Nat.ltb_lt. repeat split; assumption.
  - rewrite Hshape. symmetry. exact Hravel.
Qed.

Lemma DetectionLayer_forward_overwrites_input_witness :
  exists x_after out,
    DetectionLayer_forward det_one (raw_input [2; 6; 1; 1]%nat) = Ok (x_after, out)
    /\ shape x_after = [2; 6; 1; 1]%nat
    /\ at_ x_after [1; 2; 0; 0]%nat = Mul (Exp (Raw 8)) (Int 10).
Proof.
  destruct (DetectionLayer_forward_overwrites_input term det_one
              (raw_input [2; 6; 1; 1]%nat) 2 1 1 1 eq_refl eq_refl eq_refl)
    as (xa & out & E & Hs & Hat); [lia | lia | lia |].
  exists xa, out. split; [exact E|]. split; [exact Hs|].
  exact (Hat 1 0 0 0 2 ltac:(lia) ltac:(lia) ltac:(lia) ltac:(lia) ltac:(lia))%nat.
Defined.

(** X12.  What the layer checks of its input.  On an input of shape
    [(B, K, G, G')] with [B] and [G] positive, and a layer with at least
    one anchor, the call gets through exactly
    when [K G' = A (5+C) G], that is when the element counts of the input
    and of the view [(B, A, 5+C, G, G)] agree; otherwise it raises a
    [RuntimeError].  Neither the number of channels nor the squareness of
    the grid is checked by itself. *)
Theorem DetectionLayer_forward_accepts (F : Type) `{Scalar F}
  (det : DetectionLayer) (x : tensor F) (B K G G2 A C : nat)
  (Hanchors : length (anchors det) = A)
  (Hclasses : num_classes det = Z.of_nat C)
  (Hshape : shape x = [B; K; G; G2])
  (HB : (0 < B)%nat) (HA : (0 < A)%nat) (HG : (0 < G)%nat) :
  if decide ((K * G2)%nat = (A * (5 + C) * G)%nat)
  then is_ok (DetectionLayer_forward det x) = true
  else DetectionLayer_forward det x = Raise RuntimeError.
Proof.
  destruct (decide _) as [Hcount|Hcount].
  - destruct (DetectionLayer_forward_unfold det x B K G G2 A C
                Hanchors Hclasses Hshape HB HA HG Hcount) as [out ->].
    reflexivity.
  - unfold DetectionLayer_forward, t_size. rewrite Hshape.
    cbn [lookup list_lookup bind].
    destruct (Nat.eqb_spec G 0) as [|_]; [lia|]. cbn [bind].
    replace [Z.of_nat B; num_anchors det; num_classes det + 5; Z.of_nat G; Z.of_nat G]
      with (map Z.of_nat [B; A; (5 + C)%nat; G; G]).
    2: { unfold num_anchors. rewrite Hanchors, Hclasses. cbn [map].
         repeat f_equal. lia. }
    unfold view at 1. rewrite infer_shape_mismatch; [reflexivity|].
    unfold t_numel. rewrite Hshape. cbn [shape_numel fold_right]. intros Heq.
    apply Hcount.
    replace (B * (A * ((5 + C) * (G * (G * 1)))))%nat
      with (B * G * (A * (5 + C) * G))%nat in Heq by ring.
    replace (B * (K * (G * (G2 * 1))))%nat with (B * G * (K * G2))%nat in Heq by ring.
    symmetry. apply (Nat.mul_cancel_l _ _ (B * G)%nat); [lia|exact Heq].
Qed.

Lemma DetectionLayer_forward_accepts_witness :
  DetectionLayer_forward det_one (raw_input [2; 3; 2; 2]%nat) = Raise RuntimeError.
Proof.
  apply (DetectionLayer_forward_accepts term det_one (raw_input [2; 3; 2; 2]%nat)
           2 3 2 2 1 1 eq_refl eq_refl eq_refl); lia.
Defined.

(** X13.  Degenerate inputs of the detection layer.  An input of fewer
    than three dimensions stops the call with [IndexError] at [x.size];
    an input whose third dimension is zero stops it with
    [ZeroDivisionError] at the computation of the stride. *)
Theorem DetectionLayer_forward_degenerate (F : Type) `{Scalar F}
  (det : DetectionLayer) (x : tensor F)
  (Hbad : (length (shape x) < 3)%nat \/ shape x !! 2%nat = Some 0%nat) :
  DetectionLayer_forward det x
  = Raise (if (length (shape x) <? 3)%nat then IndexError else ZeroDivisionError).
Proof.
  unfold DetectionLayer_forward, t_size.
  destruct (shape x) as [|s0 [|s1 [|s2 r]]]; try reflexivity.
  destruct Hbad as [Hlen|Hzero]; [cbn in Hlen; lia|].
  cbn in Hzero. injection Hzero as ->. reflexivity.
Qed.

Lemma DetectionLayer_forward_degenerate_witness :
  DetectionLayer_forward det_one (raw_input [1; 6; 0; 0]%nat)
  = Raise ZeroDivisionError.
Proof.
  apply (DetectionLayer_forward_degenerate term det_one (raw_input [1; 6; 0; 0]%nat)).
  right. reflexivity.
Defined.

(** ** The forward pass *)

(** X14.  A [yolo] layer overwrites the tensor it is given.  When layer
    [i] is a [yolo] layer, the object [x] named before it ran (the
    network's input when [i = 0], else entry [i-1] of [outputs]) holds
    afterwards the decoded values the detection layer left in its
    argument, and entry [i] of [outputs] is the tensor the layer returned:
    a later [route] or [shortcut] that refers to entry [i-1] reads decoded
    values, not the output of layer [i-1]. *)
Theorem yolo_overwrites_history (F : Type) `{Kernels F}
  (net : Darknet F) (input : tensor F) (i : nat) (blk : block)
  (m : Sequential F) (s s' : fstate F)
  (Hblk : drop 1 (blocks net) !! i = Some blk)
  (Htype : blk !! "type" = Some "yolo")
  (Hm : modules net !! i = Some m)
  (Hs : state_after net input i = Ok s)
  (Hs' : state_after net input (S i) = Ok s') :
  exists (det : DetectionLayer) (x_after out : tensor F),
    m = [LDetectionLayer det]
    /\ DetectionLayer_forward det (read s (x s)) = Ok (x_after, out)
    /\ read s' (x s) = x_after
    /\ py_getitem (map (read s') (outputs s')) (Z.of_nat i) = Ok out
    /\ (i = 0%nat -> read s (x s) = input)
    /\ ((1 <= i)%nat ->
        outputs s !! (i - 1)%nat = Some (x s)
        /\ py_getitem (map (read s') (outputs s')) (Z.of_nat (i - 1)) = Ok x_after).
Proof.
  pose proof (lookup_lt_Some _ _ _ Hm) as Hi.
  destruct (state_after_wf net input i s (Nat.lt_le_incl _ _ Hi) Hs)
    as (Hlen & Hx & Hlast & Hall).
  assert (Hzero : i = 0%nat -> read s (x s) = input).
  { intros ->. unfold state_after in Hs. rewrite take_0 in Hs. cbn in Hs.
    injection Hs as <-. reflexivity. }
  rewrite (state_after_S net input i m Hm), Hs in Hs'. cbn [bind] in Hs'.
  apply forward_layer_inv in Hs' as (blk' & t & s1 & Hg & Ht & -> & Hbr).
  apply (py_getitem_lookup _ _ _ _ Hblk) in Hg as <-.
  rewrite Htype in Ht. injection Ht as <-. cbn in Hbr.
  unfold forward_yolo in Hbr.
  destruct m as [|[| | | | | |det] [|]]; try discriminate.
  inv_bind Hbr. destruct v as [x_after out]. inv_bind Hbr. injection Hbr as <-.
  rename v into d.
  set (s2 := bind_x_new (write s (x s) x_after) out) in *.
  assert (Hstore : store (append_x (set_detection s2 d))
                   = <[x s := x_after]> (store s) ++ [out]) by reflexivity.
  assert (Hout : outputs (append_x (set_detection s2 d))
                 = outputs s ++ [length (store s)]).
  { cbn. now rewrite length_insert. }
  assert (Hread1 : read (append_x (set_detection s2 d)) (x s) = x_after).
  { unfold read. rewrite Hstore, lookup_app_l by (rewrite length_insert; exact Hx).
    now rewrite list_lookup_insert_eq. }
  assert (Hread2 : read (append_x (set_detection s2 d)) (length (store s)) = out).
  { unfold read. rewrite Hstore.
    replace (length (store s)) with (length (<[x s := x_after]> (store s)) + 0)%nat
      at 1 by (rewrite length_insert; lia).
    now rewrite lookup_app_r, Nat.add_comm, Nat.add_sub by lia. }
  exists det, x_after, out. split; [reflexivity|]. split; [exact E|].
  split; [exact Hread1|]. split; [|split; [exact Hzero|]].
  - apply py_getitem_nonneg; [lia|].
    rewrite Nat2Z.id, list_lookup_fmap, Hout.
    rewrite (list_lookup_middle _ _ _ i) by (symmetry; exact Hlen).
    cbn. f_equal. exact Hread2.
  - intros Hpos.
    assert (Hprev : outputs s !! (i - 1)%nat = Some (x s)).
    { rewrite <- Hlast by lia. rewrite last_lookup, Hlen. f_equal. lia. }
    split; [exact Hprev|].
    apply py_getitem_nonneg; [lia|].
    rewrite Nat2Z.id, list_lookup_fmap, Hout, (lookup_app_l_Some _ _ _ _ Hprev).
    cbn. f_equal. exact Hread1.
Qed.

Lemma yolo_overwrites_history_witness :
  let net := net_of_terms cfg_two_yolo in
  let input := raw_input [1; 5; 1; 1]%nat in
  let s := state_of (state_after net input 1) in
  let s' := state_of (state_after net input 2) in
  exists x_after : tensor term,
    read s' (x s) = x_after
    /\ py_getitem (map (read s') (outputs s')) 0 = Ok x_after
    /\ to_list (read s (x s)) = [Raw 0; Raw 1; Raw 2; Raw 3; Raw 4]
    /\ to_list x_after
       = [Mul (Add (Sigmoid (Raw 0)) (Int 0)) (Int 4);
          Mul (Add (Sigmoid (Raw 1)) (Int 0)) (Int 4);
          Mul (Exp (Raw 2)) (Int 10); Mul (Exp (Raw 3)) (Int 13);
          Sigmoid (Raw 4)].
Proof.
  intros net input s s'.
  assert (Hblk : { blk | drop 1 (blocks net) !! 1%nat = Some blk
                         /\ blk !! "type" = Some "yolo" }).
  { eexists. vm_compute. split; reflexivity. }
  destruct Hblk as (blk & Hblk & Htype).
  destruct (yolo_overwrites_history term net input 1 blk
              [LDetectionLayer (DetectionLayer_init [(10, 13)] 0 4)] s s'
              Hblk Htype)
    as (det & x_after & out & _ & _ & Hread & _ & _ & Hprev).
  - vm_compute. reflexivity.
  - apply is_ok_state. vm_compute. reflexivity.
  - apply is_ok_state. vm_compute. reflexivity.
  - destruct (Hprev (Nat.le_refl 1)) as [_ Hget].
    exists x_after. split; [exact Hread|]. split; [exact Hget|].
    rewrite <- Hread. split; vm_compute; reflexivity.
Defined.

Lemma Darknet_forward_raise_at {F : Type} `{Kernels F} (net : Darknet F)
  (input : tensor F) (i : nat) (m : Sequential F) (s : fstate F) (e : pyexn) :
  modules net !! i = Some m ->
  state_after net input i = Ok s ->
  forward_layer (drop 1 (blocks net)) i m s = Raise e ->
  Darknet_forward net input = Raise e.
Proof.
  intros Hm Hs Hl. unfold Darknet_forward.
  rewrite <- (take_drop_middle (modules net) i m Hm) at 1.
  rewrite forward_loop_app. unfold state_after in Hs. rewrite Hs. cbn [bind].
  rewrite length_take_le by (apply Nat.lt_le_incl; exact (lookup_lt_Some _ _ _ Hm)).
  cbn [forward_loop Nat.add]. rewrite Hl. reflexivity.
Qed.

(** X15.  The index of a [shortcut] layer is checked when the network
    runs, not when it is built.  When the layers before position [i] have
    run and layer [i] is a [shortcut] whose index lies outside [-i, i),
    the forward pass stops with Python's [IndexError].  The builder stores
    [from + i], so this is the fate of every [from] outside [-2i, 0), and
    of every [shortcut] at position 0. *)
Theorem shortcut_out_of_range_raises (F : Type) `{Kernels F}
  (net : Darknet F) (input : tensor F) (i : nat) (blk : block) (idx : Z)
  (s : fstate F)
  (Hblk : drop 1 (blocks net) !! i = Some blk)
  (Htype : blk !! "type" = Some "shortcut")
  (Hm : modules net !! i = Some [LShortcutLayer idx])
  (Hs : state_after net input i = Ok s)
  (Hout : in_list_range (Z.of_nat i) idx = false) :
  Darknet_forward net input = Raise IndexError.
Proof.
  pose proof (lookup_lt_Some _ _ _ Hm) as Hi.
  destruct (state_after_wf net input i s (Nat.lt_le_incl _ _ Hi) Hs)
    as (Hlen & _).
  apply (Darknet_forward_raise_at net input i _ s IndexError Hm Hs).
  unfold forward_layer.
  rewrite (py_getitem_nonneg _ (Z.of_nat i) blk);
    [|lia|rewrite Nat2Z.id; exact Hblk].
  cbn [bind]. unfold dict_getitem. rewrite Htype. cbn.
  unfold ShortcutLayer_forward.
  rewrite (py_getitem_not_in_range (outputs s) i idx Hlen Hout). reflexivity.
Qed.

Lemma shortcut_out_of_range_raises_witness :
  Darknet_forward (net_of_terms cfg_shortcut_self) (raw_input [1; 3; 1; 1]%nat)
  = Raise IndexError.
Proof.
  assert (Hblk : { blk | drop 1 (blocks (net_of_terms cfg_shortcut_self)) !! 1%nat
                         = Some blk
                         /\ blk !! "type" = Some "shortcut" }).
  { eexists. vm_compute. split; reflexivity. }
  destruct Hblk as (blk & Hblk & Htype).
  apply (shortcut_out_of_range_raises term (net_of_terms cfg_shortcut_self)
           (raw_input [1; 3; 1; 1]%nat) 1 blk 1
           (state_of (state_after (net_of_terms cfg_shortcut_self)
                        (raw_input [1; 3; 1; 1]%nat) 1)) Hblk Htype).
  - vm_compute. reflexivity.
  - apply is_ok_state. vm_compute. reflexivity.
  - vm_compute. reflexivity.
Defined.

Lemma py_getitem_map {A B} (f : A -> B) (l : list A) (i : Z) :
  py_getitem (map f l) i = (a <- py_getitem l i ;; Ok (f a)).
Proof.
  unfold py_getitem. rewrite length_map.
  destruct (_ && _); [|reflexivity].
  change (map f l) with (f <$> l). rewrite list_lookup_fmap.
  destruct (l !! _); reflexivity.
Qed.

Lemma cat1_one {F : Type} `{Scalar F} (t : tensor F) (t' : tensor F) :
  cat1 [t] = Ok t' ->
  shape t' = shape t
  /\ forall idx, in_bounds (shape t) idx = true -> at_ t' idx = at_ t idx.
Proof.
  unfold cat1. rewrite filter_cons.
  destruct (decide (is_legacy_empty t = false)) as [Hne|He].
  - rewrite filter_nil. destruct (shape t) as [|s0 [|s1 r]] eqn:Hsh; try discriminate.
    cbn [forallb map fold_right]. intros [= <-]. cbn [shape at_].
    rewrite Nat.add_0_r. split; [reflexivity|].
    intros [|i0 [|i1 ir]] _; reflexivity.
  - rewrite filter_nil. intros [= <-].
    apply not_false_is_true in He. unfold is_legacy_empty in He.
    apply bool_decide_eq_true in He. rewrite He. split; [reflexivity|].
    intros [|i0 [|]] Hb; cbn in Hb; discriminate.
Qed.

(** X16.  A [route] layer with one index hands on a copy.  When layer [i]
    is such a layer, [x] is bound afterwards to a new tensor object with
    the shape and the elements of the entry of [outputs] the index names,
    and every object there was holds what it held: an operation in place
    on the output of the [route] does not reach the entry it was copied
    from. *)
Theorem route_one_index_copies (F : Type) `{Kernels F}
  (net : Darknet F) (input : tensor F) (i : nat) (blk : block) (a : Z)
  (s s' : fstate F)
  (Hblk : drop 1 (blocks net) !! i = Some blk)
  (Htype : blk !! "type" = Some "route")
  (Hm : modules net !! i = Some [LRouteLayer [a]])
  (Hs : state_after net input i = Ok s)
  (Hs' : state_after net input (S i) = Ok s') :
  exists src : nat,
    py_getitem (outputs s) a = Ok src
    /\ x s' = length (store s)
    /\ outputs s' = outputs s ++ [x s']
    /\ shape (read s' (x s')) = shape (read s src)
    /\ (forall idx, in_bounds (shape (read s src)) idx = true ->
          at_ (read s' (x s')) idx = at_ (read s src) idx)
    /\ (forall l, (l < length (store s))%nat -> read s' l = read s l).
Proof.
  rewrite (state_after_S net input i _ Hm), Hs in Hs'. cbn [bind] in Hs'.
  apply forward_layer_inv in Hs' as (blk' & t & s1 & Hg & Ht & -> & Hbr).
  apply (py_getitem_lookup _ _ _ _ Hblk) in Hg as <-.
  rewrite Htype in Ht. injection Ht as <-. cbn in Hbr.
  inv_bind Hbr. injection Hbr as <-. rename v into v'.
  unfold RouteLayer_forward in E. cbn [mapM] in E. inv_bind E.
  inv_bind E0. inv_bind E0. injection E0 as <-.
  rewrite py_getitem_map in E1. inv_bind E1. injection E1 as <-. rename v into src.
  cbn [mapM] in E2. injection E2 as <-.
  destruct (cat1_one _ _ E) as [Hshape Hat].
  exists src. split; [exact E0|]. split; [reflexivity|]. split; [reflexivity|].
  assert (Hread : read (append_x (bind_x_new s v')) (length (store s)) = v').
  { exact (read_bind_x_new s v'). }
  cbn [append_x bind_x_new x]. rewrite Hread.
  split; [exact Hshape|]. split; [exact Hat|].
  intros l Hl. unfold read. cbn [append_x bind_x_new store].
  now rewrite lookup_app_l.
Qed.

Lemma route_one_index_copies_witness :
  let net := net_of_terms cfg_route_one in
  let input := raw_input [1; 3; 1; 1]%nat in
  let s := state_of (state_after net input 1) in
  let s' := state_of (state_after net input 2) in
  exists src : nat,
    py_getitem (outputs s) 0 = Ok src
    /\ x s' = length (store s)
    /\ shape (read s' (x s')) = shape (read s src).
Proof.
  intros net input s s'.
  assert (Hblk : { blk | drop 1 (blocks net) !! 1%nat = Some blk
                         /\ blk !! "type" = Some "route" }).
  { eexists. vm_compute. split; reflexivity. }
  destruct Hblk as (blk & Hblk & Htype).
  destruct (route_one_index_copies term net input 1 blk 0 s s' Hblk Htype)
    as (src & Hsrc & Hx & _ & Hshape & _).
  - vm_compute. reflexivity.
  - apply is_ok_state. vm_compute. reflexivity.
  - apply is_ok_state. vm_compute. reflexivity.
  - exists src. auto.
Defined.

(** ** Writing a configuration and reading it back *)

Lemma append_cons x (a b : string) : String x a +:+ b = String x (a +:+ b).
Proof. reflexivity. Qed.

Lemma append_nil (b : string) : EmptyString +:+ b = b.
Proof. reflexivity. Qed.

Ltac app_simpl := rewrite ?append_cons, ?append_nil.
Ltac app_simpl_in H := rewrite ?append_cons, ?append_nil in H.

Lemma count_char_app c (a b : string) :
  count_char c (a +:+ b) = (count_char c a + count_char c b)%nat.
Proof.
  induction a as [|x a IH]; [reflexivity|]. app_simpl; cbn [count_char].
  rewrite IH. lia.
Qed.

Lemma split_none sep s : count_char sep s = 0%nat -> split sep s = [s].
Proof.
  induction s as [|c r IH]; [reflexivity|]. cbn [count_char split].
  destruct (Ascii.eqb c sep); [discriminate|]. intros Hr.
  now rewrite (IH Hr).
Qed.

Lemma split_app_sep sep (a b : string) :
  count_char sep a = 0%nat ->
  split sep (a +:+ String sep b) = a :: split sep b.
Proof.
  induction a as [|c r IH]; app_simpl; cbn [count_char split].
  - intros _. now rewrite Ascii.eqb_refl.
  - destruct (Ascii.eqb c sep); [discriminate|]. intros Hr.
    now rewrite (IH Hr).
Qed.

Lemma lines_of_cons l l' ls :
  lines_of (l :: l' :: ls) = l +:+ String newline (lines_of (l' :: ls)).
Proof. reflexivity. Qed.

Lemma split_lines_of ls :
  ls <> [] -> Forall (fun l => count_char newline l = 0%nat) ls ->
  split newline (lines_of ls) = ls.
Proof.
  induction ls as [|l ls IH]; [contradiction|]. intros _ Hall.
  inversion Hall as [|? ? Hl Hls]; subst.
  destruct ls as [|l' ls].
  - exact (split_none newline l Hl).
  - rewrite lines_of_cons, (split_app_sep newline l _ Hl), IH by (discriminate || assumption).
    reflexivity.
Qed.

Lemma stripped_head s : strip s = s -> starts_with_space s = false.
Proof.
  intros <-. unfold strip. apply rstrip_head, lstrip_head.
Qed.

Lemma stripped_rstrip s : strip s = s -> rstrip s = s.
Proof.
  intros Hs. pose proof (stripped_head s Hs) as Hh.
  unfold strip in Hs. now rewrite (lstrip_id s Hh) in Hs.
Qed.

Lemma stripped_intro s : starts_with_space s = false -> rstrip s = s -> strip s = s.
Proof. intros Hh Hr. unfold strip. now rewrite (lstrip_id s Hh). Qed.

Lemma rstrip_nonspace c r : is_space c = false -> rstrip (String c r) = String c (rstrip r).
Proof. intros Hc. rewrite rstrip_cons, Hc. now destruct (rstrip r). Qed.

Lemma rstrip_app (a b : string) :
  rstrip b <> EmptyString -> rstrip (a +:+ b) = a +:+ rstrip b.
Proof.
  intros Hb. induction a as [|c a IH]; [reflexivity|].
  app_simpl. rewrite rstrip_cons, IH.
  destruct (a +:+ rstrip b) eqn:E; [|reflexivity].
  destruct a; [contradiction|discriminate].
Qed.

Lemma drop_last_app (t : string) c : drop_last (t +:+ String c EmptyString) = t.
Proof.
  induction t as [|x t IH]; [reflexivity|]. app_simpl; cbn [drop_last].
  destruct (t +:+ String c EmptyString) eqn:E.
  - destruct t; discriminate.
  - now rewrite IH.
Qed.

Lemma plain_name_spec t :
  plain_name t = true -> strip t = t /\ count_char newline t = 0%nat.
Proof.
  unfold plain_name. rewrite andb_true_iff, String.eqb_eq, Nat.eqb_eq. auto.
Qed.

Lemma plain_value_spec v :
  plain_value v = true ->
  strip v = v /\ count_char newline v = 0%nat /\ count_char "=" v = 0%nat.
Proof.
  unfold plain_value. rewrite andb_true_iff, Nat.eqb_eq.
  intros [Hn He]. apply plain_name_spec in Hn. tauto.
Qed.

Lemma header_of_ok t : plain_name t = true -> line_ok (header_of t).
Proof.
  intros Ht. apply plain_name_spec in Ht as [Hs Hn]. unfold header_of.
  split; [|split].
  - apply stripped_intro; [reflexivity|].
    app_simpl. rewrite rstrip_nonspace by reflexivity. f_equal.
    apply rstrip_app. discriminate.
  - reflexivity.
  - app_simpl; cbn [count_char]. rewrite count_char_app, Hn. reflexivity.
Qed.

Lemma entry_of_ok k v :
  plain_key k = true -> plain_value v = true -> line_ok (entry_of (k, v)).
Proof.
  unfold plain_key. rewrite !andb_true_iff, !negb_true_iff.
  intros [[Hk Hh] Hc] Hv.
  apply plain_value_spec in Hk as (Hks & Hkn & _).
  apply plain_value_spec in Hv as (Hvs & Hvn & _).
  unfold entry_of. cbn [fst snd].
  assert (Hr : rstrip ("=" +:+ v) = "=" +:+ v).
  { app_simpl. rewrite rstrip_nonspace by reflexivity.
    now rewrite (stripped_rstrip v Hvs). }
  split; [|split].
  - apply stripped_intro.
    + pose proof (stripped_head k Hks) as Hkh. destruct k; [reflexivity|exact Hkh].
    + rewrite rstrip_app; rewrite Hr; [reflexivity|discriminate].
  - destruct k as [|c k]; [reflexivity|]. app_simpl.
    cbn [comment_line] in Hc. cbn [keep_line]. now rewrite Hc.
  - rewrite !count_char_app, Hkn, Hvn. reflexivity.
Qed.

Lemma render_section_ok s :
  plain_section s = true -> Forall line_ok (render_section s).
Proof.
  destruct s as [t kvs]. unfold plain_section, render_section. cbn [fst snd].
  rewrite andb_true_iff. intros [Ht Hkvs]. constructor; [now apply header_of_ok|].
  induction kvs as [|[k v] kvs IH]; [constructor|].
  cbn [forallb] in Hkvs. rewrite !andb_true_iff in Hkvs.
  destruct Hkvs as [[Hk Hv] Hrest]. cbn [map].
  constructor; [now apply entry_of_ok|now apply IH].
Qed.

Lemma cfg_lines_render (cfg : list section) :
  cfg <> [] -> forallb plain_section cfg = true ->
  cfg_lines (render cfg) = concat (map render_section cfg).
Proof.
  intros Hne Hwf.
  assert (Hall : Forall line_ok (concat (map render_section cfg))).
  { clear Hne. induction cfg as [|s cfg IH]; [constructor|].
    cbn [forallb] in Hwf. apply andb_true_iff in Hwf as [Hs Hrest].
    cbn [map concat]. apply Forall_app. split; [now apply render_section_ok|auto]. }
  unfold cfg_lines, render. rewrite split_lines_of.
  - induction Hall as [|l ls (Hs & Hk & _) _ IH]; [reflexivity|].
    cbn [map]. rewrite filter_cons, Hs, decide_True by exact Hk. now rewrite IH.
  - destruct cfg as [|s cfg]; [contradiction|]. discriminate.
  - eapply Forall_impl; [exact Hall|]. now intros l (_ & _ & Hn).
Qed.

Lemma parse_lines_app l1 : forall l2 st,
  parse_lines st (l1 ++ l2) = (st' <- parse_lines st l1 ;; parse_lines st' l2).
Proof.
  induction l1 as [|l l1 IH]; intros l2 st; [reflexivity|].
  cbn [app parse_lines]. destruct (parse_line st l); [apply IH|reflexivity].
Qed.

Lemma parse_line_header bs blk t :
  plain_name t = true ->
  parse_line (bs, blk) (header_of t)
  = Ok (if negb (size blk =? 0)%nat then (bs ++ [blk], {[ "type" := t ]})
        else (bs, <["type" := t]> blk)).
Proof.
  intros Ht. apply plain_name_spec in Ht as [Hs _].
  unfold header_of. app_simpl; cbn [parse_line]. cbn [Ascii.eqb Bool.eqb].
  unfold slice_1_m1. rewrite drop_last_app, Hs.
  destruct (negb (size blk =? 0)%nat); reflexivity.
Qed.

Lemma parse_line_entry bs blk k v :
  plain_key k = true -> plain_value v = true ->
  parse_line (bs, blk) (entry_of (k, v)) = Ok (bs, <[k := v]> blk).
Proof.
  unfold plain_key. rewrite !andb_true_iff, !negb_true_iff.
  intros [[Hk Hh] _] Hv.
  apply plain_value_spec in Hk as (Hks & _ & Hke).
  apply plain_value_spec in Hv as (Hvs & _ & Hve).
  assert (Hsplit : split "=" (entry_of (k, v)) = [k; v]).
  { unfold entry_of. app_simpl; cbn [fst snd].
    now rewrite (split_app_sep "=" k v Hke), (split_none "=" v Hve). }
  unfold parse_line. destruct (entry_of (k, v)) as [|c r] eqn:E.
  - destruct k; discriminate.
  - assert (Hc : Ascii.eqb c "[" = false).
    { destruct k as [|c' k']; cbn in E; injection E as <- _; [reflexivity|exact Hh]. }
    now rewrite Hc, Hsplit, Hks, Hvs.
Qed.

Lemma parse_lines_entries bs kvs : forall blk,
  forallb (fun kv => plain_key kv.1 && plain_value kv.2) kvs = true ->
  parse_lines (bs, blk) (map entry_of kvs)
  = Ok (bs, fold_left (fun m kv => <[kv.1 := kv.2]> m) kvs blk).
Proof.
  induction kvs as [|[k v] kvs IH]; intros blk Hall; [reflexivity|].
  cbn [forallb fst snd] in Hall. rewrite !andb_true_iff in Hall.
  destruct Hall as [[Hk Hv] Hrest].
  cbn [map parse_lines fold_left]. rewrite (parse_line_entry bs blk k v Hk Hv).
  cbn [bind fst snd]. now apply IH.
Qed.

Lemma fold_insert_size (kvs : list (string * string)) : forall blk : block,
  size blk <> 0%nat ->
  size (fold_left (fun m kv => <[kv.1 := kv.2]> m) kvs blk) <> 0%nat.
Proof.
  induction kvs as [|kv kvs IH]; intros blk Hb; [exact Hb|].
  cbn [fold_left]. apply IH. apply size_insert_ne_0.
Qed.

Lemma parse_lines_sections cfg : forall bs (blk : block),
  forallb plain_section cfg = true -> size blk <> 0%nat ->
  (st <- parse_lines (bs, blk) (concat (map render_section cfg)) ;;
   Ok (st.1 ++ [st.2]))
  = Ok (bs ++ [blk] ++ map block_of cfg).
Proof.
  induction cfg as [|[t kvs] cfg IH]; intros bs blk Hwf Hb; [reflexivity|].
  cbn [forallb] in Hwf. apply andb_true_iff in Hwf as [Hs Hrest].
  unfold plain_section in Hs. cbn [fst snd] in Hs.
  apply andb_true_iff in Hs as [Ht Hkvs].
  cbn [map concat].
  change (render_section (t, kvs)) with (header_of t :: map entry_of kvs).
  rewrite <- app_comm_cons.
  cbn [parse_lines]. rewrite (parse_line_header bs blk t Ht).
  destruct (Nat.eqb_spec (size blk) 0) as [|_]; [contradiction|].
  cbn [negb bind]. rewrite parse_lines_app, (parse_lines_entries _ kvs _ Hkvs).
  cbn [bind]. rewrite IH; [|exact Hrest|].
  - unfold block_of. cbn [fst snd app]. now rewrite <- app_assoc.
  - apply fold_insert_size. rewrite map_size_singleton. discriminate.
Qed.

(** X17.  Reading back what was written.  Take a list of sections, not
    empty, written with one line [[name]] per section and one line
    [key=value] per pair, where names, keys and values carry no white
    space at their ends, no line break and (keys and values) no [=], and
    keys do not start with a bracket or a [#].  Then [parse_cfg] returns
    one block per section, in order: the [type] is the name and each key
    has the value of its last pair. *)
Theorem parse_cfg_render (cfg : list section)
  (Hne : cfg <> [])
  (Hplain : forallb plain_section cfg = true) :
  parse_cfg (render cfg) = Ok (map block_of cfg).
Proof.
  unfold parse_cfg. rewrite (cfg_lines_render cfg Hne Hplain).
  destruct cfg as [|[t kvs] cfg]; [contradiction|].
  cbn [forallb] in Hplain. apply andb_true_iff in Hplain as [Hs Hrest].
  unfold plain_section in Hs. cbn [fst snd] in Hs.
  apply andb_true_iff in Hs as [Ht Hkvs].
  cbn [map concat].
  change (render_section (t, kvs)) with (header_of t :: map entry_of kvs).
  rewrite <- app_comm_cons.
  cbn [parse_lines]. rewrite (parse_line_header [] ∅ t Ht).
  rewrite map_size_empty. cbn [Nat.eqb negb bind].
  rewrite parse_lines_app, (parse_lines_entries _ kvs _ Hkvs). cbn [bind].
  pose proof (parse_lines_sections cfg []
                (fold_left (fun m kv => <[kv.1 := kv.2]> m) kvs (<["type" := t]> ∅))
                Hrest) as Hsec.
  destruct (parse_lines _ (concat (map render_section cfg))) as [[bs b]|e].
  - cbn [bind fst snd] in Hsec |- *. rewrite Hsec; [reflexivity|].
    apply fold_insert_size, size_insert_ne_0.
  - cbn [bind] in Hsec. exfalso.
    assert (Hsize : size (fold_left (fun m kv => <[kv.1 := kv.2]> m) kvs
                            (<["type" := t]> (∅ : block))) <> 0%nat)
      by apply fold_insert_size, size_insert_ne_0.
    specialize (Hsec Hsize). discriminate.
Qed.

Lemma parse_cfg_render_witness :
  parse_cfg (render sections_tiny)
  = Ok [ {[ "type" := "net"; "width" := "608"; "height" := "416" ]};
         {[ "type" := "yolo"; "classes" := "1" ]} ].
Proof.
  rewrite (parse_cfg_render sections_tiny); [|discriminate|reflexivity].
  vm_compute. reflexivity.
Defined.

(** ** Blocks of other types *)

Lemma known_type_false t :
  known_type t = false ->
  String.eqb t "convolutional" = false /\ String.eqb t "upsample" = false
  /\ String.eqb t "shortcut" = false /\ String.eqb t "route" = false
  /\ String.eqb t "yolo" = false.
Proof.
  unfold known_type. cbn [existsb]. rewrite !orb_false_iff. tauto.
Qed.

(** X18.  A block of a type the program has no branch for (a [maxpool]
    block, say) is skipped without a word.  In a network built from a
    configuration its module is empty, and when the forward pass reaches
    it nothing is computed: [x] stays bound to the same tensor object,
    which is appended to [outputs] once more, so that entries [i-1] and
    [i] are one object. *)
Theorem unknown_block_is_skipped (F : Type) `{Kernels F}
  (content : string) (net : Darknet F) (input : tensor F) (i : nat)
  (blk : block) (t : string) (s : fstate F)
  (Hnet : Darknet_init content = Ok net)
  (Hblk : drop 1 (blocks net) !! i = Some blk)
  (Htype : blk !! "type" = Some t)
  (Hunknown : known_type t = false)
  (Hs : state_after net input i = Ok s) :
  modules net !! i = Some []
  /\ state_after net input (S i)
     = Ok {| store := store s; x := x s; outputs := outputs s ++ [x s];
             detection := detection s |}.
Proof.
  destruct (known_type_false t Hunknown) as (Hc & Hu & Hsh & Hr & Hy).
  destruct (Darknet_init_inv _ _ Hnet) as (_ & st & Hst & Hml).
  destruct (create_modules_state_record (blocks net) i blk st Hst Hblk)
    as (ni & st_i & st_i' & m & _ & Hstep & _ & _ & Happ & _ & Hm).
  assert (Hnil : m = []).
  { unfold create_module, dict_getitem in Hstep. rewrite Htype in Hstep.
    cbn [bind] in Hstep. rewrite Hc, Hsh, Hu, Hr, Hy in Hstep. cbn [bind] in Hstep.
    injection Hstep as <-. cbn in Happ. now apply app_inj_tail in Happ as [_ <-]. }
  subst m. rewrite <- Hml in Hm. split; [exact Hm|].
  rewrite (state_after_S net input i [] Hm), Hs. cbn [bind].
  unfold forward_layer.
  rewrite (py_getitem_nonneg _ (Z.of_nat i) blk);
    [|lia|rewrite Nat2Z.id; exact Hblk].
  cbn [bind]. unfold dict_getitem. rewrite Htype. cbn [bind].
  rewrite Hc, Hu, Hsh, Hr, Hy. reflexivity.
Qed.

Lemma unknown_block_is_skipped_witness :
  let net := net_of_terms cfg_maxpool in
  let input := raw_input [1; 3; 1; 1]%nat in
  let s := state_of (state_after net input 1) in
  modules net !! 1%nat = Some []
  /\ state_after net input 2
     = Ok {| store := store s; x := x s; outputs := outputs s ++ [x s];
             detection := detection s |}.
Proof.
  intros net input s.
  assert (Hblk : { blk | drop 1 (blocks net) !! 1%nat = Some blk
                         /\ blk !! "type" = Some "maxpool" }).
  { eexists. vm_compute. split; reflexivity. }
  destruct Hblk as (blk & Hblk & Htype).
  apply (unknown_block_is_skipped term cfg_maxpool net input 1 blk "maxpool" s).
  - vm_compute. reflexivity.
  - exact Hblk.
  - exact Htype.
  - reflexivity.
  - apply is_ok_state. vm_compute. reflexivity.
Defined.

(** X19.  An empty batch.  On an input whose first dimension is zero and
    whose third is not, the detection layer takes its view and rewrites
    nothing, then stops with a [RuntimeError] at the last [view]: the
    dimension written [-1] cannot be inferred from zero elements. *)
Theorem DetectionLayer_forward_empty_batch (F : Type) `{Scalar F}
  (det : DetectionLayer) (x : tensor F) (K G G2 C : nat)
  (Hclasses : num_classes det = Z.of_nat C)
  (Hshape : shape x = [0%nat; K; G; G2])
  (HG : (0 < G)%nat) :
  DetectionLayer_forward det x = Raise RuntimeError.
Proof.
  unfold DetectionLayer_forward, t_size. rewrite Hshape.
  cbn [lookup list_lookup bind].
  destruct (Nat.eqb_spec G 0) as [|_]; [lia|]. cbn [bind].
  replace [Z.of_nat 0; num_anchors det; num_classes det + 5; Z.of_nat G; Z.of_nat G]
    with (map Z.of_nat [0%nat; length (anchors det); (5 + C)%nat; G; G]).
  2: { unfold num_anchors. rewrite Hclasses. cbn [map]. repeat f_equal. lia. }
  unfold view at 1. rewrite infer_shape_exact.
  2: { unfold t_numel. rewrite Hshape. reflexivity. }
  cbn [bind].
  set (detection0 := reshape x _).
  change (nth 2 (shape detection0) 0%nat) with (5 + C)%nat.
  change (5 + C <? 2)%nat with false.
  destruct (anchors_expand det (5 + C)); [|reflexivity].
  cbn [bind].
  set (d := scale_by_anchors _ _).
  replace [Z.of_nat 0; num_classes det + 5; -1]
    with (map Z.of_nat [0%nat; (5 + C)%nat] ++ [-1]).
  2: { rewrite Hclasses. cbn [map app]. repeat f_equal. lia. }
  unfold view, infer_shape.
  rewrite no_dim_below_minus_one, filter_known_dims, filter_inferred_dims.
  change (filter (fun d => d <> -1) [-1]) with (@nil Z).
  change (filter (fun d => d = -1) [-1]) with [-1].
  rewrite app_nil_r, to_nat_of_nat_dims. reflexivity.
Qed.

Lemma DetectionLayer_forward_empty_batch_witness :
  DetectionLayer_forward det_one (raw_input [0; 6; 1; 1]%nat) = Raise RuntimeError.
Proof.
  apply (DetectionLayer_forward_empty_batch term det_one (raw_input [0; 6; 1; 1]%nat)
           6 1 1 1 eq_refl eq_refl). lia.
Defined.

(** ** The module of a [convolutional] block *)

(** X20.  The layers of the module built from a [convolutional] block.
    The convolution comes first, with the block's [size] and [stride] and
    with padding [(size-1) // 2] unless [pad] is zero.  A batch
    normalisation over [filters] channels follows, and the convolution has
    no bias, exactly when the block has a key [batch_normalize], whatever
    its value, [0] included; without the key the convolution has a bias of
    [filters] entries.  A leaky ReLU ends the module exactly when
    [activation] is [leaky]. *)
Theorem convolutional_module_layers (F : Type) (blocks : list block)
  (st : build_state F) (i : nat) (blk : block)
  (Hbuild : create_modules_state blocks = Ok st)
  (Hblk : drop 1 blocks !! i = Some blk)
  (Htype : blk !! "type" = Some "convolutional") :
  exists (conv : Conv2d F) (bn_part : Sequential F) (activation : string) (pad : Z),
    module_list st !! i
    = Some (LConv2d conv
              :: bn_part ++ (if String.eqb activation "leaky" then [LLeakyReLU] else []))
    /\ blk !! "activation" = Some activation
    /\ int_of blk "size" = Ok (conv_kernel_size conv)
    /\ int_of blk "stride" = Ok (conv_stride conv)
    /\ int_of blk "pad" = Ok pad
    /\ conv_padding conv = (if pad =? 0 then 0 else (conv_kernel_size conv - 1) / 2)
    /\ if dict_has blk "batch_normalize"
       then conv_bias conv = None
            /\ exists bn, bn_part = [LBatchNorm2d bn]
                          /\ bn_num_features bn = conv_out_channels conv
       else bn_part = []
            /\ exists b, conv_bias conv = Some b
                         /\ p_shape b = [conv_out_channels conv].
Proof.
  destruct (create_modules_state_record blocks i blk st Hbuild Hblk)
    as (ni & st_i & st_i' & m & _ & Hstep & _ & _ & Hml & _ & Hm).
  rewrite (create_module_convolutional _ _ _ _ Htype) in Hstep.
  inv_bind Hstep. destruct v as [m' oc]. injection Hstep as <-.
  cbn in Hml. apply app_inj_tail in Hml as [_ <-].
  unfold build_convolutional in E. repeat inv_bind E. injection E as <- _.
  rename v into filters, v0 into size, v1 into stride, v2 into pad,
    v3 into activation, v4 into conv, v5 into bn_part.
  unfold Conv2d_init in E5. destruct (_ || _); [discriminate|].
  injection E5 as <-. apply dict_getitem_Ok in E4.
  eexists _, bn_part, activation, pad. split; [exact Hm|].
  cbn [conv_kernel_size conv_stride conv_padding conv_bias conv_out_channels].
  repeat match goal with |- _ /\ _ => split end; try assumption.
  - destruct (pad =? 0); reflexivity.
  - destruct (dict_has blk "batch_normalize"); cbn [negb].
    + split; [reflexivity|]. inv_bind E6. injection E6 as <-.
      unfold BatchNorm2d_init in E. destruct (filters <? 0); [discriminate|].
      injection E as <-. eexists. split; reflexivity.
    + injection E6 as <-. split; [reflexivity|]. eexists. split; reflexivity.
Qed.

Lemma convolutional_module_layers_witness :
  exists (conv : Conv2d Z) (bn_part : Sequential Z) (activation : string) (pad : Z),
    module_list (built cfg_bn_zero) !! 0%nat
    = Some (LConv2d conv
              :: bn_part ++ (if String.eqb activation "leaky" then [LLeakyReLU] else []))
    /\ block_at cfg_bn_zero 0 !! "activation" = Some activation
    /\ int_of (block_at cfg_bn_zero 0) "size" = Ok (conv_kernel_size conv)
    /\ int_of (block_at cfg_bn_zero 0) "stride" = Ok (conv_stride conv)
    /\ int_of (block_at cfg_bn_zero 0) "pad" = Ok pad
    /\ conv_padding conv = (if pad =? 0 then 0 else (conv_kernel_size conv - 1) / 2)
    /\ if dict_has (block_at cfg_bn_zero 0) "batch_normalize"
       then conv_bias conv = None
            /\ exists bn, bn_part = [LBatchNorm2d bn]
                          /\ bn_num_features bn = conv_out_channels conv
       else bn_part = []
            /\ exists b, conv_bias conv = Some b
                         /\ p_shape b = [conv_out_channels conv].
Proof.
  apply (convolutional_module_layers Z (blocks_of cfg_bn_zero) (built cfg_bn_zero)
           0 (block_at cfg_bn_zero 0));
    vm_compute; reflexivity.
Defined.

(** ** A configuration without a line *)

(** X21.  A configuration that holds nothing but blank lines and comments
    is accepted.  It gives a network without a module, whose only block is
    the empty dict; the forward pass of that network returns the empty
    tensor whatever the input, and loading weights into it reads no float
    and returns the cursor 0. *)
Theorem blank_configuration_gives_empty_network (F : Type) `{Kernels F}
  (content : string)
  (Hblank : forallb blank_or_comment (split newline content) = true) :
  exists net : Darknet F,
    Darknet_init content = Ok net
    /\ blocks net = [∅] /\ net_info net = ∅ /\ modules net = []
    /\ (forall input, Darknet_forward net input = Ok empty_tensor)
    /\ (forall file, (load_weights net file).2 = Ok 0).
Proof.
  assert (Hparse : parse_cfg content = Ok [∅]).
  { unfold parse_cfg. rewrite (cfg_lines_nil content Hblank). reflexivity. }
  eexists. split.
  - unfold Darknet_init. rewrite Hparse. cbn [bind].
    unfold create_modules. rewrite py_getitem_0. reflexivity.
  - repeat match goal with |- _ /\ _ => split end; reflexivity.
Qed.

Lemma blank_configuration_gives_empty_network_witness :
  exists net : Darknet term,
    Darknet_init (lines_of ["# yolo"; ""; "   "]) = Ok net
    /\ modules net = []
    /\ Darknet_forward net (raw_input [1; 3; 2; 2]%nat) = Ok empty_tensor.
Proof.
  destruct (blank_configuration_gives_empty_network term
              (lines_of ["# yolo"; ""; "   "]) eq_refl)
    as (net & Hinit & _ & _ & Hm & Hf & _).
  exists net. split; [exact Hinit|]. split; [exact Hm|]. apply Hf.
Defined.
